(** * WooWonder data extractor: transport, paginator and normalizer

    A shallow embedding of the extraction pipeline of [app.py]:
    [make_api_request] (retrying transport), [bulk_fetch_articles]
    (paginator), [extract_author_info], [process_articles_data] and
    [process_users_data] (normalizer), followed by the properties the
    specification states about them; then the code around the pipeline:
    the cleaning of the column names in [export_to_csv], the default
    columns of [display_data_preview], and the users and articles tabs of
    the script up to the message that announces the result, with further
    properties of the whole.

    Python values are an inductive type; dictionaries are association
    lists in insertion order; the dictionaries that the program mutates
    live in a heap of objects addressed by location, so that [dict.copy()]
    and in-place assignment keep their aliasing behaviour; the network,
    the Streamlit message area and [time.sleep] are fields of an explicit
    world that every effectful function threads. *)

From Stdlib Require Import ZArith List String Ascii Bool Lia DecimalString.
From stdpp Require Import base list strings.
Import ListNotations.

Local Open Scope string_scope.
Local Open Scope list_scope.
Local Open Scope Z_scope.

(** ** Python values *)

(** JSON-shaped Python data.  Numbers are integers: fractional JSON
    numbers are outside this model.  A [string] is a sequence of
    characters drawn from the first 256 code points. *)
#[warnings="-register-all"]
Inductive value : Type :=
| VNone
| VBool (b : bool)
| VInt (n : Z)
| VStr (s : string)
| VList (xs : list value)
| VDict (kvs : list (string * value)).

(** A [dict] with string keys, in insertion order. *)
Abbreviation pydict := (list (string * value)).

(** The exception classes the modelled code can meet. *)
Inductive exn : Type :=
| TypeError
| AttributeError
| ValueError
| OverflowError
| OSError.

(** Outcome of an expression that may raise. *)
Inductive res (A : Type) : Type :=
| Ret (a : A)
| Raise (e : exn).
Arguments Ret {A} a.
Arguments Raise {A} e.

Definition res_bind {A B : Type} (r : res A) (k : A -> res B) : res B :=
  match r with
  | Ret a => k a
  | Raise e => Raise e
  end.

Notation "'try!' x <- r ; k" := (res_bind r (fun x => k))
  (at level 10, x name, r at level 100, k at level 200).

(** [d.get(k)] *)
Fixpoint dict_get (d : pydict) (k : string) : option value :=
  match d with
  | [] => None
  | (k', v) :: d' => if String.eqb k' k then Some v else dict_get d' k
  end.

(** [d.get(k, dflt)] *)
Definition dict_get_default (d : pydict) (k : string) (dflt : value) : value :=
  match dict_get d k with
  | Some v => v
  | None => dflt
  end.

(** [k in d] *)
Definition dict_mem (d : pydict) (k : string) : bool :=
  match dict_get d k with
  | Some _ => true
  | None => false
  end.

(** [d[k] = v]: an existing key keeps its position, a new key goes last. *)
Fixpoint dict_set (d : pydict) (k : string) (v : value) : pydict :=
  match d with
  | [] => [(k, v)]
  | (k', v') :: d' =>
      if String.eqb k' k then (k', v) :: d' else (k', v') :: dict_set d' k v
  end.

Definition dict_keys (d : pydict) : list string := map fst d.

(** Truth value of an object in a boolean context. *)
Definition truthy (v : value) : bool :=
  match v with
  | VNone => false
  | VBool b => b
  | VInt n => negb (n =? 0)
  | VStr s => negb (String.eqb s "")
  | VList xs => match xs with [] => false | _ => true end
  | VDict kvs => match kvs with [] => false | _ => true end
  end.

(** The integer behind a numeric object ([bool] is a subclass of [int]). *)
Definition as_int (v : value) : option Z :=
  match v with
  | VInt n => Some n
  | VBool b => Some (if b then 1 else 0)
  | _ => None
  end.

(** [min(a, b)] on objects ordered as integers: [b] only when [b < a];
    ordering an integer against a non-number raises [TypeError]. *)
Definition py_min (a b : value) : res value :=
  match as_int a, as_int b with
  | Some x, Some y => Ret (if y <? x then b else a)
  | _, _ => Raise TypeError
  end.

(** [a + n] for an integer [n]. *)
Definition py_add_int (a : value) (n : Z) : res value :=
  match as_int a with
  | Some x => Ret (VInt (x + n))
  | None => Raise TypeError
  end.

Definition str_of_Z (n : Z) : string := NilZero.string_of_int (Z.to_int n).

(** The one-character strings of [s], as iterating a [str] yields them. *)
Fixpoint str_chars (s : string) : list value :=
  match s with
  | EmptyString => []
  | String c s' => VStr (String c EmptyString) :: str_chars s'
  end.

(** The items an iteration over [v] yields ([list.extend], [for]). *)
Definition py_iter (v : value) : res (list value) :=
  match v with
  | VList xs => Ret xs
  | VDict kvs => Ret (map (fun kv => VStr (fst kv)) kvs)
  | VStr s => Ret (str_chars s)
  | _ => Raise TypeError
  end.

(** [v == 200] *)
Definition eq_200 (v : option value) : bool :=
  match v with
  | Some (VInt n) => n =? 200
  | _ => false
  end.

(** ** The world: heap, network, user interface, clock *)

Abbreviation loc := nat (only parsing).

Inductive http_method : Type := GET | POST.

(** A call of [requests.get] / [requests.post]. *)
Record http_request : Type := mkRequest {
  req_method : http_method;
  req_url : string;
  req_data : option pydict;
  req_timeout : Z
}.

(** What [response.json()] does: it returns the decoded body, or raises
    [requests.exceptions.JSONDecodeError] with a message when the body is
    not JSON. *)
Inductive json_result : Type :=
| Decoded (v : value)
| NotJSON (msg : string).

(** What a [Response] object answers to the two methods the code calls. *)
Record response : Type := mkResponse {
  (** [raise_for_status()]: the [HTTPError] message of a non-2xx status *)
  status_error : option string;
  (** [json()] *)
  json_body : json_result
}.

(** [requests.get] / [requests.post] either return a response or raise a
    [RequestException] (connection error, timeout). *)
Inductive send_outcome : Type :=
| Sent (r : response)
| SendError (msg : string).

(** One request together with what came back. *)
Definition exchange : Type := (http_request * send_outcome)%type.

(** A record of one call of [make_api_request]: the payload as it was on
    entry, the exchanges the call made and the value it returned.  The log
    of these records is history only; no modelled code reads it. *)
Record api_call : Type := mkCall {
  call_endpoint : string;
  call_data : option pydict;
  call_exchanges : list exchange;
  call_result : value
}.

Section Program.

(** The remote service: a state and what it answers to each request. *)
Context {Server : Type}.
Variable serve : Server -> http_request -> send_outcome * Server.

(** The sidebar configuration, read as module-level globals. *)
Variables site_url access_token server_key : string.

Record world : Type := mkWorld {
  heap : list pydict;                         (* dict objects by address *)
  server : Server;
  http_log : list exchange;                   (* network trace, oldest first *)
  ui_errors : list string;                    (* st.error messages *)
  sleeps : list Z;                            (* time.sleep arguments *)
  progress_log : list string;                 (* progress_callback messages *)
  api_calls : list api_call                   (* history of transport calls *)
}.

Definition set_heap (h : list pydict) (w : world) : world :=
  mkWorld h (server w) (http_log w) (ui_errors w) (sleeps w)
          (progress_log w) (api_calls w).

(** The dict at address [l] (an address never allocated reads as empty). *)
Definition deref (w : world) (l : loc) : pydict := default [] (heap w !! l).

(** [d[k] = v] on the dict object at [l]. *)
Definition store (l : loc) (k : string) (v : value) (w : world) : world :=
  set_heap (<[l := dict_set (deref w l) k v]> (heap w)) w.

(** [d.copy()]: a new object with the same items. *)
Definition dict_copy (l : loc) (w : world) : loc * world :=
  (length (heap w), set_heap (heap w ++ [deref w l]) w).

(** [st.error(msg)] *)
Definition st_error (msg : string) (w : world) : world :=
  mkWorld (heap w) (server w) (http_log w) (ui_errors w ++ [msg]) (sleeps w)
          (progress_log w) (api_calls w).

(** [time.sleep(t)] *)
Definition time_sleep (t : Z) (w : world) : world :=
  mkWorld (heap w) (server w) (http_log w) (ui_errors w) (sleeps w ++ [t])
          (progress_log w) (api_calls w).

Definition report_progress (msg : string) (w : world) : world :=
  mkWorld (heap w) (server w) (http_log w) (ui_errors w) (sleeps w)
          (progress_log w ++ [msg]) (api_calls w).

Definition log_call (c : api_call) (w : world) : world :=
  mkWorld (heap w) (server w) (http_log w) (ui_errors w) (sleeps w)
          (progress_log w) (api_calls w ++ [c]).

(** Sending a request: the service answers and moves on. *)
Definition send (rq : http_request) (w : world) : send_outcome * world :=
  let (out, s') := serve (server w) rq in
  (out, mkWorld (heap w) s' (http_log w ++ [(rq, out)]) (ui_errors w)
                (sleeps w) (progress_log w) (api_calls w)).

(** ** Transport: [make_api_request] *)

(** [s.rstrip('/')] *)
Fixpoint rstrip_slash (s : string) : string :=
  match s with
  | EmptyString => EmptyString
  | String c s' =>
      match rstrip_slash s' with
      | EmptyString =>
          if Ascii.eqb c "/" then EmptyString else String c EmptyString
      | t => String c t
      end
  end.

Definition api_url (endpoint : string) : string :=
  rstrip_slash site_url +:+ "/api/" +:+ endpoint +:+ "?access_token="
  +:+ access_token.

(** How the body of the [try] block ends, as the two handlers tell the
    exceptions apart: a [RequestException] goes to the first handler
    (line 59); [JSONDecodeError] stands for a [json.JSONDecodeError] that
    is not a [RequestException], which alone reaches the second handler
    (line 65). *)
Inductive try_outcome : Type :=
| Returned (v : value)
| RequestException (msg : string)
| JSONDecodeError.

(** Lines 56-57: [raise_for_status()] then [json()], or the exception
    raised by the send itself.  The error that [json()] raises (requests
    2.27 and later) is [requests.exceptions.JSONDecodeError], which is a
    [RequestException] as well as a [json.JSONDecodeError]: the first
    handler takes it, and nothing in the [try] block ends in
    [JSONDecodeError]. *)
Definition classify (out : send_outcome) : try_outcome :=
  match out with
  | SendError msg => RequestException msg
  | Sent r =>
      match status_error r with
      | Some msg => RequestException msg
      | None =>
          match json_body r with
          | Decoded v => Returned v
          | NotJSON msg => RequestException msg
          end
      end
  end.

(** Lines 48-57: one attempt. *)
Definition attempt_request (endpoint : string) (post_data : option loc)
    (w : world) : try_outcome * world :=
  let url := api_url endpoint in
  let (out, w1) :=
    match post_data with
    | Some l =>
        if truthy (VDict (deref w l)) then
          let w0 := store l "server_key" (VStr server_key) w in
          send (mkRequest POST url (Some (deref w0 l)) 30) w0
        else send (mkRequest GET url None 30) w
    | None => send (mkRequest GET url None 30) w
    end in
  (classify out, w1).

(** Lines 46-69: the [for attempt in range(retries)] loop over the
    attempts still to make. *)
Fixpoint request_attempts (endpoint : string) (post_data : option loc)
    (retries : Z) (attempts : list Z) (w : world) : value * world :=
  match attempts with
  | [] => (VNone, w)
  | attempt :: rest =>
      let (o, w1) := attempt_request endpoint post_data w in
      match o with
      | Returned v => (v, w1)
      | RequestException e =>
          if attempt =? retries - 1 then
            (VNone,
             st_error ("API request failed after " +:+ str_of_Z retries
                       +:+ " attempts: " +:+ e) w1)
          else
            request_attempts endpoint post_data retries rest
                             (time_sleep (2 ^ attempt) w1)
      | JSONDecodeError =>
          (VNone, st_error "Invalid JSON response from API" w1)
      end
  end.

(** [range(n)] *)
Definition range (n : Z) : list Z := map Z.of_nat (seq 0 (Z.to_nat n)).

Definition make_api_request (endpoint : string) (post_data : option loc)
    (retries : Z) (w : world) : value * world :=
  let entry := option_map (deref w) post_data in
  let (r, w') :=
    request_attempts endpoint post_data retries (range retries) w in
  (r, log_call (mkCall endpoint entry
                       (drop (length (http_log w)) (http_log w')) r) w').

(** ** Paginator: [bulk_fetch_articles] *)

(** The loop's local variables. *)
Record loop_state : Type := mkLoop {
  all_articles : list value;
  total_fetched : Z;
  page : Z
}.

(** How one pass through the loop body ends. *)
Inductive step_result : Type :=
| Continue (st : loop_state)
| Break (st : loop_state)
| Throw (e : exn).

(** How a number prints in an f-string. *)
Definition str_of_num (v : value) : string :=
  match v with
  | VBool true => "True"
  | VBool false => "False"
  | VInt n => str_of_Z n
  | _ => ""
  end.

(** Lines 116-135: what the loop does with the transport's result. *)
Definition handle_result (st : loop_state) (current_limit result : value)
    (w : world) : step_result * world :=
  let failed :=
    (Break st,
     st_error ("Failed to fetch page " +:+ str_of_Z (page st)
               +:+ ". Stopping bulk fetch.") w) in
  if truthy result then
    match result with
    | VDict d =>
        if eq_200 (dict_get d "api_status") then
          let articles_batch := dict_get_default d "articles" (VList []) in
          if truthy articles_batch then
            match py_iter articles_batch with
            | Raise e => (Throw e, w)
            | Ret items =>
                let n := Z.of_nat (length items) in
                let all := all_articles st ++ items in
                let fetched := total_fetched st + n in
                match as_int current_limit with
                | None => (Throw TypeError, w)
                | Some lim =>
                    if n <? lim then (Break (mkLoop all fetched (page st)), w)
                    else (Continue (mkLoop all fetched (page st + 1)),
                          time_sleep 1 w)
                end
            end
          else (Break st, w)
        else failed
    | _ => (Throw AttributeError, w)
    end
  else failed.

(** Lines 101-135: the loop body.  [progress_callback] tells whether a
    callback was given; the callback receives the message and nothing
    else, so it is modelled as the log of the messages. *)
Definition bulk_step (post_data : loc) (total_limit : Z)
    (progress_callback : bool) (current_offset api_limit : value)
    (st : loop_state) (w : world) : step_result * world :=
  let remaining := total_limit - total_fetched st in
  match py_min api_limit (VInt remaining) with
  | Raise e => (Throw e, w)
  | Ret current_limit =>
      let (current_post_data, w1) := dict_copy post_data w in
      let w2 := store current_post_data "limit" current_limit w1 in
      match py_add_int current_offset (total_fetched st) with
      | Raise e => (Throw e, w2)
      | Ret offset =>
          let w3 := store current_post_data "offset" offset w2 in
          let w4 :=
            if progress_callback then
              report_progress
                ("Fetching page " +:+ str_of_Z (page st) +:+ " (offset "
                 +:+ str_of_num offset +:+ ", limit "
                 +:+ str_of_num current_limit +:+ ")") w3
            else w3 in
          let (result, w5) :=
            make_api_request "get-articles" (Some current_post_data) 3 w4 in
          handle_result st current_limit result w5
      end
  end.

(** Lines 100-137: the [while] loop.  [None] only when [fuel] passes
    through the body do not reach the end of the loop. *)
Fixpoint bulk_loop (fuel : nat) (post_data : loc) (total_limit : Z)
    (progress_callback : bool) (current_offset api_limit : value)
    (st : loop_state) (w : world) : option (res (list value) * world) :=
  if total_fetched st <? total_limit then
    match fuel with
    | O => None
    | S fuel' =>
        match bulk_step post_data total_limit progress_callback
                        current_offset api_limit st w with
        | (Continue st', w') =>
            bulk_loop fuel' post_data total_limit progress_callback
                      current_offset api_limit st' w'
        | (Break st', w') => Some (Ret (all_articles st'), w')
        | (Throw e, w') => Some (Raise e, w')
        end
    end
  else Some (Ret (all_articles st), w).

(** Lines 91-137.  Every pass that goes round again has fetched at least
    one more record, so [total_limit] passes are enough
    ([bulk_fetch_articles_returns] below). *)
Definition bulk_fetch_articles (post_data : loc) (total_limit : Z)
    (progress_callback : bool) (w : world)
    : option (res (list value) * world) :=
  let current_offset :=
    dict_get_default (deref w post_data) "offset" (VInt 0) in
  match py_min (VInt 1000)
               (dict_get_default (deref w post_data) "limit" (VInt 1000)) with
  | Raise e => Some (Raise e, w)
  | Ret api_limit =>
      bulk_loop (Z.to_nat total_limit) post_data total_limit
                progress_callback current_offset api_limit (mkLoop [] 0 1) w
  end.

End Program.

(** ** Normalizer: [extract_author_info], [process_articles_data],
       [process_users_data] *)

(** *** [int(x)] *)

(** The characters [int] strips around a literal: ASCII white space, and
    the two white-space characters of the upper half of the code page
    (U+0085 and U+00A0). *)
Definition is_space (c : ascii) : bool :=
  let n := Z.of_nat (nat_of_ascii c) in
  ((9 <=? n) && (n <=? 13)) || (n =? 32) || (n =? 133) || (n =? 160).

Definition digit_val (c : ascii) : option Z :=
  let n := Z.of_nat (nat_of_ascii c) in
  if (48 <=? n) && (n <=? 57) then Some (n - 48) else None.

Fixpoint lstrip (s : string) : string :=
  match s with
  | EmptyString => EmptyString
  | String c s' => if is_space c then lstrip s' else s
  end.

Fixpoint all_space (s : string) : bool :=
  match s with
  | EmptyString => true
  | String c s' => is_space c && all_space s'
  end.

(** Digits with single underscores between them, then white space to the
    end: the value read and the number of digits.  [prev_us] tells that the
    previous character was an underscore. *)
Fixpoint scan_digits (s : string) (prev_us : bool) (acc count : Z)
    : option (Z * Z) :=
  match s with
  | EmptyString => if prev_us then None else Some (acc, count)
  | String c s' =>
      match digit_val c with
      | Some d => scan_digits s' false (10 * acc + d) (count + 1)
      | None =>
          if Ascii.eqb c "_" then
            if prev_us || (count =? 0) then None
            else scan_digits s' true acc count
          else if is_space c && negb prev_us && all_space s' then
            Some (acc, count)
          else None
      end
  end.

(** [sys.get_int_max_str_digits()], the interpreter's default. *)
Definition int_max_str_digits : Z := 4300.

(** [int(s)] for a string: [None] stands for [ValueError]. *)
Definition parse_int (s : string) : option Z :=
  let body := lstrip s in
  let (negative, digits) :=
    match body with
    | String "-" t => (true, t)
    | String "+" t => (false, t)
    | _ => (false, body)
    end in
  match scan_digits digits false 0 0 with
  | Some (n, count) =>
      if (count =? 0) || (int_max_str_digits <? count) then None
      else Some (if negative then - n else n)
  | None => None
  end.

(** [int(v)] *)
Definition py_int (v : value) : res Z :=
  match v with
  | VInt n => Ret n
  | VBool b => Ret (if b then 1 else 0)
  | VStr s => match parse_int s with Some n => Ret n | None => Raise ValueError end
  | VNone | VList _ | VDict _ => Raise TypeError
  end.

(** *** [datetime.fromtimestamp(t).strftime('%Y-%m-%d %H:%M:%S')] *)

Record datetime : Type := mkDatetime {
  dt_year : Z; dt_month : Z; dt_day : Z;
  dt_hour : Z; dt_minute : Z; dt_second : Z
}.

(** Year, month and day of the proleptic Gregorian calendar for a number
    of days since 1970-01-01. *)
Definition civil_from_days (days : Z) : Z * Z * Z :=
  let z := days + 719468 in
  let era := z / 146097 in
  let doe := z - era * 146097 in
  let yoe := (doe - doe / 1460 + doe / 36524 - doe / 146096) / 365 in
  let doy := doe - (365 * yoe + yoe / 4 - yoe / 100) in
  let mp := (5 * doy + 2) / 153 in
  let d := doy - (153 * mp + 2) / 5 + 1 in
  let m := if mp <? 10 then mp + 3 else mp - 9 in
  (if m <=? 2 then yoe + era * 400 + 1 else yoe + era * 400, m, d).

Definition pad2 (n : Z) : string :=
  if n <? 10 then "0" +:+ str_of_Z n else str_of_Z n.

(** [%Y] prints the year as the C library of the reference platform does,
    without padding; the years 1000 to 9999 print alike everywhere. *)
Definition strftime (dt : datetime) : string :=
  str_of_Z (dt_year dt) +:+ "-" +:+ pad2 (dt_month dt) +:+ "-"
  +:+ pad2 (dt_day dt) +:+ " " +:+ pad2 (dt_hour dt) +:+ ":"
  +:+ pad2 (dt_minute dt) +:+ ":" +:+ pad2 (dt_second dt).

(** The exceptions that [except (ValueError, TypeError)] catches. *)
Definition caught (e : exn) : bool :=
  match e with
  | ValueError | TypeError => true
  | _ => false
  end.

Section Normalizer.

(** [json.loads] on a string: [None] stands for [json.JSONDecodeError]. *)
Variable json_loads : string -> option value.

(** The rules of the local time zone: the number of seconds that local
    time is ahead of UTC at the instant [t] (it changes with daylight
    saving time and with the history of the zone). *)
Variable utc_offset : Z -> Z.

(** [localtime()] *)
Definition localtime (t : Z) : datetime :=
  let lt := t + utc_offset t in
  let '(y, m, d) := civil_from_days (lt / 86400) in
  let sod := lt mod 86400 in
  mkDatetime y m d (sod / 3600) ((sod mod 3600) / 60) (sod mod 60).

Definition year_in_range (y : Z) : bool := (1 <=? y) && (y <=? 9999).

(** [datetime.fromtimestamp(t)] for an integer [t]: [OverflowError]
    outside the platform's 64-bit [time_t], [OSError] when the year does
    not fit the C [struct tm], [ValueError] when the year lies outside
    1..9999, or the year of an instant that the conversion probes to
    detect a repeated local hour: the instant one day earlier and, when
    the zone has moved its clocks back during that day by [s] seconds, the
    instant [s] seconds earlier. *)
Definition fromtimestamp (t : Z) : res datetime :=
  if (t <? - 2 ^ 63) || (2 ^ 63 - 1 <? t) then Raise OverflowError
  else
    let dt := localtime t in
    if (dt_year dt - 1900 <? - 2 ^ 31) || (2 ^ 31 - 1 <? dt_year dt - 1900)
    then Raise OSError
    else if year_in_range (dt_year dt)
              && year_in_range (dt_year (localtime (t - 86400)))
    then
      let transition := utc_offset t - utc_offset (t - 86400) in
      if (transition <? 0)
         && negb (year_in_range (dt_year (localtime (t + transition))))
      then Raise ValueError
      else Ret dt
    else Raise ValueError.

(** Lines 71-89. *)
Definition extract_author_info (author_data : value) : value * value :=
  if truthy author_data then
    let decoded :=
      match author_data with
      | VStr s => json_loads s
      | v => Some v
      end in
    match decoded with
    | Some (VDict d) =>
        (dict_get_default d "username" (VStr ""),
         dict_get_default d "email" (VStr ""))
    | _ => (VNone, VNone)
    end
  else (VNone, VNone).

(** Lines 155-157: the per-key loop over the author mapping. *)
Definition flatten_author (author_data processed : pydict) : pydict :=
  fold_left
    (fun p kv =>
       if String.eqb (fst kv) "username" || String.eqb (fst kv) "email"
       then p
       else dict_set p ("author_" +:+ fst kv) (snd kv))
    author_data processed.

(** [for key, value in d.items(): processed[prefix + key] = value] *)
Definition flatten_into (prefix : string) (d processed : pydict) : pydict :=
  fold_left (fun p kv => dict_set p (prefix +:+ fst kv) (snd kv)) d processed.

(** The timestamp fields of an article and of a user. *)
Definition article_date_fields : list string :=
  ["time"; "created_at"; "updated_at"].
Definition user_date_fields : list string :=
  ["lastseen"; "last_data_update"; "point_day_expire"].

(** [f'{date_field}_readable'] *)
Definition readable_key (date_field : string) : string :=
  date_field +:+ "_readable".

(** Lines 166-172 and 205-211: the loop over the timestamp fields. *)
Fixpoint add_readable (fields : list string) (processed : pydict)
    : res pydict :=
  match fields with
  | [] => Ret processed
  | date_field :: rest =>
      match dict_get processed date_field with
      | Some v =>
          if truthy v then
            match (try! timestamp <- py_int v; fromtimestamp timestamp) with
            | Ret dt =>
                add_readable rest
                  (dict_set processed (readable_key date_field)
                            (VStr (strftime dt)))
            | Raise e => if caught e then add_readable rest processed
                         else Raise e
            end
          else add_readable rest processed
      | None => add_readable rest processed
      end
  end.

(** Lines 144-163: the copy of the article with the author and category
    fields added. *)
Definition author_and_category (article : pydict) : pydict :=
  let processed_article := article in
  let author_data := dict_get_default article "author" (VDict []) in
  let (author_username, author_email) := extract_author_info author_data in
  let processed_article :=
    dict_set processed_article "author_username" author_username in
  let processed_article :=
    dict_set processed_article "author_email" author_email in
  let processed_article :=
    match author_data with
    | VDict a => flatten_author a processed_article
    | _ => processed_article
    end in
  match dict_get article "category" with
  | Some (VDict category_data) =>
      dict_set
        (dict_set processed_article "category_name"
                  (dict_get_default category_data "name" (VStr "")))
        "category_id" (dict_get_default category_data "id" (VStr ""))
  | _ => processed_article
  end.

(** Lines 144-174: the body of the loop, for one article. *)
Definition process_article (article : value) : res pydict :=
  match article with
  | VDict article =>
      add_readable article_date_fields (author_and_category article)
  | _ => Raise AttributeError
  end.

(** Lines 183-202: the copy of the user with the details and the
    notification settings added. *)
Definition details_and_settings (user : pydict) : res pydict :=
  let processed_user := user in
  let processed_user :=
    match dict_get user "details" with
    | Some (VDict details) => flatten_into "details_" details processed_user
    | _ => processed_user
    end in
  match dict_get user "notification_settings" with
  | Some settings =>
      let decoded :=
        match settings with
        | VStr s => json_loads s
        | v => Some v
        end in
      match decoded with
      | Some (VDict notification_settings) =>
          Ret (flatten_into "notification_" notification_settings
                            processed_user)
      | Some _ => Raise AttributeError
      | None => Ret processed_user
      end
  | None => Ret processed_user
  end.

(** [k in xs] for a list [xs]: some item equals the string [k]. *)
Definition list_has (k : string) (xs : list value) : bool :=
  existsb (fun x => match x with VStr s => String.eqb s k | _ => false end)
          xs.

(** Lines 183-213 for a user that is a list.  A list has [copy] and
    answers [in], but takes no string as a subscript: [user['details']]
    (line 186) and [processed_user[date_field]] (line 206) raise
    [TypeError]; [user['notification_settings']] (line 194) raises it
    inside the [try] that catches it.  A list that holds none of these
    names goes through as it is. *)
Definition process_list_user (user : list value) : res value :=
  let processed_user := user in
  if list_has "details" user then Raise TypeError
  else if existsb (fun date_field => list_has date_field processed_user)
                  user_date_fields
  then Raise TypeError
  else Ret (VList processed_user).

(** Lines 183-213: the body of the loop, for one user.  What is neither a
    mapping nor a list has no [copy]. *)
Definition process_user (user : value) : res value :=
  match user with
  | VDict user =>
      try! processed_user <- details_and_settings user;
      try! processed_user <- add_readable user_date_fields processed_user;
      Ret (VDict processed_user)
  | VList user => process_list_user user
  | _ => Raise AttributeError
  end.

(** A [for] loop that appends one result per item and stops at the first
    exception. *)
Fixpoint for_each {A : Type} (f : value -> res A) (items : list value)
    : res (list A) :=
  match items with
  | [] => Ret []
  | x :: rest =>
      try! y <- f x;
      try! ys <- for_each f rest;
      Ret (y :: ys)
  end.

(** Lines 139-176. *)
Definition process_articles_data (articles_data : list value)
    : res (list pydict) :=
  for_each process_article articles_data.

(** Lines 178-215. *)
Definition process_users_data (users_data : list value)
    : res (list value) :=
  for_each process_user users_data.

End Normalizer.

(** ** Reading a run: pages, batches and the shape of a pagination *)

(** [ceil(a / b)] *)
Definition ceil_div (a b : Z) : Z := - ((- a) / b).

(** The [limit] field of a payload, as an integer. *)
Definition request_limit (d : pydict) : option Z :=
  match dict_get d "limit" with
  | Some v => as_int v
  | None => None
  end.

(** The [offset] field of a payload. *)
Definition request_offset (d : pydict) : option value := dict_get d "offset".

(** The batch carried by a successful result: a non-empty mapping whose
    [api_status] is 200. *)
Definition page_batch (r : value) : option value :=
  if truthy r then
    match r with
    | VDict d =>
        if eq_200 (dict_get d "api_status")
        then Some (dict_get_default d "articles" (VList []))
        else None
    | _ => None
    end
  else None.

(** The records of a page. *)
Definition page_items (r : value) : list value :=
  match page_batch r with
  | Some b => match py_iter b with Ret xs => xs | Raise _ => [] end
  | None => []
  end.

(** A page that failed: the transport gave nothing (or an empty payload),
    or the payload's status is not success. *)
Definition page_failed (r : value) : bool :=
  negb (truthy r) ||
  match r with
  | VDict d => negb (eq_200 (dict_get d "api_status"))
  | _ => false
  end.

(** A successful result with fewer records than the [lim] asked for, or
    with none. *)
Definition short_batch (lim : Z) (r : value) : bool :=
  match page_batch r with
  | Some b =>
      negb (truthy b) ||
      match py_iter b with
      | Ret xs => Z.of_nat (length xs) <? lim
      | Raise _ => false
      end
  | None => false
  end.

(** An exchange whose response decodes to such a result, measured against
    the limit its own request asked for. *)
Definition short_exchange (x : exchange) : bool :=
  match classify (snd x), req_data (fst x) with
  | Returned r, Some d =>
      match request_limit d with
      | Some lim => short_batch lim r
      | None => false
      end
  | _, _ => false
  end.

(** An exchange whose response came back with a good status and a body
    that is not JSON. *)
Definition undecodable (x : exchange) : bool :=
  match snd x with
  | Sent r =>
      match status_error r, json_body r with
      | None, NotJSON _ => true
      | _, _ => false
      end
  | SendError _ => false
  end.

(** All the records of a list of calls, in order. *)
Definition records_of (cs : list api_call) : list value :=
  concat (map (fun c => page_items (call_result c)) cs).

(** The exchanges of a list of calls, in order. *)
Definition exchanges_of (cs : list api_call) : list exchange :=
  concat (map call_exchanges cs).

(** The [offset] and the [limit] a call was made with. *)
Definition call_offset (c : api_call) : option value :=
  match call_data c with
  | Some d => request_offset d
  | None => None
  end.

Definition call_limit (c : api_call) : option Z :=
  match call_data c with
  | Some d => request_limit d
  | None => None
  end.

(** A payload that carries a [limit] of at most [n]. *)
Definition limit_at_most (n : Z) (payload : option pydict) : Prop :=
  exists d lim, payload = Some d /\ request_limit d = Some lim /\ lim <= n.

Section Shape.

Context {Server : Type}.
Variables site_url access_token server_key : string.

(** The transport calls made between two worlds. *)
Definition new_calls (w w' : @world Server) : list api_call :=
  drop (length (api_calls w)) (api_calls w').

(** The exchanges made between two worlds. *)
Definition new_exchanges (w w' : @world Server) : list exchange :=
  drop (length (http_log w)) (http_log w').

(** The request every attempt of one transport call sends. *)
Definition expected_request (endpoint : string) (payload : option pydict)
    : http_request :=
  match payload with
  | Some (kv :: d) =>
      mkRequest POST (api_url site_url access_token endpoint)
                (Some (dict_set (kv :: d) "server_key" (VStr server_key))) 30
  | _ => mkRequest GET (api_url site_url access_token endpoint) None 30
  end.

(** The exchanges [xs] of one transport call that returned [r]: the same
    request every time; every exchange but the last ended in a
    [RequestException]; the call returns what the last one decoded to,
    and [None] otherwise. *)
Definition attempts_ok (endpoint : string) (payload : option pydict)
    (xs : list exchange) (r : value) : Prop :=
  Forall (fun x => fst x = expected_request endpoint payload) xs /\
  (forall pre x post, xs = pre ++ x :: post -> post <> [] ->
     exists msg, classify (snd x) = RequestException msg) /\
  match last xs with
  | Some x =>
      match classify (snd x) with
      | Returned v => r = v
      | _ => r = VNone
      end
  | None => r = VNone
  end.

(** The call of one pass: the limit and offset computed from the loop
    state, written into a copy of the caller's payload [base]. *)
Definition page_called (base : pydict) (total_limit : Z)
    (current_offset api_limit : value) (st : loop_state)
    (current_limit offset : value) (c : api_call) : Prop :=
  total_fetched st < total_limit /\
  py_min api_limit (VInt (total_limit - total_fetched st)) = Ret current_limit /\
  py_add_int current_offset (total_fetched st) = Ret offset /\
  call_endpoint c = "get-articles" /\
  call_data c
    = Some (dict_set (dict_set base "limit" current_limit) "offset" offset) /\
  attempts_ok "get-articles" (call_data c) (call_exchanges c) (call_result c).

(** The calls a pagination makes from loop state [st] on, and its result. *)
Inductive paginate (base : pydict) (total_limit : Z)
    (current_offset api_limit : value)
    : loop_state -> list api_call -> res (list value) -> Prop :=
| pg_done st :
    total_limit <= total_fetched st ->
    paginate base total_limit current_offset api_limit st []
             (Ret (all_articles st))
| pg_limit_error st e :
    total_fetched st < total_limit ->
    py_min api_limit (VInt (total_limit - total_fetched st)) = Raise e ->
    paginate base total_limit current_offset api_limit st [] (Raise e)
| pg_offset_error st current_limit e :
    total_fetched st < total_limit ->
    py_min api_limit (VInt (total_limit - total_fetched st))
      = Ret current_limit ->
    py_add_int current_offset (total_fetched st) = Raise e ->
    paginate base total_limit current_offset api_limit st [] (Raise e)
| pg_continue st current_limit offset c (w w' : @world Server) st' cs r :
    page_called base total_limit current_offset api_limit st
                current_limit offset c ->
    handle_result st current_limit (call_result c) w = (Continue st', w') ->
    paginate base total_limit current_offset api_limit st' cs r ->
    paginate base total_limit current_offset api_limit st (c :: cs) r
| pg_break st current_limit offset c (w w' : @world Server) st' :
    page_called base total_limit current_offset api_limit st
                current_limit offset c ->
    handle_result st current_limit (call_result c) w = (Break st', w') ->
    paginate base total_limit current_offset api_limit st [c]
             (Ret (all_articles st'))
| pg_throw st current_limit offset c (w w' : @world Server) e :
    page_called base total_limit current_offset api_limit st
                current_limit offset c ->
    handle_result st current_limit (call_result c) w = (Throw e, w') ->
    paginate base total_limit current_offset api_limit st [c] (Raise e).

End Shape.

Arguments paginate : clear implicits.

(** ** Sample services, payloads and records *)

(** A service that returns exactly the records asked for, numbered from
    the offset on. *)
Definition echo_serve (s : unit) (rq : http_request) : send_outcome * unit :=
  match req_data rq with
  | Some d =>
      match dict_get d "limit", dict_get d "offset" with
      | Some (VInt l), Some (VInt o) =>
          (Sent (mkResponse None (Decoded (VDict
             [("api_status", VInt 200);
              ("articles",
               VList (map (fun i => VInt (o + Z.of_nat i))
                          (seq 0 (Z.to_nat l))))]))), tt)
      | _, _ => (Sent (mkResponse (Some "400 Client Error") (NotJSON "")), tt)
      end
  | None => (SendError "no payload", tt)
  end.

(** A service that plays a script of outcomes, one per request, and
    refuses connections when the script is over. *)
Definition scripted_serve (script : list send_outcome) (rq : http_request)
    : send_outcome * list send_outcome :=
  match script with
  | out :: rest => (out, rest)
  | [] => (SendError "Connection refused", [])
  end.

(** A successful response carrying [records]. *)
Definition ok_page (records : list value) : send_outcome :=
  Sent (mkResponse None
          (Decoded (VDict [("api_status", VInt 200); ("articles", VList records)]))).

(** A well-formed response whose status is not success. *)
Definition error_page : send_outcome :=
  Sent (mkResponse None
          (Decoded (VDict [("api_status", VInt 404);
                        ("errors", VStr "Not found")]))).

(** A response with a good status and a body that is not JSON. *)
Definition garbled_page : send_outcome :=
  Sent (mkResponse None
          (NotJSON "Expecting value: line 1 column 1 (char 0)")).

(** A world holding one payload at address 0, before anything happened. *)
Definition fresh_world {Server : Type} (s : Server) (payload : pydict)
    : @world Server :=
  mkWorld [payload] s [] [] [] [] [].

(** The payload the application builds for a bulk export from offset 0. *)
Definition bulk_payload : pydict := [("limit", VInt 1000); ("offset", VInt 0)].

(** [0, 1, ..., n-1] as records. *)
Definition numbered (n : nat) : list value :=
  map (fun i => VInt (Z.of_nat i)) (seq 0 n).

(** A decoder that rejects every string. *)
Definition no_json (s : string) : option value := None.

(** The zone of UTC, and a zone one hour ahead of it whose clocks are
    another hour ahead from 2023-03-26 01:00 UTC to 2023-10-29 01:00
    UTC. *)
Definition utc (t : Z) : Z := 0.
Definition cet_2023 (t : Z) : Z :=
  if (1679792400 <=? t) && (t <? 1698541200) then 7200 else 3600.

Definition sample_article : pydict :=
  [("id", VInt 1);
   ("author", VDict [("username", VStr "bob"); ("email", VStr "bob@example.org");
                     ("id", VInt 7)]);
   ("category", VDict [("name", VStr "news")]);
   ("time", VStr "1700000000")].

Definition sample_user : pydict :=
  [("user_id", VStr "3");
   ("details", VDict [("post_count", VStr "12")]);
   ("lastseen", VInt 1700000000)].

(** A payload that asks for two records at a time, and one that asks for
    one. *)
Definition pairs_payload : pydict := [("limit", VInt 2)].
Definition single_payload : pydict := [("limit", VInt 1)].

(** A script whose second page fails, and one whose first page is short. *)
Definition failing_script : list send_outcome :=
  [ok_page (numbered 2); error_page; ok_page (numbered 2)].
Definition short_script : list send_outcome :=
  [ok_page (numbered 2); ok_page (numbered 2)].

(** A script whose second response is garbled. *)
Definition garbled_script : list send_outcome :=
  [SendError "Read timed out"; garbled_page; ok_page (numbered 2)].

(** A bulk export of 2500 articles from the echoing service. *)
Definition bulk_2500 : option (res (list value) * @world unit) :=
  bulk_fetch_articles echo_serve "https://zzatem.com" "token"
                      "ad18880474e60cd46a62b81194a6c296" 0%nat 2500 false
                      (fresh_world tt bulk_payload).

(** An article that already has a field named as a derived one, and an
    article whose timestamp is in milliseconds. *)
Definition clashing_article : pydict := [("author_username", VStr "alice")].
Definition millis_article : pydict := [("time", VInt 1700000000000)].

(** ** Reading a normalized record *)

(** The names the normalizer writes when it flattens an article or a
    user, and the names of the readable timestamps. *)
Definition article_flatten_key (k : string) : bool :=
  String.prefix "author_" k || String.eqb k "category_name"
  || String.eqb k "category_id".

Definition user_flatten_key (k : string) : bool :=
  String.prefix "details_" k || String.prefix "notification_" k.

Definition readable_of (fields : list string) (k : string) : bool :=
  existsb (fun f => String.eqb (readable_key f) k) fields.

Definition article_derived_key (k : string) : bool :=
  article_flatten_key k || readable_of article_date_fields k.

Definition user_derived_key (k : string) : bool :=
  user_flatten_key k || readable_of user_date_fields k.

(** How many items of [d] have the key [k]. *)
Fixpoint key_count (d : pydict) (k : string) : nat :=
  match d with
  | [] => O
  | (k', _) :: d' => ((if String.eqb k' k then 1 else 0) + key_count d' k)%nat
  end.

(** [d'] has every key of [d]; outside the names [W], a key has in [d']
    the value it has in [d], and occurs as often. *)
Definition overwrites (W : string -> bool) (d d' : pydict) : Prop :=
  forall k,
    (dict_mem d k = true -> dict_mem d' k = true) /\
    (W k = false ->
     dict_get d' k = dict_get d k /\ key_count d' k = key_count d k).

(** [P a out] for every record [a] of the input and the record [out] made
    from it. *)
Definition on_each_record (process_all : list value -> res (list pydict))
    (P : pydict -> pydict -> Prop) : Prop :=
  forall records outs i a out,
    process_all records = Ret outs ->
    records !! i = Some (VDict a) -> outs !! i = Some out ->
    P a out.

(** [P a out] for every user [a] of the input that is a mapping and the
    record made from it, a mapping too. *)
Definition on_each_user (process_all : list value -> res (list value))
    (P : pydict -> pydict -> Prop) : Prop :=
  forall records outs i a o,
    process_all records = Ret outs ->
    records !! i = Some (VDict a) -> outs !! i = Some o ->
    exists out, o = VDict out /\ P a out.

(** Flatten losslessness, as the specification words it: every top-level
    key of the input is in the output with its original value. *)
Definition flatten_lossless_claim : Prop :=
  forall (json_loads : string -> option value) (utc_offset : Z -> Z),
    on_each_record (process_articles_data json_loads utc_offset)
      (fun a out => forall k v, dict_get a k = Some v -> dict_get out k = Some v)
    /\
    on_each_user (process_users_data json_loads utc_offset)
      (fun a out => forall k v, dict_get a k = Some v -> dict_get out k = Some v).

(** What the specification says of one timestamp field [f]: missing or
    not an integer, the field is left alone and no readable field is
    added; present, non-empty and an integer, a readable field is added,
    holding the calendar string of that integer. *)
Definition timestamp_rule_claimed (utc_offset : Z -> Z) (f : string)
    (a out : pydict) : Prop :=
  (dict_get a f = None \/
   (exists v e, dict_get a f = Some v /\ py_int v = Raise e) ->
   dict_get out f = dict_get a f /\
   dict_get out (readable_key f) = dict_get a (readable_key f)) /\
  (forall v ts,
     dict_get a f = Some v -> truthy v = true -> py_int v = Ret ts ->
     exists s, dict_get out (readable_key f) = Some (VStr s) /\
               forall dt, fromtimestamp utc_offset ts = Ret dt ->
                          s = strftime dt).

Definition timestamp_claim : Prop :=
  forall (json_loads : string -> option value) (utc_offset : Z -> Z),
    on_each_record (process_articles_data json_loads utc_offset)
      (fun a out => forall f, In f article_date_fields ->
                              timestamp_rule_claimed utc_offset f a out)
    /\
    on_each_user (process_users_data json_loads utc_offset)
      (fun a out => forall f, In f user_date_fields ->
                              timestamp_rule_claimed utc_offset f a out).

(** What the code does for one timestamp field [f]: the field itself is
    left alone; missing, empty or not an integer, no readable field is
    added; an integer that the conversion accepts, the readable field
    holds the calendar string of its local date; an integer that the
    conversion rejects with [ValueError], no readable field is added. *)
Definition timestamp_rule (utc_offset : Z -> Z) (f : string) (a out : pydict)
    : Prop :=
  dict_get out f = dict_get a f /\
  (dict_get a f = None \/
   (exists v, dict_get a f = Some v /\
              (truthy v = false \/ exists e, py_int v = Raise e)) ->
   dict_get out (readable_key f) = dict_get a (readable_key f)) /\
  (forall v ts dt,
     dict_get a f = Some v -> truthy v = true -> py_int v = Ret ts ->
     fromtimestamp utc_offset ts = Ret dt ->
     dict_get out (readable_key f) = Some (VStr (strftime dt))) /\
  (forall v ts,
     dict_get a f = Some v -> truthy v = true -> py_int v = Ret ts ->
     fromtimestamp utc_offset ts = Raise ValueError ->
     dict_get out (readable_key f) = dict_get a (readable_key f)).

(** The bound on the passes of the loop, as the specification words it:
    every run ends within [ceil(total_limit / 1000) + 1] passes. *)
Definition iteration_bound_claim : Prop :=
  forall (Server : Type)
         (serve : Server -> http_request -> send_outcome * Server)
         (site_url access_token server_key : string)
         (post_data : loc) (total_limit : Z) (progress_callback : bool)
         (w : @world Server),
  exists r w',
    bulk_fetch_articles serve site_url access_token server_key post_data
                        total_limit progress_callback w = Some (r, w') /\
    Z.of_nat (length (new_calls w w')) <= ceil_div total_limit 1000 + 1.

(** ** Reading more of a run *)

(** The waits between the attempts of a call that made [k] of them: 1, 2,
    4, ... seconds, none after the last. *)
Definition backoff_waits (k : nat) : list Z :=
  map (fun i => 2 ^ Z.of_nat i) (seq 0 (k - 1)).

(** The message shown when the last attempt allowed has failed. *)
Definition failure_message (retries : Z) (msg : string) : string :=
  "API request failed after " +:+ str_of_Z retries +:+ " attempts: " +:+ msg.

(** Whether a string ends with a slash. *)
Fixpoint ends_with_slash (s : string) : bool :=
  match s with
  | EmptyString => false
  | String c EmptyString => Ascii.eqb c "/"
  | String _ s' => ends_with_slash s'
  end.

(** ** Reading more of a normalized record *)

(** [d'] has the keys of [d] first, in their order, and the new ones after
    them; it has no key twice when [d] has none. *)
Definition key_order_kept (d d' : pydict) : Prop :=
  (exists extra, dict_keys d' = dict_keys d ++ extra) /\
  (NoDup (dict_keys d) -> NoDup (dict_keys d')).

(** A normalizer works on all the records or on none: a normal result has
    one record per input record, all of them mappings; an exception is
    never one of those the timestamp conversion catches; one record that
    is not a mapping is enough to lose the whole result. *)
Definition all_or_nothing (process_all : list value -> res (list pydict))
    : Prop :=
  (forall records outs,
     process_all records = Ret outs ->
     length outs = length records /\
     Forall (fun r => exists a, r = VDict a) records) /\
  (forall records e,
     process_all records = Raise e ->
     e = AttributeError \/ e = OverflowError \/ e = OSError) /\
  (forall records x,
     In x records -> (forall a, x <> VDict a) ->
     exists e, process_all records = Raise e).

(** The names that the users normalizer uses as subscripts outside its
    [try] blocks. *)
Definition subscripted_names : list string := "details" :: user_date_fields.

(** The users normalizer works on all the records or on none as well, but
    it lets lists through: a normal result has one record per input
    record, a mapping for a mapping and, for a list that holds none of
    the subscripted names, that list; an exception is never [ValueError],
    and it is [TypeError] only when a record is a list that holds a
    subscripted name; one record that is neither a mapping nor a list, or
    a list that holds a subscripted name, is enough to lose the whole
    result. *)
Definition users_all_or_nothing
    (process_all : list value -> res (list value)) : Prop :=
  (forall records outs,
     process_all records = Ret outs ->
     Forall2 (fun r o =>
                (exists a out, r = VDict a /\ o = VDict out) \/
                (exists xs, r = VList xs /\ o = VList xs /\
                            Forall (fun k => list_has k xs = false)
                                   subscripted_names))
             records outs) /\
  (forall records e,
     process_all records = Raise e ->
     e = AttributeError \/ e = OverflowError \/ e = OSError \/
     (e = TypeError /\
      exists xs k, In (VList xs) records /\ In k subscripted_names /\
                   list_has k xs = true)) /\
  (forall records x,
     In x records -> (forall a, x <> VDict a) -> (forall xs, x <> VList xs) ->
     exists e, process_all records = Raise e) /\
  (forall records xs k,
     In (VList xs) records -> In k subscripted_names ->
     list_has k xs = true ->
     exists e, process_all records = Raise e).

(** A user that came as a list of fields, and one whose list holds the
    name of a timestamp field. *)
Definition list_user : value := VList [VStr "7"; VStr "carol"].
Definition named_list_user : value :=
  VList [VStr "user_id"; VStr "lastseen"].

(** A JSON object with a [username] and an [id], as text, and a decoder
    that knows this text only. *)
Definition quoted (s : string) : string :=
  String (ascii_of_nat 34) s +:+ String (ascii_of_nat 34) EmptyString.
Definition eve_json : string :=
  "{" +:+ quoted "username" +:+ ": " +:+ quoted "eve" +:+ ", "
  +:+ quoted "id" +:+ ": 9}".
Definition author_json (s : string) : option value :=
  if String.eqb s eve_json
  then Some (VDict [("username", VStr "eve"); ("id", VInt 9)])
  else None.

(** An article whose author is JSON text, a user whose notification
    settings are missing on the server side, a user whose settings are
    text that does not decode, and an article stamped beyond the range of
    the platform's clock. *)
Definition text_author_article : pydict :=
  [("id", VInt 2); ("author", VStr eve_json);
   ("author_id", VInt 5)].
Definition null_settings_user : pydict :=
  [("user_id", VStr "4"); ("notification_settings", VNone)].
Definition garbled_settings_user : pydict :=
  [("user_id", VStr "5"); ("notification_settings", VStr "e_liked=1");
   ("notification_sound", VInt 1)].
Definition settings_user : pydict :=
  [("user_id", VStr "6"); ("details", VDict [("post_count", VStr "12")]);
   ("notification_settings", VDict [("e_liked", VInt 1)])].
Definition far_future_article : pydict :=
  [("id", VInt 3); ("time", VInt (2 ^ 63))].

(** ** Export and preview: column names and the columns shown *)

(** The characters of the class [[a-zA-Z0-9_]]. *)
Definition is_word_char (c : ascii) : bool :=
  let n := Z.of_nat (nat_of_ascii c) in
  ((97 <=? n) && (n <=? 122)) || ((65 <=? n) && (n <=? 90))
  || ((48 <=? n) && (n <=? 57)) || (n =? 95).

(** Line 227, for one column name:
    [re.sub('[^a-zA-Z0-9_]', '_', name)]. *)
Fixpoint clean_column_name (name : string) : string :=
  match name with
  | EmptyString => EmptyString
  | String c rest =>
      String (if is_word_char c then c else "_"%char) (clean_column_name rest)
  end.

(** Line 227, for the columns of the table. *)
Definition clean_columns (columns : list string) : list string :=
  map clean_column_name columns.

(** Whether every character of a name is of the class. *)
Fixpoint all_word_chars (name : string) : bool :=
  match name with
  | EmptyString => true
  | String c rest => is_word_char c && all_word_chars rest
  end.

(** [x in l] for a list of strings. *)
Definition is_in (x : string) (l : list string) : bool :=
  existsb (String.eqb x) l.

(** The position a slice bound stands for in a sequence of [len] items. *)
Definition slice_index (len i : Z) : Z :=
  if i <? 0 then Z.max 0 (len + i) else Z.min len i.

(** [l[lo:hi]] *)
Definition py_slice {A : Type} (l : list A) (lo hi : Z) : list A :=
  let n := Z.of_nat (length l) in
  let a := slice_index n lo in
  let b := slice_index n hi in
  take (Z.to_nat (b - a)) (drop (Z.to_nat a) l).

(** Line 272. *)
Definition important_columns : list string :=
  ["id"; "title"; "content"; "username"; "email"; "name"; "first_name";
   "last_name"].

(** Lines 263-275. *)
Definition priority_columns (all_columns : list string) : list string :=
  let priority_columns := [] in
  let priority_columns :=
    if is_in "author_username" all_columns
    then priority_columns ++ ["author_username"] else priority_columns in
  let priority_columns :=
    if is_in "author_email" all_columns
    then priority_columns ++ ["author_email"] else priority_columns in
  fold_left
    (fun priority_columns col =>
       if is_in col all_columns && negb (is_in col priority_columns)
       then priority_columns ++ [col] else priority_columns)
    important_columns priority_columns.

(** Lines 278-279. *)
Definition default_columns (all_columns : list string) : list string :=
  let priority_columns := priority_columns all_columns in
  let remaining_columns :=
    List.filter (fun col => negb (is_in col priority_columns)) all_columns in
  priority_columns
  ++ py_slice remaining_columns 0
              (10 - Z.of_nat (length priority_columns)).

(** Lines 260-288: the columns the preview shows as long as the user has
    not changed the selection. *)
Definition selected_columns (all_columns : list string) : list string :=
  if 10 <? Z.of_nat (length all_columns) then default_columns all_columns
  else all_columns.

(** ** The users tab: identifiers and batches *)

(** The characters [str.strip] removes: those for which [str.isspace]
    holds. *)
Definition is_py_space (c : ascii) : bool :=
  let n := Z.of_nat (nat_of_ascii c) in
  ((9 <=? n) && (n <=? 13)) || ((28 <=? n) && (n <=? 32)) || (n =? 133)
  || (n =? 160).

Fixpoint py_lstrip (s : string) : string :=
  match s with
  | EmptyString => EmptyString
  | String c s' => if is_py_space c then py_lstrip s' else s
  end.

Fixpoint py_rstrip (s : string) : string :=
  match s with
  | EmptyString => EmptyString
  | String c s' =>
      match py_rstrip s' with
      | EmptyString =>
          if is_py_space c then EmptyString else String c EmptyString
      | t => String c t
      end
  end.

(** [s.strip()] *)
Definition py_strip (s : string) : string := py_rstrip (py_lstrip s).

(** [s.split(sep)] for a one-character separator. *)
Fixpoint split_on (sep : ascii) (s : string) : list string :=
  match s with
  | EmptyString => [EmptyString]
  | String c s' =>
      if Ascii.eqb c sep then EmptyString :: split_on sep s'
      else
        match split_on sep s' with
        | piece :: rest => String c piece :: rest
        | [] => [String c EmptyString]
        end
  end.

(** [sep.join(l)] *)
Fixpoint join (sep : string) (l : list string) : string :=
  match l with
  | [] => EmptyString
  | [x] => x
  | x :: rest => x +:+ sep +:+ join sep rest
  end.

(** Line 324. *)
Definition parse_user_ids (user_ids_input : string) : list string :=
  map py_strip
      (List.filter (fun uid => negb (String.eqb (py_strip uid) ""))
                   (split_on "," user_ids_input)).

(** [range(start, stop, step)]; [None] stands for the [ValueError] of a
    zero step. *)
Definition py_range3 (start stop step : Z) : option (list Z) :=
  if step =? 0 then None
  else
    let count :=
      if 0 <? step then ceil_div (stop - start) step
      else ceil_div (start - stop) (- step) in
    Some (map (fun k => start + Z.of_nat k * step) (seq 0 (Z.to_nat count))).

(** Lines 333-334: the batches of the loop, each with its start. *)
Definition batches (user_ids : list string) (batch_size : Z)
    : option (list (Z * list string)) :=
  option_map
    (map (fun i => (i, py_slice user_ids i (i + batch_size))))
    (py_range3 0 (Z.of_nat (length user_ids)) batch_size).

(** Whether a string has a given character. *)
Fixpoint has_char (c : ascii) (s : string) : bool :=
  match s with
  | EmptyString => false
  | String c' s' => Ascii.eqb c' c || has_char c s'
  end.

(** The first and the last character of a string. *)
Definition first_char (s : string) : option ascii :=
  match s with
  | EmptyString => None
  | String c _ => Some c
  end.

Fixpoint last_char (s : string) : option ascii :=
  match s with
  | EmptyString => None
  | String c EmptyString => Some c
  | String _ s' => last_char s'
  end.

(** An identifier as the users tab sends it: not empty, without a comma,
    without white space at either end. *)
Definition clean_id (uid : string) : Prop :=
  uid <> "" /\ has_char "," uid = false /\
  (forall c, first_char uid = Some c -> is_py_space c = false) /\
  (forall c, last_char uid = Some c -> is_py_space c = false).

(** ** The users tab: the fetch (lines 323-372) *)

(** A value handed to the progress bar: an [int] is a percentage, a
    [float], here always the quotient of two integers, a fraction. *)
Inductive progress_value : Type :=
| Percent (n : Z)
| Fraction (num den : Z).

(** What the tab shows while it works: the texts of the status line, the
    values the progress bar took, and the number of half-second pauses. *)
Record tab_ui : Type := mkTabUi {
  status_texts : list string;
  progress_values : list progress_value;
  pauses : nat
}.

(** What ends the script before the tab is done: an exception of the
    program's own, or the progress bar refusing a value. *)
Inductive tab_stop : Type :=
| Raised (e : exn)
| ProgressRejected (v : progress_value).

(** How the tab ends: nothing to do; the error about the identifiers;
    the warning that no user was found; the success message, followed by
    the export of the users fetched; or an exception. *)
Inductive users_outcome : Type :=
| Idle
| InvalidIds
| NoUsers
| Fetched (users : list value)
| Stopped (s : tab_stop).

(** [status_text.text(msg)] and [time.sleep(0.5)] *)
Definition set_status (msg : string) (ui : tab_ui) : tab_ui :=
  mkTabUi (status_texts ui ++ [msg]) (progress_values ui) (pauses ui).

Definition pause (ui : tab_ui) : tab_ui :=
  mkTabUi (status_texts ui) (progress_values ui) (S (pauses ui)).

(** Lines 342-344: the users of one result; a failed batch has none. *)
Definition batch_users (result : value) : res (list value) :=
  if truthy result then
    match result with
    | VDict d =>
        if eq_200 (dict_get d "api_status")
        then py_iter (dict_get_default d "users" (VList []))
        else Ret []
    | _ => Raise AttributeError
    end
  else Ret [].

Section UsersTab.

Context {Server : Type}.
Variable serve : Server -> http_request -> send_outcome * Server.
Variables site_url access_token server_key : string.

(** The values the progress bar accepts; it raises on the others. *)
Variable progress_accepts : progress_value -> bool.

(** A dict display: a new object. *)
Definition alloc (d : pydict) (w : @world Server) : loc * @world Server :=
  (length (heap w), set_heap (heap w ++ [d]) w).

(** [st.progress(v)] and [progress_bar.progress(v)] *)
Definition set_progress (v : progress_value) (ui : tab_ui) : option tab_ui :=
  if progress_accepts v
  then Some (mkTabUi (status_texts ui) (progress_values ui ++ [v]) (pauses ui))
  else None.

(** Lines 334-347: one pass of the loop. *)
Definition users_step (user_ids : list string) (batch_size : Z)
    (all_users_data : list value) (i : Z) (w : @world Server) (ui : tab_ui)
    : (tab_stop + list value) * @world Server * tab_ui :=
  let batch_ids := py_slice user_ids i (i + batch_size) in
  let batch_ids_str := join "," batch_ids in
  let ui1 :=
    set_status
      ("Processing batch " +:+ str_of_Z (i / batch_size + 1) +:+ "/"
       +:+ str_of_Z ((Z.of_nat (length user_ids) - 1) / batch_size + 1)) ui in
  let (post_data, w1) := alloc [("user_ids", VStr batch_ids_str)] w in
  let (result, w2) :=
    make_api_request serve site_url access_token server_key
                     "get-many-users-data" (Some post_data) 3 w1 in
  match batch_users result with
  | Raise e => (inl (Raised e), w2, ui1)
  | Ret users =>
      let v := Fraction (i + batch_size) (Z.of_nat (length user_ids)) in
      match set_progress v ui1 with
      | None => (inl (ProgressRejected v), w2, ui1)
      | Some ui2 => (inr (all_users_data ++ users), w2, pause ui2)
      end
  end.

(** Lines 333-347: the loop over the starts of the batches. *)
Fixpoint users_loop (user_ids : list string) (batch_size : Z)
    (starts : list Z) (all_users_data : list value) (w : @world Server)
    (ui : tab_ui) : (tab_stop + list value) * @world Server * tab_ui :=
  match starts with
  | [] => (inr all_users_data, w, ui)
  | i :: rest =>
      match users_step user_ids batch_size all_users_data i w ui with
      | (inl s, w', ui') => (inl s, w', ui')
      | (inr all, w', ui') => users_loop user_ids batch_size rest all w' ui'
      end
  end.

(** Lines 323-372, up to the message that announces the result. *)
Definition users_tab (fetch_users_btn : bool) (user_ids_input : string)
    (batch_size : Z) (w : @world Server) (ui : tab_ui)
    : users_outcome * @world Server * tab_ui :=
  if fetch_users_btn && negb (String.eqb user_ids_input "") then
    let user_ids := parse_user_ids user_ids_input in
    match user_ids with
    | [] => (InvalidIds, st_error "Please enter valid user IDs" w, ui)
    | _ :: _ =>
        match set_progress (Percent 0) ui with
        | None => (Stopped (ProgressRejected (Percent 0)), w, ui)
        | Some ui0 =>
            match py_range3 0 (Z.of_nat (length user_ids)) batch_size with
            | None => (Stopped (Raised ValueError), w, ui0)
            | Some starts =>
                match users_loop user_ids batch_size starts [] w ui0 with
                | (inl s, w', ui') => (Stopped s, w', ui')
                | (inr [], w', ui') => (NoUsers, w', ui')
                | (inr all_users_data, w', ui') =>
                    (Fetched all_users_data, w', ui')
                end
            end
        end
    end
  else (Idle, w, ui).

End UsersTab.

(** ** Reading a run of the users tab *)

(** The users a call brought. *)
Definition users_of (c : api_call) : list value :=
  match batch_users (call_result c) with
  | Ret users => users
  | Raise _ => []
  end.

(** The call made for one batch: the identifiers joined by commas, sent
    to the users endpoint. *)
Definition batch_called (site_url access_token server_key : string)
    (batch_ids : list string) (c : api_call) : Prop :=
  call_endpoint c = "get-many-users-data" /\
  call_data c = Some [("user_ids", VStr (join "," batch_ids))] /\
  attempts_ok site_url access_token server_key "get-many-users-data"
              (call_data c) (call_exchanges c) (call_result c).

(** The status line of batch [k] of [m]. *)
Definition batch_status (k m : Z) : string :=
  "Processing batch " +:+ str_of_Z k +:+ "/" +:+ str_of_Z m.

(** A progress bar that accepts the percentages 0 to 100 and the
    fractions from 0 to 1. *)
Definition unit_interval (v : progress_value) : bool :=
  match v with
  | Percent n => (0 <=? n) && (n <=? 100)
  | Fraction num den => (0 <=? num) && (num <=? den)
  end.

(** A service that knows the users 1 to 3. *)
Definition users_serve (s : unit) (rq : http_request) : send_outcome * unit :=
  match req_data rq with
  | Some d =>
      match dict_get d "user_ids" with
      | Some (VStr ids) =>
          (Sent (mkResponse None (Decoded (VDict
             [("api_status", VInt 200);
              ("users",
               VList (map (fun uid => VDict [("user_id", VStr uid)])
                          (List.filter (fun uid => is_in uid ["1"; "2"; "3"])
                                       (split_on "," ids))))]))), tt)
      | _ => (Sent (mkResponse None (Decoded (VDict [("api_status", VInt 400)]))),
              tt)
      end
  | None => (SendError "no payload", tt)
  end.

(** A world in which nothing has happened, and a tab that shows
    nothing. *)
Definition empty_world {Server : Type} (s : Server) : @world Server :=
  mkWorld [] s [] [] [] [] [].
Definition blank_ui : tab_ui := mkTabUi [] [] O.

(** ** More samples *)

(** A payload whose [limit] is text, and the columns of a table of
    normalized articles. *)
Definition text_limit_payload : pydict := [("limit", VStr "50")].
Definition article_columns : list string :=
  ["id"; "title"; "content"; "time"; "author"; "category"; "views";
   "shares"; "author_username"; "author_email"; "author_id";
   "category_name"; "time_readable"].

(** ** The articles tab (lines 437-528) *)

(** The widgets of the tab, as one run of the script reads them. *)
Record articles_form : Type := mkForm {
  form_limit : Z;
  form_offset : Z;
  form_user_id : Z;
  form_category_id : Z;
  form_article_id : Z;
  fetch_articles_btn : bool;
  bulk_export_limit : Z;
  bulk_export_btn : bool;
  quick_100_btn : bool;
  quick_500_btn : bool
}.

(** How the tab ends: nothing to do; the success message, followed by the
    export of the articles; the warning that no article was found; the
    error about the configuration; or an exception. *)
Inductive articles_outcome : Type :=
| ArticlesIdle
| ArticlesFetched (articles_data : value)
| NoArticles
| ArticlesFailed
| ArticlesStopped (s : tab_stop).

(** Lines 437-445: the limit, the offset and the fetch button after the
    quick actions. *)
Definition quick_actions (f : articles_form) : Z * Z * bool :=
  let '(limit, offset, fetch) :=
    if quick_100_btn f then (100, 0, true)
    else (form_limit f, form_offset f, fetch_articles_btn f) in
  if quick_500_btn f then (500, 0, true) else (limit, offset, fetch).

(** Lines 453-463. *)
Definition articles_payload (f : articles_form) (target_limit offset : Z)
    : pydict :=
  let post_data :=
    [("limit", VInt (Z.min 1000 target_limit)); ("offset", VInt offset)] in
  let post_data :=
    if 0 <? form_user_id f
    then dict_set post_data "user_id" (VInt (form_user_id f))
    else post_data in
  let post_data :=
    if 0 <? form_category_id f
    then dict_set post_data "category" (VInt (form_category_id f))
    else post_data in
  if 0 <? form_article_id f
  then dict_set post_data "article_id" (VInt (form_article_id f))
  else post_data.

(** Lines 474-478, for the messages of one fetch.  While the fetch runs,
    [articles_data] is still the empty list of line 467, so the value
    handed to the bar is the integer 0 every time: the value the bar has
    accepted at line 471. *)
Definition progress_callback_effects (messages : list string) (ui : tab_ui)
    : tab_ui :=
  fold_left
    (fun ui message =>
       mkTabUi (status_texts ui ++ [message])
               (progress_values ui ++ [Percent 0]) (pauses ui))
    messages ui.

(** Line 490. *)
Definition single_articles (result : value) : res value :=
  if truthy result then
    match result with
    | VDict d =>
        Ret (if eq_200 (dict_get d "api_status")
             then dict_get_default d "articles" (VList [])
             else VList [])
    | _ => Raise AttributeError
    end
  else Ret (VList []).

(** [len(v)] *)
Definition py_len (v : value) : res Z :=
  match v with
  | VList xs => Ret (Z.of_nat (length xs))
  | VDict kvs => Ret (Z.of_nat (length kvs))
  | VStr s => Ret (Z.of_nat (String.length s))
  | VNone | VBool _ | VInt _ => Raise TypeError
  end.

(** Whether line 492 finds a successful result.  It is reached with the
    mock mapping of line 485 or with a result that line 490 has already
    read, so a result that is neither empty nor a mapping, on which
    [result.get] raises, does not get here. *)
Definition result_ok (result : value) : bool :=
  truthy result &&
  match result with
  | VDict d => eq_200 (dict_get d "api_status")
  | _ => false
  end.

Section ArticlesTab.

Context {Server : Type}.
Variable serve : Server -> http_request -> send_outcome * Server.
Variables site_url access_token server_key : string.
Variable progress_accepts : progress_value -> bool.

(** Lines 492-528, up to the message that announces the result.  The
    success message takes [len(articles_data)], which a number does not
    have. *)
Definition announce_articles (ok : bool) (articles_data : value)
    (w : @world Server) : articles_outcome * @world Server :=
  if ok then
    if truthy articles_data then
      match py_len articles_data with
      | Ret _ => (ArticlesFetched articles_data, w)
      | Raise e => (ArticlesStopped (Raised e), w)
      end
    else (NoArticles, w)
  else
    (ArticlesFailed,
     st_error
       "Failed to fetch articles data. Please check your API configuration."
       w).

(** Lines 437-528.  [None] only when the paginator is given too few
    passes, which does not happen. *)
Definition articles_tab (f : articles_form) (w : @world Server) (ui : tab_ui)
    : option (articles_outcome * @world Server * tab_ui) :=
  let '(limit, offset, fetch) := quick_actions f in
  if fetch || bulk_export_btn f then
    let is_bulk_export := bulk_export_btn f in
    let target_limit := if is_bulk_export then bulk_export_limit f else limit in
    let (post_data, w1) :=
      alloc (articles_payload f target_limit offset) w in
    if is_bulk_export && (1000 <? target_limit) then
      match set_progress progress_accepts (Percent 0) ui with
      | None => Some (ArticlesStopped (ProgressRejected (Percent 0)), w1, ui)
      | Some ui1 =>
          match bulk_fetch_articles serve site_url access_token server_key
                                    post_data target_limit true w1 with
          | None => None
          | Some (fetched, w2) =>
              let ui2 :=
                progress_callback_effects
                  (drop (length (progress_log w1)) (progress_log w2)) ui1 in
              match fetched with
              | Raise e => Some (ArticlesStopped (Raised e), w2, ui2)
              | Ret articles_data =>
                  match set_progress progress_accepts (Fraction 1 1) ui2 with
                  | None =>
                      Some (ArticlesStopped (ProgressRejected (Fraction 1 1)),
                            w2, ui2)
                  | Some ui3 =>
                      let ui4 := set_status "Bulk fetch completed!" ui3 in
                      (* the mock result of line 485 *)
                      let result :=
                        VDict [("api_status",
                                VInt (if truthy (VList articles_data)
                                      then 200 else 404))] in
                      let (out, w3) :=
                        announce_articles (result_ok result)
                                          (VList articles_data) w2 in
                      Some (out, w3, ui4)
                  end
              end
          end
      end
    else
      let (result, w2) :=
        make_api_request serve site_url access_token server_key
                         "get-articles" (Some post_data) 3 w1 in
      match single_articles result with
      | Raise e => Some (ArticlesStopped (Raised e), w2, ui)
      | Ret articles_data =>
          let (out, w3) :=
            announce_articles (result_ok result) articles_data w2 in
          Some (out, w3, ui)
      end
  else Some (ArticlesIdle, w, ui).

End ArticlesTab.

(** A form as the tab shows it at first, with the bulk export of 2500
    articles asked for. *)
Definition bulk_form : articles_form :=
  mkForm 25 0 0 0 0 false 2500 true false false.

(** The form with the fetch button pressed, and a response that carries
    a count where the articles should be. *)
Definition fetch_form : articles_form :=
  mkForm 25 0 0 0 0 true 1000 false false false.
Definition count_page : send_outcome :=
  Sent (mkResponse None
          (Decoded (VDict [("api_status", VInt 200); ("articles", VInt 7)]))).

(** * Properties *)

(** ** Dictionaries *)

Lemma dict_get_set_eq (d : pydict) k v : dict_get (dict_set d k v) k = Some v.
Proof.
  induction d as [|[k' v'] d IH]; simpl.
  - rewrite String.eqb_refl. reflexivity.
  - destruct (String.eqb k' k) eqn:E; simpl; rewrite E; auto.
Qed.

Lemma dict_get_set_ne (d : pydict) k k' v :
  k <> k' -> dict_get (dict_set d k v) k' = dict_get d k'.
Proof.
  intros Hne. induction d as [|[k0 v0] d IH]; simpl.
  - destruct (String.eqb k k') eqn:E; [|reflexivity].
    apply String.eqb_eq in E. contradiction.
  - destruct (String.eqb k0 k) eqn:E; simpl.
    + apply String.eqb_eq in E. subst k0.
      destruct (String.eqb k k') eqn:E'; [|reflexivity].
      apply String.eqb_eq in E'. contradiction.
    + rewrite IH. reflexivity.
Qed.

Lemma dict_set_idem (d : pydict) k v :
  dict_set (dict_set d k v) k v = dict_set d k v.
Proof.
  induction d as [|[k' v'] d IH]; simpl.
  - rewrite String.eqb_refl. reflexivity.
  - destruct (String.eqb k' k) eqn:E; simpl; rewrite E; [reflexivity|].
    rewrite IH. reflexivity.
Qed.

Lemma dict_set_cons (d : pydict) k v :
  exists kv d', dict_set d k v = kv :: d'.
Proof.
  destruct d as [|[k' v'] d]; simpl; [eauto|].
  destruct (String.eqb k' k); eauto.
Qed.

Lemma dict_mem_get (d : pydict) k :
  dict_mem d k = true <-> exists v, dict_get d k = Some v.
Proof.
  unfold dict_mem. destruct (dict_get d k); split; intros H; eauto.
  - discriminate.
  - destruct H as [v H]. discriminate.
Qed.

Lemma dict_get_In (d : pydict) k :
  In k (dict_keys d) <-> exists v, dict_get d k = Some v.
Proof.
  induction d as [|[k' v'] d IH]; simpl.
  - split; [tauto|]. intros [v H]. discriminate.
  - destruct (String.eqb k' k) eqn:E.
    + apply String.eqb_eq in E. split; eauto.
    + apply String.eqb_neq in E. rewrite <- IH. tauto.
Qed.

Lemma dict_keys_set (d : pydict) k v :
  dict_keys (dict_set d k v)
  = if dict_mem d k then dict_keys d else dict_keys d ++ [k].
Proof.
  unfold dict_mem. induction d as [|[k' v'] d IH]; simpl; [reflexivity|].
  destruct (String.eqb k' k) eqn:E; simpl; [reflexivity|].
  rewrite IH. destruct (dict_get d k); reflexivity.
Qed.

Lemma dict_set_NoDup (d : pydict) k v :
  NoDup (dict_keys d) -> NoDup (dict_keys (dict_set d k v)).
Proof.
  intros Hnd. rewrite dict_keys_set.
  destruct (dict_mem d k) eqn:E; [assumption|].
  apply NoDup_app; repeat split.
  - assumption.
  - intros x Hx Hin. apply list_elem_of_In in Hx, Hin.
    destruct Hin as [<-|[]].
    apply dict_get_In in Hx. apply dict_mem_get in Hx. congruence.
  - apply NoDup_singleton.
Qed.

(** ** The heap *)

Section HeapFacts.

Context {Server : Type}.
Implicit Types w : @world Server.

Lemma deref_lookup w l d : heap w !! l = Some d -> deref w l = d.
Proof. unfold deref. intros ->. reflexivity. Qed.

Lemma deref_cons_lookup w l kv d :
  deref w l = kv :: d -> heap w !! l = Some (kv :: d).
Proof.
  unfold deref. destruct (heap w !! l); simpl; intros H; [congruence|discriminate].
Qed.

Lemma deref_heap_eq w w' l : heap w' = heap w -> deref w' l = deref w l.
Proof. unfold deref. intros ->. reflexivity. Qed.

Lemma store_heap l k v w :
  heap (store l k v w) = <[l := dict_set (deref w l) k v]> (heap w).
Proof. reflexivity. Qed.

Lemma store_deref_eq l k v w d :
  heap w !! l = Some d -> deref (store l k v w) l = dict_set d k v.
Proof.
  intros H. unfold deref at 1. rewrite store_heap.
  rewrite list_lookup_insert_eq by (eapply lookup_lt_Some; eauto).
  rewrite (deref_lookup _ _ _ H). reflexivity.
Qed.

Lemma store_lookup_ne l l' k v w :
  l <> l' -> heap (store l k v w) !! l' = heap w !! l'.
Proof. intros H. rewrite store_heap. apply list_lookup_insert_ne. assumption. Qed.

Lemma store_length l k v w :
  length (heap (store l k v w)) = length (heap w).
Proof. rewrite store_heap. apply length_insert. Qed.

End HeapFacts.

(** ** Transport *)

Section TransportFacts.

Context {Server : Type}.
Variable serve : Server -> http_request -> send_outcome * Server.
Variables site_url access_token server_key : string.
Implicit Types w : @world Server.

Local Abbreviation expected := (expected_request site_url access_token server_key).

Lemma send_spec rq w out w' :
  send serve rq w = (out, w') ->
  http_log w' = http_log w ++ [(rq, out)] /\ heap w' = heap w /\
  api_calls w' = api_calls w /\ ui_errors w' = ui_errors w /\
  sleeps w' = sleeps w /\ progress_log w' = progress_log w.
Proof.
  unfold send. destruct (serve (server w) rq) as [o s'].
  intros H. inversion H; subst. simpl. auto 10.
Qed.

Lemma expected_request_injected endpoint kv d :
  expected endpoint
    (Some (dict_set (kv :: d) "server_key" (VStr server_key)))
  = expected endpoint (Some (kv :: d)).
Proof.
  unfold expected_request.
  destruct (dict_set (kv :: d) "server_key" (VStr server_key)) as [|kv' d'] eqn:E.
  - destruct (dict_set_cons (kv :: d) "server_key" (VStr server_key))
      as (? & ? & E'). congruence.
  - rewrite <- E, dict_set_idem. reflexivity.
Qed.

(** One attempt sends the expected request, once, and touches nothing but
    the payload object. *)
Lemma attempt_request_spec endpoint post_data w o w' :
  attempt_request serve site_url access_token server_key endpoint post_data w
    = (o, w') ->
  exists out,
    o = classify out /\
    http_log w'
      = http_log w ++ [(expected endpoint (option_map (deref w) post_data), out)] /\
    expected endpoint (option_map (deref w') post_data)
      = expected endpoint (option_map (deref w) post_data) /\
    length (heap w') = length (heap w) /\
    (forall l, post_data <> Some l -> heap w' !! l = heap w !! l) /\
    api_calls w' = api_calls w /\ ui_errors w' = ui_errors w /\
    sleeps w' = sleeps w /\ progress_log w' = progress_log w.
Proof.
  unfold attempt_request. intros H.
  destruct post_data as [l|]; simpl in *.
  - destruct (deref w l) as [|kv d] eqn:Hd; simpl in H.
    + destruct (send _ _ w) as [out w1] eqn:Hs. inversion H; subst.
      apply send_spec in Hs as (Hlog & Hheap & Hrest).
      exists out. rewrite (deref_heap_eq _ _ _ Hheap), Hd, Hheap. auto 10.
    + pose proof (deref_cons_lookup _ _ _ _ Hd) as Hl.
      destruct (send _ _ (store _ _ _ w)) as [out w1] eqn:Hs.
      inversion H; subst.
      apply send_spec in Hs as (Hlog & Hheap & Hc & Hu & Hsl & Hp).
      rewrite (store_deref_eq _ _ _ _ _ Hl) in Hlog.
      assert (Hd' : deref w' l = dict_set (kv :: d) "server_key" (VStr server_key)).
      { rewrite (deref_heap_eq _ _ _ Hheap).
        apply (store_deref_eq _ _ _ _ _ Hl). }
      exists out. rewrite Hd', Hheap, store_length. repeat split; auto.
      * apply expected_request_injected.
      * intros l' Hne. apply store_lookup_ne. congruence.
  - destruct (send _ _ w) as [out w1] eqn:Hs. inversion H; subst.
    apply send_spec in Hs as (Hlog & Hheap & Hrest).
    exists out. rewrite Hheap. auto 10.
Qed.

(** The attempts of one call: their exchanges have the shape [attempts_ok]
    and nothing but the payload object and the logs changes. *)
Lemma request_attempts_spec endpoint post_data retries attempts :
  forall w r w',
  request_attempts serve site_url access_token server_key endpoint post_data
                   retries attempts w = (r, w') ->
  exists xs,
    http_log w' = http_log w ++ xs /\
    attempts_ok site_url access_token server_key endpoint
                (option_map (deref w) post_data) xs r /\
    (length xs <= length attempts)%nat /\
    length (heap w') = length (heap w) /\
    (forall l, post_data <> Some l -> heap w' !! l = heap w !! l) /\
    api_calls w' = api_calls w /\ progress_log w' = progress_log w.
Proof.
  induction attempts as [|attempt rest IH]; intros w r w' H; simpl in H.
  - inversion H; subst. exists []. rewrite app_nil_r.
    repeat split; auto.
    intros pre x post E. destruct pre; discriminate.
  - destruct (attempt_request _ _ _ _ _ _ w) as [o w1] eqn:Ha.
    apply attempt_request_spec in Ha
      as (out & -> & Hlog & Hst & Hlen & Hfr & Hc & Hu & Hs & Hp).
    set (x := (expected endpoint (option_map (deref w) post_data), out)) in *.
    assert (Hone : forall v,
      match classify out with Returned v' => v = v' | _ => v = VNone end ->
      attempts_ok site_url access_token server_key endpoint
                  (option_map (deref w) post_data) [x] v).
    { intros v Hv. repeat split.
      - constructor; [reflexivity|constructor].
      - intros pre y post E Hpost.
        destruct pre as [|? [|? ?]], post; try discriminate; congruence.
      - exact Hv. }
    destruct (classify out) as [v|msg|] eqn:Hcl.
    + inversion H; subst. exists [x]. simpl.
      split; [assumption|]. split; [apply Hone; reflexivity|].
      repeat split; auto; lia.
    + destruct (attempt =? retries - 1).
      * inversion H; subst. exists [x]. simpl.
        split; [assumption|]. split; [apply Hone; reflexivity|].
        repeat split; auto; lia.
      * apply IH in H as (xs & Hlog' & (Hall & Hmid & Hlast) & Hn & Hlen'
                          & Hfr' & Hc' & Hp').
        exists (x :: xs). simpl in *.
        rewrite Hlog', Hlog, <- app_assoc. simpl.
        assert (Hd : option_map (deref (time_sleep (2 ^ attempt) w1)) post_data
                     = option_map (deref w1) post_data) by reflexivity.
        rewrite Hd, Hst in Hall. repeat split; auto; try lia; try congruence.
        -- intros pre y post E Hpost. destruct pre as [|p pre]; simpl in E.
           ++ inversion E; subst. eauto.
           ++ inversion E; subst. eapply Hmid; eauto.
        -- destruct xs as [|x' xs'].
           ++ simpl in *. rewrite Hcl. exact Hlast.
           ++ rewrite last_cons_cons. exact Hlast.
        -- intros l Hl. rewrite Hfr' by exact Hl. apply Hfr. exact Hl.
    + inversion H; subst. exists [x]. simpl.
      split; [assumption|]. split; [apply Hone; reflexivity|].
      repeat split; auto; lia.
Qed.

Lemma range_length n : length (range n) = Z.to_nat n.
Proof. unfold range. rewrite length_map, length_seq. reflexivity. Qed.

(** One transport call: one record in the history, holding exactly the
    exchanges added to the network trace. *)
Lemma make_api_request_spec endpoint post_data retries w r w' :
  make_api_request serve site_url access_token server_key endpoint post_data
                   retries w = (r, w') ->
  exists xs,
    http_log w' = http_log w ++ xs /\
    api_calls w'
      = api_calls w ++ [mkCall endpoint (option_map (deref w) post_data) xs r] /\
    attempts_ok site_url access_token server_key endpoint
                (option_map (deref w) post_data) xs r /\
    (length xs <= Z.to_nat retries)%nat /\
    length (heap w') = length (heap w) /\
    (forall l, post_data <> Some l -> heap w' !! l = heap w !! l) /\
    progress_log w' = progress_log w.
Proof.
  unfold make_api_request. intros H.
  destruct (request_attempts _ _ _ _ _ _ _ _ w) as [r0 w0] eqn:Hr.
  inversion H; subst. clear H.
  apply request_attempts_spec in Hr
    as (xs & Hlog & Hok & Hn & Hlen & Hfr & Hc & Hp).
  exists xs. simpl. rewrite Hlog, drop_app_length, Hc.
  rewrite range_length in Hn. auto 10.
Qed.

End TransportFacts.

(** ** Paginator: one pass *)

(** Iterating a truthy object yields at least one item. *)
Lemma py_iter_truthy b items :
  truthy b = true -> py_iter b = Ret items -> items <> [].
Proof.
  destruct b as [| | |s|xs|kvs]; simpl; intros Ht Hi; try discriminate;
    inversion Hi; subst; clear Hi.
  - destruct s; [discriminate|]. simpl. discriminate.
  - destruct items; discriminate.
  - destruct kvs; [discriminate|]. simpl. discriminate.
Qed.

Section PaginatorFacts.

Context {Server : Type}.
Variable serve : Server -> http_request -> send_outcome * Server.
Variables site_url access_token server_key : string.
Implicit Types w : @world Server.

Lemma handle_result_frame st current_limit result w sr w' :
  handle_result st current_limit result w = (sr, w') ->
  heap w' = heap w /\ http_log w' = http_log w /\ api_calls w' = api_calls w.
Proof.
  unfold handle_result. intros H.
  repeat match type of H with
         | context [match ?x with _ => _ end] => destruct x
         | context [if ?x then _ else _] => destruct x
         end; inversion H; subst; auto.
Qed.

(** The loop goes round again only after a successful page that brought
    at least one record and at least as many as were asked for. *)
Lemma handle_result_continue st current_limit result w st' w' :
  handle_result st current_limit result w = (Continue st', w') ->
  exists lim,
    as_int current_limit = Some lim /\
    page_failed result = false /\
    short_batch lim result = false /\
    page_items result <> [] /\
    lim <= Z.of_nat (length (page_items result)) /\
    st' = mkLoop (all_articles st ++ page_items result)
                 (total_fetched st + Z.of_nat (length (page_items result)))
                 (page st + 1).
Proof.
  unfold handle_result, page_failed, short_batch, page_items, page_batch.
  intros H.
  destruct (truthy result) eqn:Ht; [|discriminate].
  destruct result as [| | | | |d]; try discriminate.
  destruct (eq_200 (dict_get d "api_status")); [|discriminate].
  destruct (truthy (dict_get_default d "articles" (VList []))) eqn:Hb;
    [|discriminate].
  destruct (py_iter (dict_get_default d "articles" (VList []))) as [items|e]
    eqn:Hi; [|discriminate].
  destruct (as_int current_limit) as [lim|]; [|discriminate].
  destruct (Z.of_nat (length items) <? lim) eqn:Hlt; [discriminate|].
  inversion H; subst. exists lim. simpl. rewrite Hlt.
  apply Z.ltb_ge in Hlt. repeat split; auto.
  eapply py_iter_truthy; eauto.
Qed.

(** A failed page ends the loop and leaves the loop state as it was. *)
Lemma handle_result_failed st current_limit result w sr w' :
  page_failed result = true ->
  handle_result st current_limit result w = (sr, w') ->
  sr = Break st.
Proof.
  unfold handle_result, page_failed. intros Hf H.
  destruct (truthy result) eqn:Ht; simpl in Hf.
  - destruct result as [| | | | |d]; try discriminate.
    destruct (eq_200 (dict_get d "api_status")); [discriminate|].
    inversion H. reflexivity.
  - inversion H. reflexivity.
Qed.

Lemma heap_grows_by_one (h h' : list (list (string * value))) x :
  length h' = length (h ++ [x]) ->
  (forall l, l <> length h -> h' !! l = (h ++ [x]) !! l) ->
  exists y, h' = h ++ [y].
Proof.
  intros Hlen Hsame. rewrite length_app in Hlen. simpl in Hlen.
  destruct (h' !! length h) as [y|] eqn:Hy.
  - exists y. apply list_eq. intros i.
    destruct (decide (i = length h)) as [->|Hne].
    + rewrite Hy, lookup_app_r, Nat.sub_diag by lia. reflexivity.
    + rewrite Hsame by exact Hne.
      destruct (decide (i < length h)%nat).
      * rewrite !lookup_app_l by lia. reflexivity.
      * rewrite !lookup_ge_None_2; [reflexivity| |];
          rewrite length_app; simpl; lia.
  - apply lookup_ge_None in Hy. lia.
Qed.

(** One pass through the loop body: either an exception before any call,
    or exactly one call, built as [page_called] says, whose result decides
    how the pass ends.  The heap only grows. *)
Lemma bulk_step_spec post_data total_limit progress_callback current_offset
    api_limit st w sr w' base :
  heap w !! post_data = Some base ->
  total_fetched st < total_limit ->
  bulk_step serve site_url access_token server_key post_data total_limit
            progress_callback current_offset api_limit st w = (sr, w') ->
  (exists ext, heap w' = heap w ++ ext) /\
  ((exists e, sr = Throw e /\ api_calls w' = api_calls w /\
              http_log w' = http_log w /\
              paginate Server site_url access_token server_key base total_limit
                       current_offset api_limit st [] (Raise e)) \/
   (exists current_limit offset c w5,
      page_called site_url access_token server_key base total_limit
                  current_offset api_limit st current_limit offset c /\
      api_calls w' = api_calls w ++ [c] /\
      http_log w' = http_log w ++ call_exchanges c /\
      handle_result st current_limit (call_result c) w5 = (sr, w'))).
Proof.
  intros Hbase Hlt. unfold bulk_step.
  destruct (py_min api_limit (VInt (total_limit - total_fetched st)))
    as [current_limit|e] eqn:Hmin.
  2:{ intros H. inversion H; subst. split; [exists []; symmetry; apply app_nil_r|].
      left. exists e. repeat split; auto. apply pg_limit_error; assumption. }
  unfold dict_copy. rewrite (deref_lookup _ _ _ Hbase).
  set (l := length (heap w)).
  set (w1 := set_heap (heap w ++ [base]) w).
  assert (H1 : heap w1 !! l = Some base).
  { subst w1 l. simpl. rewrite lookup_app_r, Nat.sub_diag by lia. reflexivity. }
  set (w2 := store l "limit" current_limit w1).
  assert (H2 : heap w2 = heap w ++ [dict_set base "limit" current_limit]).
  { subst w2. rewrite store_heap, (deref_lookup _ _ _ H1). subst w1 l. simpl.
    rewrite insert_app_r_alt, Nat.sub_diag by lia. reflexivity. }
  destruct (py_add_int current_offset (total_fetched st)) as [offset|e] eqn:Hoff.
  2:{ intros H. inversion H; subst. split; [eauto|].
      left. exists e. repeat split; auto.
      eapply pg_offset_error; eassumption. }
  set (w3 := store l "offset" offset w2).
  set (payload := dict_set (dict_set base "limit" current_limit) "offset" offset).
  assert (H3 : heap w3 = heap w ++ [payload]).
  { subst w3. rewrite store_heap. unfold deref. rewrite H2.
    subst l. rewrite lookup_app_r, Nat.sub_diag by lia. simpl.
    rewrite insert_app_r_alt, Nat.sub_diag by lia. reflexivity. }
  match goal with
  | |- context [make_api_request _ _ _ _ _ _ _ ?x] => set (w4 := x)
  end.
  assert (H4 : heap w4 = heap w ++ [payload] /\ api_calls w4 = api_calls w
               /\ http_log w4 = http_log w).
  { subst w4. destruct progress_callback; simpl; auto. }
  destruct H4 as (H4 & H4c & H4h).
  destruct (make_api_request _ _ _ _ _ _ _ w4) as [result w5] eqn:Hcall.
  intros Hres.
  apply make_api_request_spec in Hcall
    as (xs & Hlog & Hcalls & Hok & _ & Hlen & Hfr & _).
  pose proof (handle_result_frame _ _ _ _ _ _ Hres) as (Hh & Hhl & Hhc).
  assert (Hd4 : deref w4 l = payload).
  { unfold deref. rewrite H4. subst l.
    rewrite lookup_app_r, Nat.sub_diag by lia. reflexivity. }
  simpl in Hcalls, Hok. rewrite Hd4 in Hcalls, Hok.
  split.
  - rewrite Hh. rewrite H4 in Hlen, Hfr.
    destruct (heap_grows_by_one (heap w) (heap w5) payload Hlen) as [y Hy].
    + intros l' Hne. apply Hfr. subst l. congruence.
    + exists [y]. exact Hy.
  - right. exists current_limit, offset, (mkCall "get-articles" (Some payload) xs result), w5.
    repeat split; simpl; auto; try congruence.
    + destruct Hok as (Hok & _). exact Hok.
    + destruct Hok as (_ & Hok & _). exact Hok.
    + destruct Hok as (_ & _ & Hok). exact Hok.
Qed.

(** A pass that goes round again has fetched at least one more record. *)
Lemma bulk_step_progress post_data total_limit progress_callback
    current_offset api_limit st w st' w' :
  bulk_step serve site_url access_token server_key post_data total_limit
            progress_callback current_offset api_limit st w
    = (Continue st', w') ->
  total_fetched st < total_fetched st'.
Proof.
  unfold bulk_step.
  destruct (py_min _ _) as [current_limit|]; [|discriminate].
  destruct (dict_copy _ _) as [l w1].
  destruct (py_add_int _ _) as [offset|]; [|discriminate].
  destruct (make_api_request _ _ _ _ _ _ _ _) as [result w5].
  intros H. apply handle_result_continue in H
    as (lim & _ & _ & _ & Hne & _ & ->).
  simpl. destruct (page_items result); [congruence|]. simpl. lia.
Qed.

(** ** Paginator: the whole loop *)

(** The loop ends once it is given as many passes as records are still
    missing. *)
Lemma bulk_loop_returns post_data total_limit progress_callback
    current_offset api_limit fuel :
  forall st w,
  (Z.to_nat (total_limit - total_fetched st) <= fuel)%nat ->
  exists r w',
    bulk_loop serve site_url access_token server_key fuel post_data
              total_limit progress_callback current_offset api_limit st w
    = Some (r, w').
Proof.
  induction fuel as [|fuel IH]; intros st w Hfuel; simpl.
  - destruct (total_fetched st <? total_limit) eqn:E; [|eauto].
    apply Z.ltb_lt in E. lia.
  - destruct (total_fetched st <? total_limit) eqn:E; [|eauto].
    apply Z.ltb_lt in E.
    destruct (bulk_step _ _ _ _ _ _ _ _ _ st w) as [[st'| |] w1] eqn:Hs;
      [|eauto|eauto].
    apply bulk_step_progress in Hs. apply IH. lia.
Qed.

(** Every run of the loop has the shape [paginate]; its calls and
    exchanges are what the run adds to the two logs; the heap only
    grows. *)
Lemma bulk_loop_spec post_data total_limit progress_callback current_offset
    api_limit base fuel :
  forall st w r w',
  heap w !! post_data = Some base ->
  bulk_loop serve site_url access_token server_key fuel post_data
            total_limit progress_callback current_offset api_limit st w
    = Some (r, w') ->
  exists cs ext,
    paginate Server site_url access_token server_key base total_limit
             current_offset api_limit st cs r /\
    api_calls w' = api_calls w ++ cs /\
    http_log w' = http_log w ++ exchanges_of cs /\
    heap w' = heap w ++ ext.
Proof.
  induction fuel as [|fuel IH]; intros st w r w' Hbase H; simpl in H;
    destruct (total_fetched st <? total_limit) eqn:E; try discriminate.
  - inversion H; subst. exists [], []. rewrite !app_nil_r.
    repeat split; auto. apply pg_done. apply Z.ltb_ge. exact E.
  - apply Z.ltb_lt in E.
    destruct (bulk_step _ _ _ _ _ _ _ _ _ st w) as [sr w1] eqn:Hs.
    eapply bulk_step_spec in Hs as ([ext Hext] & Hs); eauto.
    destruct Hs as [(e & -> & Hc & Hl & Hp)
                   |(current_limit & offset & c & w5 & Hpc & Hc & Hl & Hres)].
    + inversion H; subst. exists [], ext. rewrite !app_nil_r. auto.
    + destruct sr as [st'|st'|e].
      * apply IH in H as (cs & ext' & Hp & Hc' & Hl' & Hh').
        2:{ rewrite Hext. apply lookup_app_l_Some. exact Hbase. }
        exists (c :: cs), (ext ++ ext'). repeat split.
        -- eapply pg_continue; eauto.
        -- rewrite Hc', Hc, <- app_assoc. reflexivity.
        -- rewrite Hl', Hl, <- app_assoc. reflexivity.
        -- rewrite Hh', Hext, <- app_assoc. reflexivity.
      * inversion H; subst. exists [c], ext. repeat split; auto.
        -- eapply pg_break; eauto.
        -- unfold exchanges_of. simpl. rewrite app_nil_r. exact Hl.
      * inversion H; subst. exists [c], ext. repeat split; auto.
        -- eapply pg_throw; eauto.
        -- unfold exchanges_of. simpl. rewrite app_nil_r. exact Hl.
  - inversion H; subst. exists [], []. rewrite !app_nil_r.
    repeat split; auto. apply pg_done. apply Z.ltb_ge. exact E.
Qed.

(** [bulk_fetch_articles] always returns. *)
Lemma bulk_fetch_articles_returns post_data total_limit progress_callback w :
  exists r w',
    bulk_fetch_articles serve site_url access_token server_key post_data
                        total_limit progress_callback w = Some (r, w').
Proof.
  unfold bulk_fetch_articles. destruct (py_min _ _); [|eauto].
  apply bulk_loop_returns. simpl. lia.
Qed.

(** The shape of a whole run. *)
Lemma bulk_fetch_articles_spec post_data total_limit progress_callback w base
    r w' :
  heap w !! post_data = Some base ->
  bulk_fetch_articles serve site_url access_token server_key post_data
                      total_limit progress_callback w = Some (r, w') ->
  exists cs ext,
    api_calls w' = api_calls w ++ cs /\
    http_log w' = http_log w ++ exchanges_of cs /\
    heap w' = heap w ++ ext /\
    match py_min (VInt 1000) (dict_get_default base "limit" (VInt 1000)) with
    | Ret api_limit =>
        paginate Server site_url access_token server_key base total_limit
                 (dict_get_default base "offset" (VInt 0)) api_limit
                 (mkLoop [] 0 1) cs r
    | Raise e => cs = [] /\ r = Raise e
    end.
Proof.
  intros Hbase. unfold bulk_fetch_articles.
  rewrite (deref_lookup _ _ _ Hbase).
  destruct (py_min _ _) as [api_limit|e]; intros H.
  - eapply bulk_loop_spec in H as (cs & ext & Hp & Hc & Hl & Hh); eauto.
    exists cs, ext. auto.
  - inversion H; subst. exists [], []. rewrite !app_nil_r. auto.
Qed.

End PaginatorFacts.

(** ** What a pagination guarantees *)

Lemma py_min_as_int a b c x y :
  as_int a = Some x -> as_int b = Some y -> py_min a b = Ret c ->
  as_int c = Some (Z.min x y).
Proof.
  unfold py_min. intros Ha Hb. rewrite Ha, Hb. intros H. inversion H.
  destruct (y <? x) eqn:E.
  - apply Z.ltb_lt in E. rewrite Hb. f_equal. lia.
  - apply Z.ltb_ge in E. rewrite Ha. f_equal. lia.
Qed.

(** The page size the loop starts from never exceeds the ceiling. *)
Lemma api_limit_ceiling v api_limit :
  py_min (VInt 1000) v = Ret api_limit ->
  exists a, as_int api_limit = Some a /\ a <= 1000.
Proof.
  intros H. destruct (as_int v) as [y|] eqn:Hv.
  - exists (Z.min 1000 y). split; [|lia].
    apply (py_min_as_int (VInt 1000) v); auto.
  - unfold py_min in H. simpl in H. rewrite Hv in H. discriminate.
Qed.

Section PaginateFacts.

Context {Server : Type}.
Variables site_url access_token server_key : string.
Variables (base : list (string * value)) (total_limit : Z).
Variables (current_offset api_limit : value).

Local Abbreviation pages :=
  (paginate Server site_url access_token server_key base total_limit
            current_offset api_limit).
Local Abbreviation called :=
  (page_called site_url access_token server_key base total_limit
               current_offset api_limit).

(** What the payload of a page and the requests of its attempts carry. *)
Lemma page_called_payload st current_limit offset c a :
  called st current_limit offset c ->
  as_int api_limit = Some a ->
  let lim := Z.min a (total_limit - total_fetched st) in
  as_int current_limit = Some lim /\
  (exists d, call_data c = Some d /\ request_limit d = Some lim /\
             request_offset d = Some offset) /\
  Forall (fun x => exists d, req_data (fst x) = Some d /\
                             request_limit d = Some lim /\
                             request_offset d = Some offset /\
                             dict_get d "server_key" = Some (VStr server_key))
         (call_exchanges c).
Proof.
  intros (Hlt & Hmin & Hoff & Hep & Hdata & Hall & _) Ha lim.
  assert (Hcl : as_int current_limit = Some lim).
  { eapply py_min_as_int; eauto. reflexivity. }
  set (payload := dict_set (dict_set base "limit" current_limit) "offset" offset)
    in *.
  assert (Hl : request_limit payload = Some lim).
  { unfold request_limit, payload.
    rewrite dict_get_set_ne by discriminate. rewrite dict_get_set_eq.
    exact Hcl. }
  assert (Ho : request_offset payload = Some offset).
  { unfold request_offset, payload. apply dict_get_set_eq. }
  split; [exact Hcl|]. split; [eauto|].
  eapply Forall_impl; [exact Hall|]. intros x Hx. simpl in Hx.
  rewrite Hx, Hdata.
  destruct (dict_set_cons (dict_set base "limit" current_limit) "offset" offset)
    as (kv & d' & E).
  fold payload in E. unfold expected_request. rewrite E. cbn [req_data].
  rewrite <- E. eexists. split; [reflexivity|].
  unfold request_limit, request_offset.
  rewrite !dict_get_set_ne by discriminate. rewrite dict_get_set_eq.
  auto.
Qed.

(** On the shape: every page asks for at most the ceiling. *)
Lemma paginate_limits st cs r a :
  pages st cs r -> as_int api_limit = Some a -> a <= 1000 ->
  Forall (fun c => limit_at_most 1000 (call_data c)) cs /\
  Forall (fun x => limit_at_most 1000 (req_data (fst x))) (exchanges_of cs).
Proof.
  intros H Ha Hle.
  assert (Hpage : forall st current_limit offset c,
    called st current_limit offset c ->
    limit_at_most 1000 (call_data c) /\
    Forall (fun x => limit_at_most 1000 (req_data (fst x))) (call_exchanges c)).
  { intros st0 cl off c Hc.
    destruct (page_called_payload _ _ _ _ _ Hc Ha) as (_ & (d & Hd & Hl & _) & Hx).
    split.
    - exists d. eexists. repeat split; eauto. lia.
    - eapply Forall_impl; [exact Hx|]. intros x (d' & Hd' & Hl' & _).
      exists d'. eexists. repeat split; eauto. lia. }
  unfold exchanges_of.
  induction H as [ | | |st cl off c w w' st' cs r Hc Hres Hp IH
                  |st cl off c w w' st' Hc Hres|st cl off c w w' e Hc Hres];
    simpl; try (split; constructor).
  - destruct (Hpage _ _ _ _ Hc) as (H1 & H2). destruct IH as (IH1 & IH2).
    split; [constructor; assumption|]. apply Forall_app. auto.
  - destruct (Hpage _ _ _ _ Hc) as (H1 & H2).
    split; [repeat constructor; assumption|]. rewrite app_nil_r. exact H2.
  - destruct (Hpage _ _ _ _ Hc) as (H1 & H2).
    split; [repeat constructor; assumption|]. rewrite app_nil_r. exact H2.
Qed.

(** On the shape: no more passes than records asked for ... *)
Lemma paginate_length st cs r :
  pages st cs r ->
  Z.of_nat (length cs) <= Z.max 0 (total_limit - total_fetched st).
Proof.
  induction 1 as [ | | |st cl off c w w' st' cs r Hc Hres Hp IH
                  |st cl off c w w' st' Hc Hres|st cl off c w w' e Hc Hres];
    simpl length; try lia.
  - destruct Hc as (Hlt & _).
    apply handle_result_continue in Hres as (lim & _ & _ & _ & Hne & _ & ->).
    simpl in IH. destruct (page_items (call_result c)); [congruence|].
    simpl length in IH. lia.
  - destruct Hc as (Hlt & _). lia.
  - destruct Hc as (Hlt & _). lia.
Qed.

(** ... and, when the page size is the ceiling itself, no more than
    [ceil (missing / 1000)]. *)
Lemma paginate_length_ceiling st cs r :
  api_limit = VInt 1000 ->
  pages st cs r ->
  Z.of_nat (length cs)
  <= Z.max 0 (ceil_div (total_limit - total_fetched st) 1000).
Proof.
  intros Hlim.
  induction 1 as [ | | |st cl off c w w' st' cs r Hc Hres Hp IH
                  |st cl off c w w' st' Hc Hres|st cl off c w w' e Hc Hres];
    simpl length; try lia.
  - assert (Ha : as_int api_limit = Some 1000) by (rewrite Hlim; reflexivity).
    destruct (page_called_payload _ _ _ _ _ Hc Ha) as (Hcl & _).
    destruct Hc as (Hlt & _).
    apply handle_result_continue in Hres as (lim & Hcl' & _ & _ & Hne & Hge & ->).
    simpl in IH. rewrite Hcl in Hcl'. inversion Hcl'; subst lim. clear Hcl'.
    destruct (page_items (call_result c)) as [|i items]; [congruence|].
    unfold ceil_div in *. simpl length in *.
    Z.div_mod_to_equations. lia.
  - destruct Hc as (Hlt & _). unfold ceil_div.
    Z.div_mod_to_equations. lia.
  - destruct Hc as (Hlt & _). unfold ceil_div.
    Z.div_mod_to_equations. lia.
Qed.

End PaginateFacts.

(** In the exchanges of one call, a response that did not end in a
    [RequestException] is the last one, and decides what the call
    returns. *)
Lemma attempts_ok_final site_url access_token server_key endpoint payload
    xs r pre x post :
  attempts_ok site_url access_token server_key endpoint payload xs r ->
  xs = pre ++ x :: post ->
  (forall msg, classify (snd x) <> RequestException msg) ->
  post = [] /\
  match classify (snd x) with
  | Returned v => r = v
  | _ => r = VNone
  end.
Proof.
  intros (_ & Hmid & Hlast) -> Hx.
  destruct post as [|p post].
  - split; [reflexivity|]. rewrite last_snoc in Hlast. exact Hlast.
  - destruct (Hmid pre x (p :: post) eq_refl) as [msg Hm]; [discriminate|].
    destruct (Hx msg Hm).
Qed.

Lemma short_exchange_inv x :
  short_exchange x = true ->
  exists v d lim,
    classify (snd x) = Returned v /\ req_data (fst x) = Some d /\
    request_limit d = Some lim /\ short_batch lim v = true.
Proof.
  unfold short_exchange.
  destruct (classify (snd x)) as [v| |] eqn:Hc;
    destruct (req_data (fst x)) as [d|] eqn:Hd; try discriminate.
  destruct (request_limit d) as [lim|] eqn:Hl; try discriminate.
  intros Hs. exists v, d, lim. auto.
Qed.

Lemma py_add_int_inv a n v :
  py_add_int a n = Ret v -> exists b, as_int a = Some b /\ v = VInt (b + n).
Proof.
  unfold py_add_int. destruct (as_int a) as [b|]; [|discriminate].
  intros H. inversion H. eauto.
Qed.

Lemma py_min_numeric a b c :
  py_min a b = Ret c -> exists x, as_int a = Some x.
Proof.
  unfold py_min. destruct (as_int a) as [x|]; [eauto|discriminate].
Qed.

Lemma records_of_cons c cs :
  records_of (c :: cs) = page_items (call_result c) ++ records_of cs.
Proof. reflexivity. Qed.

Lemma exchanges_of_cons c cs :
  exchanges_of (c :: cs) = call_exchanges c ++ exchanges_of cs.
Proof. reflexivity. Qed.

Section PaginateOrder.

Context {Server : Type}.
Variables site_url access_token server_key : string.
Variables (base : list (string * value)) (total_limit : Z).
Variables (current_offset api_limit : value).

Local Abbreviation pages :=
  (paginate Server site_url access_token server_key base total_limit
            current_offset api_limit).
Local Abbreviation called :=
  (page_called site_url access_token server_key base total_limit
               current_offset api_limit).

(** Within one page, a short successful response is the last exchange and
    is what the transport returned. *)
Lemma page_short_exchange st current_limit offset c pre x post :
  called st current_limit offset c ->
  call_exchanges c = pre ++ x :: post ->
  short_exchange x = true ->
  post = [] /\
  exists lim, as_int current_limit = Some lim /\
              short_batch lim (call_result c) = true.
Proof.
  intros Hc Hxs Hshort.
  apply short_exchange_inv in Hshort as (v & d & lim & Hcl & Hd & Hl & Hs).
  pose proof Hc as (_ & Hmin & _ & _ & _ & Hok).
  destruct (py_min_numeric _ _ _ Hmin) as [a Ha].
  destruct (page_called_payload _ _ _ _ _ _ _ _ _ _ _ _ Hc Ha)
    as (Hlim & _ & Hall).
  destruct (attempts_ok_final _ _ _ _ _ _ _ _ _ _ Hok Hxs) as (-> & Hr).
  { intros msg. congruence. }
  split; [reflexivity|]. rewrite Hcl in Hr. subst v.
  rewrite Hxs in Hall. apply Forall_app in Hall as (_ & Hall).
  inversion Hall as [|? ? (d' & Hd' & Hl' & _) _]; subst.
  rewrite Hd in Hd'. inversion Hd'; subst d'. rewrite Hl in Hl'.
  inversion Hl'; subst lim. eauto.
Qed.

(** On the shape: nothing follows a short successful response. *)
Lemma paginate_short_last st cs r :
  pages st cs r ->
  forall pre x post,
    exchanges_of cs = pre ++ x :: post -> short_exchange x = true ->
    post = [].
Proof.
  induction 1 as [ | | |st cl off c w w' st' cs r Hc Hres Hp IH
                  |st cl off c w w' st' Hc Hres|st cl off c w w' e Hc Hres];
    intros pre x post Hxs Hshort;
    try (destruct pre; discriminate).
  - rewrite exchanges_of_cons in Hxs.
    apply app_eq_inv in Hxs as [(k & Hk1 & Hk2)|(k & Hk1 & Hk2)].
    + destruct k as [|y k]; simpl in Hk2.
      * eapply (IH []); eauto.
      * inversion Hk2; subst y.
        destruct (page_short_exchange _ _ _ _ _ _ _ Hc Hk1 Hshort)
          as (_ & lim & Hlim & Hs).
        apply handle_result_continue in Hres
          as (lim' & Hlim' & _ & Hns & _).
        congruence.
    + eapply IH; eauto.
  - rewrite exchanges_of_cons in Hxs. unfold exchanges_of in Hxs.
    simpl in Hxs. rewrite app_nil_r in Hxs.
    eapply page_short_exchange; eauto.
  - rewrite exchanges_of_cons in Hxs. unfold exchanges_of in Hxs.
    simpl in Hxs. rewrite app_nil_r in Hxs.
    eapply page_short_exchange; eauto.
Qed.

(** The same for calls: no call follows one whose result is short. *)
Lemma paginate_short_call_last st cs r :
  pages st cs r ->
  forall pre c post d lim,
    cs = pre ++ c :: post -> call_data c = Some d ->
    request_limit d = Some lim -> short_batch lim (call_result c) = true ->
    post = [].
Proof.
  induction 1 as [ | | |st cl off c0 w w' st' cs r Hc Hres Hp IH
                  |st cl off c0 w w' st' Hc Hres|st cl off c0 w w' e Hc Hres];
    intros pre c post d lim Hcs Hd Hl Hs;
    try (destruct pre; discriminate).
  - destruct pre as [|p pre]; simpl in Hcs; inversion Hcs; subst.
    + pose proof Hc as (_ & Hmin & _).
      destruct (py_min_numeric _ _ _ Hmin) as [a Ha].
      destruct (page_called_payload _ _ _ _ _ _ _ _ _ _ _ _ Hc Ha)
        as (Hlim & (d' & Hd' & Hl' & _) & _).
      apply handle_result_continue in Hres as (lim' & Hlim' & _ & Hns & _).
      congruence.
    + eapply IH; eauto.
  - destruct pre as [|p [|? ?]]; inversion Hcs; reflexivity.
  - destruct pre as [|p [|? ?]]; inversion Hcs; reflexivity.
Qed.

(** On the shape: when the last page fails, the result is everything
    fetched by the pages before it, each of which had succeeded. *)
Lemma paginate_failed_last st cs r :
  pages st cs r ->
  forall pre c,
    cs = pre ++ [c] -> page_failed (call_result c) = true ->
    r = Ret (all_articles st ++ records_of pre) /\
    Forall (fun c' => page_failed (call_result c') = false) pre.
Proof.
  induction 1 as [ | | |st cl off c0 w w' st' cs r Hc Hres Hp IH
                  |st cl off c0 w w' st' Hc Hres|st cl off c0 w w' e Hc Hres];
    intros pre c Hcs Hf;
    try (destruct pre; discriminate).
  - apply handle_result_continue in Hres as (lim & _ & Hnf & _ & _ & _ & ->).
    destruct pre as [|p pre]; simpl in Hcs; inversion Hcs; subst.
    + congruence.
    + destruct (IH pre c eq_refl Hf) as (-> & Hall). simpl.
      rewrite records_of_cons, app_assoc. split; [reflexivity|].
      constructor; assumption.
  - destruct pre as [|p [|? ?]]; inversion Hcs; subst.
    apply (handle_result_failed _ _ _ _ _ _ Hf) in Hres. inversion Hres; subst.
    unfold records_of. simpl. rewrite app_nil_r. auto.
  - destruct pre as [|p [|? ?]]; inversion Hcs; subst.
    apply (handle_result_failed _ _ _ _ _ _ Hf) in Hres. discriminate.
Qed.

(** On the shape: each page starts where the records fetched so far
    end. *)
Lemma paginate_offsets st cs r :
  pages st cs r ->
  forall i c,
    cs !! i = Some c ->
    exists b d,
      as_int current_offset = Some b /\ call_data c = Some d /\
      request_offset d
      = Some (VInt (b + (total_fetched st
                         + Z.of_nat (length (records_of (take i cs)))))) /\
      Forall (fun x => exists d', req_data (fst x) = Some d' /\
                                  request_offset d' = request_offset d)
             (call_exchanges c).
Proof.
  assert (Hpage : forall st current_limit offset c,
    called st current_limit offset c ->
    exists b d,
      as_int current_offset = Some b /\ call_data c = Some d /\
      request_offset d = Some (VInt (b + (total_fetched st + 0))) /\
      Forall (fun x => exists d', req_data (fst x) = Some d' /\
                                  request_offset d' = request_offset d)
             (call_exchanges c)).
  { intros st0 cl off c Hc. pose proof Hc as (_ & Hmin & Hoff & _).
    destruct (py_min_numeric _ _ _ Hmin) as [a Ha].
    destruct (page_called_payload _ _ _ _ _ _ _ _ _ _ _ _ Hc Ha)
      as (_ & (d & Hd & _ & Ho) & Hall).
    apply py_add_int_inv in Hoff as (b & Hb & ->).
    exists b, d. rewrite Z.add_0_r. repeat split; auto.
    eapply Forall_impl; [exact Hall|]. intros x (d' & Hd' & _ & Ho' & _).
    exists d'. split; congruence. }
  induction 1 as [ | | |st cl off c0 w w' st' cs r Hc Hres Hp IH
                  |st cl off c0 w w' st' Hc Hres|st cl off c0 w w' e Hc Hres];
    intros i c Hi; try discriminate.
  - destruct i as [|i]; simpl in Hi.
    + inversion Hi; subst. apply (Hpage _ _ _ _ Hc).
    + apply handle_result_continue in Hres as (lim & _ & _ & _ & _ & _ & ->).
      destruct (IH i c Hi) as (b & d & Hb & Hd & Ho & Hall).
      exists b, d. repeat split; auto. rewrite Ho. simpl.
      rewrite records_of_cons, length_app. do 2 f_equal. lia.
  - destruct i as [|[|i]]; simpl in Hi; try discriminate.
    inversion Hi; subst. apply (Hpage _ _ _ _ Hc).
  - destruct i as [|[|i]]; simpl in Hi; try discriminate.
    inversion Hi; subst. apply (Hpage _ _ _ _ Hc).
Qed.

End PaginateOrder.

(** A property of every page is a property of every call of a run. *)
Lemma paginate_Forall {Server : Type} site_url access_token server_key base
    total_limit current_offset api_limit (P : api_call -> Prop) :
  (forall st current_limit offset c,
     page_called site_url access_token server_key base total_limit
                 current_offset api_limit st current_limit offset c -> P c) ->
  forall st cs r,
    paginate Server site_url access_token server_key base total_limit
             current_offset api_limit st cs r ->
    Forall P cs.
Proof.
  intros HP st cs r H.
  induction H; repeat constructor; eauto.
Qed.

Lemma Forall_exchanges_of (Q : exchange -> Prop) cs :
  Forall (fun c => Forall Q (call_exchanges c)) cs ->
  Forall Q (exchanges_of cs).
Proof.
  induction 1; [constructor|].
  rewrite exchanges_of_cons. apply Forall_app. auto.
Qed.

(** ** The transport and the paginator: theorems *)

Section Claims.

Context {Server : Type}.
Variable serve : Server -> http_request -> send_outcome * Server.
Variables site_url access_token server_key : string.
Implicit Types w : @world Server.

Lemma new_calls_app w w' cs :
  api_calls w' = api_calls w ++ cs -> new_calls w w' = cs.
Proof. unfold new_calls. intros ->. apply drop_app_length. Qed.

Lemma new_exchanges_app w w' xs :
  http_log w' = http_log w ++ xs -> new_exchanges w w' = xs.
Proof. unfold new_exchanges. intros ->. apply drop_app_length. Qed.

(** Every run on an allocated payload returns, and has the shape
    [paginate]. *)
Lemma bulk_fetch_articles_run post_data total_limit progress_callback w base :
  heap w !! post_data = Some base ->
  exists r w' cs ext,
    bulk_fetch_articles serve site_url access_token server_key post_data
                        total_limit progress_callback w = Some (r, w') /\
    new_calls w w' = cs /\
    new_exchanges w w' = exchanges_of cs /\
    heap w' = heap w ++ ext /\
    match py_min (VInt 1000) (dict_get_default base "limit" (VInt 1000)) with
    | Ret api_limit =>
        paginate Server site_url access_token server_key base total_limit
                 (dict_get_default base "offset" (VInt 0)) api_limit
                 (mkLoop [] 0 1) cs r
    | Raise e => cs = [] /\ r = Raise e
    end.
Proof.
  intros Hbase.
  destruct (bulk_fetch_articles_returns serve site_url access_token server_key
              post_data total_limit progress_callback w) as (r & w' & H).
  pose proof H as H'.
  eapply bulk_fetch_articles_spec in H' as (cs & ext & Hc & Hl & Hh & Hp);
    eauto.
  exists r, w', cs, ext.
  rewrite (new_calls_app _ _ _ Hc), (new_exchanges_app _ _ _ Hl). auto.
Qed.

(** C1 (ceiling invariant).  Whatever the target total and the caller's
    payload, the run returns, and every payload the paginator hands to the
    transport, and every request the transport sends for it, carries a
    [limit] of at most 1000. *)
Theorem bulk_fetch_articles_limit_ceiling post_data total_limit
    progress_callback w base :
  heap w !! post_data = Some base ->
  exists r w',
    bulk_fetch_articles serve site_url access_token server_key post_data
                        total_limit progress_callback w = Some (r, w') /\
    Forall (fun c => limit_at_most 1000 (call_data c)) (new_calls w w') /\
    Forall (fun x => limit_at_most 1000 (req_data (fst x)))
           (new_exchanges w w').
Proof.
  intros Hbase.
  destruct (bulk_fetch_articles_run post_data total_limit progress_callback
              w base Hbase) as (r & w' & cs & ext & Hrun & Hc & Hl & _ & Hp).
  exists r, w'. split; [exact Hrun|]. rewrite Hc, Hl.
  destruct (py_min _ _) as [api_limit|e] eqn:Hmin.
  - apply api_limit_ceiling in Hmin as (a & Ha & Hle).
    eapply paginate_limits; eauto.
  - destruct Hp as (-> & _). split; constructor.
Qed.

(** C2 (termination), as the code has it.  Every run returns; it makes at
    most [max 0 total_limit] passes; when the caller's payload has no
    [limit] or an integer [limit] of at least 1000, it makes at most
    [ceil (total_limit / 1000)] passes, which for a non-negative target is
    within the bound [ceil (total_limit / 1000) + 1]. *)
Theorem bulk_fetch_articles_iterations post_data total_limit
    progress_callback w base :
  heap w !! post_data = Some base ->
  exists r w',
    bulk_fetch_articles serve site_url access_token server_key post_data
                        total_limit progress_callback w = Some (r, w') /\
    Z.of_nat (length (new_calls w w')) <= Z.max 0 total_limit /\
    ((forall v, dict_get base "limit" = Some v ->
                exists n, v = VInt n /\ 1000 <= n) ->
     Z.of_nat (length (new_calls w w'))
       <= Z.max 0 (ceil_div total_limit 1000) /\
     (0 <= total_limit ->
      Z.of_nat (length (new_calls w w')) <= ceil_div total_limit 1000 + 1)).
Proof.
  intros Hbase.
  destruct (bulk_fetch_articles_run post_data total_limit progress_callback
              w base Hbase) as (r & w' & cs & ext & Hrun & Hc & _ & _ & Hp).
  exists r, w'. split; [exact Hrun|]. rewrite Hc.
  destruct (py_min _ _) as [api_limit|e] eqn:Hmin.
  - split.
    + apply paginate_length in Hp. simpl in Hp. rewrite Z.sub_0_r in Hp.
      exact Hp.
    + intros Hbig.
      assert (Hlim : api_limit = VInt 1000).
      { unfold dict_get_default in Hmin.
        destruct (dict_get base "limit") as [v|] eqn:Hv.
        - destruct (Hbig v eq_refl) as (n & -> & Hn).
          unfold py_min in Hmin. simpl in Hmin.
          destruct (n <? 1000) eqn:E; [apply Z.ltb_lt in E; lia|].
          inversion Hmin. reflexivity.
        - inversion Hmin. reflexivity. }
      apply (paginate_length_ceiling _ _ _ _ _ _ _ _ _ _ Hlim) in Hp.
      simpl in Hp. rewrite Z.sub_0_r in Hp.
      split; [exact Hp|]. intros Hpos. unfold ceil_div in *.
      Z.div_mod_to_equations. lia.
  - destruct Hp as (-> & _). simpl. unfold ceil_div.
    split; [lia|]. intros _. split; [lia|]. intros Hpos.
    Z.div_mod_to_equations. lia.
Qed.

(** C3 (exhaustion signal).  In every run, a successful response with
    fewer records than the limit its request asked for, or with none, is
    the last exchange of the run, and the call that received it is the
    last call, whether or not the target was reached. *)
Theorem bulk_fetch_articles_stops_on_short_batch post_data total_limit
    progress_callback w base :
  heap w !! post_data = Some base ->
  exists r w',
    bulk_fetch_articles serve site_url access_token server_key post_data
                        total_limit progress_callback w = Some (r, w') /\
    (forall pre x post,
       new_exchanges w w' = pre ++ x :: post -> short_exchange x = true ->
       post = []) /\
    (forall pre c post d lim,
       new_calls w w' = pre ++ c :: post -> call_data c = Some d ->
       request_limit d = Some lim -> short_batch lim (call_result c) = true ->
       post = []).
Proof.
  intros Hbase.
  destruct (bulk_fetch_articles_run post_data total_limit progress_callback
              w base Hbase) as (r & w' & cs & ext & Hrun & Hc & Hl & _ & Hp).
  exists r, w'. split; [exact Hrun|]. rewrite Hc, Hl.
  destruct (py_min _ _) as [api_limit|e] eqn:Hmin.
  - split.
    + eapply paginate_short_last; eauto.
    + eapply paginate_short_call_last; eauto.
  - destruct Hp as (-> & _).
    split; intros; destruct pre; discriminate.
Qed.

(** C4 (partial-failure preservation).  Every run returns; when its last
    call failed (the transport returned nothing, or a payload whose status
    is not success), it returns normally, and what it returns is the
    concatenation, in order, of the records of the calls before it, each
    of which had succeeded. *)
Theorem bulk_fetch_articles_partial_failure post_data total_limit
    progress_callback w base :
  heap w !! post_data = Some base ->
  exists r w',
    bulk_fetch_articles serve site_url access_token server_key post_data
                        total_limit progress_callback w = Some (r, w') /\
    forall pre c,
      new_calls w w' = pre ++ [c] ->
      page_failed (call_result c) = true ->
      r = Ret (records_of pre) /\
      Forall (fun c' => page_failed (call_result c') = false) pre.
Proof.
  intros Hbase.
  destruct (bulk_fetch_articles_run post_data total_limit progress_callback
              w base Hbase) as (r & w' & cs & ext & Hrun & Hc & _ & _ & Hp).
  exists r, w'. split; [exact Hrun|]. rewrite Hc. intros pre c -> Hf.
  destruct (py_min _ _) as [api_limit|e] eqn:Hmin.
  - eapply paginate_failed_last in Hp; eauto. exact Hp.
  - destruct Hp as (Hp & _). destruct pre; discriminate.
Qed.

(** The general law of offsets: the call of pass [i] carries the caller's
    offset plus the number of records the earlier passes fetched, and so
    does every request sent for it. *)
Lemma bulk_fetch_articles_offsets post_data total_limit progress_callback
    w base :
  heap w !! post_data = Some base ->
  exists r w',
    bulk_fetch_articles serve site_url access_token server_key post_data
                        total_limit progress_callback w = Some (r, w') /\
    forall i c,
      new_calls w w' !! i = Some c ->
      exists b d,
        as_int (dict_get_default base "offset" (VInt 0)) = Some b /\
        call_data c = Some d /\
        request_offset d
        = Some (VInt (b + Z.of_nat
                            (length (records_of (take i (new_calls w w')))))) /\
        Forall (fun x => exists d', req_data (fst x) = Some d' /\
                                    request_offset d' = request_offset d)
               (call_exchanges c).
Proof.
  intros Hbase.
  destruct (bulk_fetch_articles_run post_data total_limit progress_callback
              w base Hbase) as (r & w' & cs & ext & Hrun & Hc & _ & _ & Hp).
  exists r, w'. split; [exact Hrun|]. rewrite Hc. intros i c Hi.
  destruct (py_min _ _) as [api_limit|e] eqn:Hmin.
  - eapply paginate_offsets in Hp as (b & d & Hb & Hd & Ho & Hall); eauto.
    exists b, d. simpl in Ho. auto.
  - destruct Hp as (-> & _). discriminate.
Qed.

(** C10 (the caller's payload is left alone).  Every run returns and
    leaves every object that existed before it, the caller's payload among
    them, as it was; the credential is written into the per-page copies
    only, and every request sent carries it. *)
Theorem bulk_fetch_articles_preserves_post_data post_data total_limit
    progress_callback w base :
  heap w !! post_data = Some base ->
  exists r w',
    bulk_fetch_articles serve site_url access_token server_key post_data
                        total_limit progress_callback w = Some (r, w') /\
    heap w' !! post_data = Some base /\
    (forall l d, heap w !! l = Some d -> heap w' !! l = Some d) /\
    Forall (fun x => exists d, req_data (fst x) = Some d /\
                               dict_get d "server_key" = Some (VStr server_key))
           (new_exchanges w w').
Proof.
  intros Hbase.
  destruct (bulk_fetch_articles_run post_data total_limit progress_callback
              w base Hbase) as (r & w' & cs & ext & Hrun & _ & Hl & Hh & Hp).
  exists r, w'. split; [exact Hrun|]. rewrite Hl, Hh.
  split; [apply lookup_app_l_Some; exact Hbase|].
  split; [intros l d Hd; apply lookup_app_l_Some; exact Hd|].
  destruct (py_min _ _) as [api_limit|e] eqn:Hmin.
  - apply Forall_exchanges_of.
    eapply paginate_Forall; [|exact Hp].
    intros st cl off c Hc. pose proof Hc as (_ & Hm & _).
    destruct (py_min_numeric _ _ _ Hm) as [a Ha].
    destruct (page_called_payload _ _ _ _ _ _ _ _ _ _ _ _ Hc Ha) as (_ & _ & Hall).
    eapply Forall_impl; [exact Hall|].
    intros x (d & Hd & _ & _ & Hk). eauto.
  - destruct Hp as (-> & _). constructor.
Qed.

End Claims.

(** ** Sample runs *)

(** A page of two, then a failed page: the two records come back, from two
    calls, and the failure is reported. *)
Example failing_script_run :
  match bulk_fetch_articles scripted_serve "https://zzatem.com" "token" "key"
                            0%nat 10 false
                            (fresh_world failing_script pairs_payload) with
  | Some (Ret records, w') =>
      records = numbered 2 /\
      map (fun c => page_failed (call_result c)) (api_calls w')
        = [false; true] /\
      map call_limit (api_calls w') = [Some 2; Some 2] /\
      ui_errors w' = ["Failed to fetch page 2. Stopping bulk fetch."] /\
      server w' = [ok_page (numbered 2)]
  | _ => False
  end.
Proof. vm_compute. repeat split; reflexivity. Qed.

(** A first page shorter than asked for: one call, one exchange, and the
    second page of the script is never asked for. *)
Example short_script_run :
  match bulk_fetch_articles scripted_serve "https://zzatem.com" "token" "key"
                            0%nat 2500 false
                            (fresh_world short_script bulk_payload) with
  | Some (Ret records, w') =>
      records = numbered 2 /\
      map short_exchange (http_log w') = [true] /\
      map call_limit (api_calls w') = [Some 1000] /\
      server w' = [ok_page (numbered 2)]
  | _ => False
  end.
Proof. vm_compute. repeat split; reflexivity. Qed.

(** A timeout, then a garbled body, then a page: the garbled body is
    retried as the timeout is, after a second backoff, and the call
    returns the page of the third response; nothing is shown. *)
Example garbled_script_run :
  let (r, w') :=
    make_api_request scripted_serve "https://zzatem.com" "token" "key"
                     "get-articles" (Some 0%nat) 3
                     (fresh_world garbled_script bulk_payload) in
  r = VDict [("api_status", VInt 200); ("articles", VList (numbered 2))] /\
  map undecodable (http_log w') = [false; true; false] /\
  sleeps w' = [1; 2] /\
  ui_errors w' = [] /\
  server w' = [].
Proof. vm_compute. repeat split; reflexivity. Qed.

(** The same script with two attempts allowed: the garbled body answers
    the last attempt, and the call shows the message of a failed request
    with the text of the decode error. *)
Example garbled_last_run :
  let (r, w') :=
    make_api_request scripted_serve "https://zzatem.com" "token" "key"
                     "get-articles" (Some 0%nat) 2
                     (fresh_world garbled_script bulk_payload) in
  r = VNone /\
  map undecodable (http_log w') = [false; true] /\
  sleeps w' = [1] /\
  ui_errors w'
  = ["API request failed after 2 attempts: Expecting value: line 1 column 1 (char 0)"] /\
  server w' = [ok_page (numbered 2)].
Proof. vm_compute. repeat split; reflexivity. Qed.

(** Three timeouts: two backoffs of 1 and 2, three exchanges, [None]. *)
Example timeouts_run :
  let (r, w') :=
    make_api_request scripted_serve "https://zzatem.com" "token" "key"
                     "get-articles" (Some 0%nat) 3
                     (fresh_world [SendError "t1"; SendError "t2";
                                   SendError "t3"; ok_page []]
                                  bulk_payload) in
  r = VNone /\ length (http_log w') = 3%nat /\ sleeps w' = [1; 2] /\
  ui_errors w' = ["API request failed after 3 attempts: t3"].
Proof. vm_compute. repeat split; reflexivity. Qed.

(** ** The theorems at work on sample runs *)

Lemma bulk_fetch_articles_limit_ceiling_witness :
  exists r w',
    bulk_fetch_articles echo_serve "https://zzatem.com" "token" "key" 0%nat 3
                        false (fresh_world tt pairs_payload) = Some (r, w') /\
    Forall (fun c => limit_at_most 1000 (call_data c))
           (new_calls (fresh_world tt pairs_payload) w') /\
    Forall (fun x => limit_at_most 1000 (req_data (fst x)))
           (new_exchanges (fresh_world tt pairs_payload) w').
Proof.
  apply (bulk_fetch_articles_limit_ceiling echo_serve "https://zzatem.com"
           "token" "key" 0%nat 3 false (fresh_world tt pairs_payload)
           pairs_payload).
  reflexivity.
Defined.

Lemma bulk_fetch_articles_iterations_witness :
  exists r w',
    bulk_fetch_articles echo_serve "https://zzatem.com" "token" "key" 0%nat 3
                        false (fresh_world tt pairs_payload) = Some (r, w') /\
    Z.of_nat (length (new_calls (fresh_world tt pairs_payload) w'))
      <= Z.max 0 3 /\
    ((forall v, dict_get pairs_payload "limit" = Some v ->
                exists n, v = VInt n /\ 1000 <= n) ->
     Z.of_nat (length (new_calls (fresh_world tt pairs_payload) w'))
       <= Z.max 0 (ceil_div 3 1000) /\
     (0 <= 3 ->
      Z.of_nat (length (new_calls (fresh_world tt pairs_payload) w'))
        <= ceil_div 3 1000 + 1)).
Proof.
  apply (bulk_fetch_articles_iterations echo_serve "https://zzatem.com"
           "token" "key" 0%nat 3 false (fresh_world tt pairs_payload)
           pairs_payload).
  reflexivity.
Defined.

(** The bound of the specification fails: with a caller's payload that
    asks for one record at a time ([single_payload]), a target of 3 and a
    service that returns what it is asked for, the loop makes 3 passes,
    and [ceil (3 / 1000) + 1] is 2. *)
Lemma iteration_bound_counterexample : ~ iteration_bound_claim.
Proof.
  intros H.
  destruct (H unit echo_serve "https://zzatem.com" "token" "key" 0%nat 3 false
              (fresh_world tt single_payload)) as (r & w' & Hrun & Hbound).
  vm_compute in Hrun. injection Hrun as <- <-.
  vm_compute in Hbound. apply Hbound. reflexivity.
Qed.

Lemma bulk_fetch_articles_stops_on_short_batch_witness :
  exists r w',
    bulk_fetch_articles scripted_serve "https://zzatem.com" "token" "key"
                        0%nat 2500 false (fresh_world short_script bulk_payload)
    = Some (r, w') /\
    (forall pre x post,
       new_exchanges (fresh_world short_script bulk_payload) w'
         = pre ++ x :: post ->
       short_exchange x = true -> post = []) /\
    (forall pre c post d lim,
       new_calls (fresh_world short_script bulk_payload) w'
         = pre ++ c :: post ->
       call_data c = Some d -> request_limit d = Some lim ->
       short_batch lim (call_result c) = true -> post = []).
Proof.
  apply (bulk_fetch_articles_stops_on_short_batch scripted_serve
           "https://zzatem.com" "token" "key" 0%nat 2500 false
           (fresh_world short_script bulk_payload) bulk_payload).
  reflexivity.
Defined.

Lemma bulk_fetch_articles_partial_failure_witness :
  exists r w',
    bulk_fetch_articles scripted_serve "https://zzatem.com" "token" "key"
                        0%nat 10 false (fresh_world failing_script pairs_payload)
    = Some (r, w') /\
    forall pre c,
      new_calls (fresh_world failing_script pairs_payload) w' = pre ++ [c] ->
      page_failed (call_result c) = true ->
      r = Ret (records_of pre) /\
      Forall (fun c' => page_failed (call_result c') = false) pre.
Proof.
  apply (bulk_fetch_articles_partial_failure scripted_serve
           "https://zzatem.com" "token" "key" 0%nat 10 false
           (fresh_world failing_script pairs_payload) pairs_payload).
  reflexivity.
Defined.

Lemma bulk_fetch_articles_preserves_post_data_witness :
  exists r w',
    bulk_fetch_articles echo_serve "https://zzatem.com" "token" "key" 0%nat 3
                        true (fresh_world tt pairs_payload) = Some (r, w') /\
    heap w' !! 0%nat = Some pairs_payload /\
    (forall l d, heap (fresh_world tt pairs_payload) !! l = Some d ->
                 heap w' !! l = Some d) /\
    Forall (fun x => exists d, req_data (fst x) = Some d /\
                               dict_get d "server_key" = Some (VStr "key"))
           (new_exchanges (fresh_world tt pairs_payload) w').
Proof.
  apply (bulk_fetch_articles_preserves_post_data echo_serve
           "https://zzatem.com" "token" "key" 0%nat 3 true
           (fresh_world tt pairs_payload) pairs_payload).
  reflexivity.
Defined.

(** The end-to-end scenario, run: 2500 records in order, from three calls
    at offsets 0, 1000 and 2000 with limits 1000, 1000 and 500, one
    exchange each. *)
Lemma bulk_2500_run :
  match bulk_2500 with
  | Some (Ret records, w') =>
      records = numbered 2500 /\
      map call_offset (api_calls w')
        = [Some (VInt 0); Some (VInt 1000); Some (VInt 2000)] /\
      map call_limit (api_calls w') = [Some 1000; Some 1000; Some 500] /\
      map (fun c => length (call_exchanges c)) (api_calls w')
        = [1%nat; 1%nat; 1%nat] /\
      length (http_log w') = 3%nat
  | _ => False
  end.
Proof. vm_compute. repeat split; reflexivity. Qed.

(** C5 (offsets).  Every run returns, and the call of pass [i] carries the
    caller's offset plus the number of records the earlier passes fetched,
    on every request sent for it; and a bulk export of 2500 records from
    offset 0, against a service that returns exactly what is asked for,
    yields the 2500 records in order from exactly three calls, at offsets
    0, 1000 and 2000. *)
Theorem bulk_fetch_articles_offsets_scenario :
  (forall (Server : Type)
          (serve : Server -> http_request -> send_outcome * Server)
          (site_url access_token server_key : string)
          (post_data : loc) (total_limit : Z) (progress_callback : bool)
          (w : @world Server) (base : list (string * value)),
     heap w !! post_data = Some base ->
     exists r w',
       bulk_fetch_articles serve site_url access_token server_key post_data
                           total_limit progress_callback w = Some (r, w') /\
       forall i c,
         new_calls w w' !! i = Some c ->
         exists b d,
           as_int (dict_get_default base "offset" (VInt 0)) = Some b /\
           call_data c = Some d /\
           request_offset d
           = Some (VInt (b + Z.of_nat
                          (length (records_of (take i (new_calls w w')))))) /\
           Forall (fun x => exists d', req_data (fst x) = Some d' /\
                                       request_offset d' = request_offset d)
                  (call_exchanges c)) /\
  match bulk_2500 with
  | Some (Ret records, w') =>
      records = numbered 2500 /\
      map call_offset (api_calls w')
        = [Some (VInt 0); Some (VInt 1000); Some (VInt 2000)] /\
      map call_limit (api_calls w') = [Some 1000; Some 1000; Some 500] /\
      map (fun c => length (call_exchanges c)) (api_calls w')
        = [1%nat; 1%nat; 1%nat] /\
      length (http_log w') = 3%nat
  | _ => False
  end.
Proof.
  split.
  - intros. eapply bulk_fetch_articles_offsets; eauto.
  - exact bulk_2500_run.
Qed.

Lemma bulk_fetch_articles_offsets_scenario_witness :
  exists r w',
    bulk_fetch_articles echo_serve "https://zzatem.com" "token" "key" 0%nat 3
                        false (fresh_world tt pairs_payload) = Some (r, w') /\
    forall i c,
      new_calls (fresh_world tt pairs_payload) w' !! i = Some c ->
      exists b d,
        as_int (dict_get_default pairs_payload "offset" (VInt 0)) = Some b /\
        call_data c = Some d /\
        request_offset d
        = Some (VInt (b + Z.of_nat
                       (length (records_of
                          (take i (new_calls (fresh_world tt pairs_payload)
                                             w')))))) /\
        Forall (fun x => exists d', req_data (fst x) = Some d' /\
                                    request_offset d' = request_offset d)
               (call_exchanges c).
Proof.
  destruct bulk_fetch_articles_offsets_scenario as [Hoffsets _].
  apply (Hoffsets unit echo_serve "https://zzatem.com" "token" "key" 0%nat 3
                  false (fresh_world tt pairs_payload) pairs_payload).
  reflexivity.
Defined.

(** ** Normalizer: what the added fields may touch *)

Lemma dict_mem_set (d : list (string * value)) k v k' :
  dict_mem d k' = true -> dict_mem (dict_set d k v) k' = true.
Proof.
  unfold dict_mem. destruct (String.eqb_spec k k') as [->|Hne].
  - rewrite dict_get_set_eq. reflexivity.
  - rewrite dict_get_set_ne by exact Hne. auto.
Qed.

Lemma overwrites_refl W (d : list (string * value)) : overwrites W d d.
Proof. intros k. auto. Qed.

Lemma overwrites_trans W (d1 d2 d3 : list (string * value)) :
  overwrites W d1 d2 -> overwrites W d2 d3 -> overwrites W d1 d3.
Proof.
  intros H12 H23 k. destruct (H12 k) as (Hm & Hg), (H23 k) as (Hm' & Hg').
  split; [auto|]. intros Hk.
  destruct (Hg Hk) as (E1 & E2), (Hg' Hk) as (E3 & E4).
  split; congruence.
Qed.

Lemma overwrites_weaken (W W' : string -> bool) (d d' : list (string * value)) :
  (forall k, W k = true -> W' k = true) ->
  overwrites W d d' -> overwrites W' d d'.
Proof.
  intros HW H k. destruct (H k) as (Hm & Hg). split; [exact Hm|].
  intros Hk. apply Hg. destruct (W k) eqn:E; [|reflexivity].
  apply HW in E. congruence.
Qed.

Lemma key_count_set_ne (d : list (string * value)) k v k' :
  k <> k' -> key_count (dict_set d k v) k' = key_count d k'.
Proof.
  intros Hne. induction d as [|[k0 v0] d IH]; simpl.
  - destruct (String.eqb_spec k k'); [contradiction|reflexivity].
  - destruct (String.eqb k0 k); simpl; [reflexivity|].
    rewrite IH. reflexivity.
Qed.

Lemma dict_set_overwrites (W : string -> bool) (d : list (string * value)) k v :
  W k = true -> overwrites W d (dict_set d k v).
Proof.
  intros HW k'. split; [apply dict_mem_set|].
  intros Hk'. assert (k <> k') by congruence.
  split; [apply dict_get_set_ne|apply key_count_set_ne]; assumption.
Qed.

Lemma prefix_append p s : String.prefix p (p +:+ s) = true.
Proof.
  induction p as [|c p IH]; simpl.
  - destruct s; reflexivity.
  - rewrite IH. destruct (ascii_dec c c); [reflexivity|congruence].
Qed.

Lemma append_inj_l p s t : p +:+ s = p +:+ t -> s = t.
Proof.
  induction p as [|c p IH]; simpl; intros H; [exact H|].
  inversion H. auto.
Qed.

Lemma flatten_into_overwrites pre (d : list (string * value)) :
  forall p, overwrites (String.prefix pre) p (flatten_into pre d p).
Proof.
  unfold flatten_into.
  induction d as [|[k v] d IH]; intros p; simpl; [apply overwrites_refl|].
  eapply overwrites_trans; [|apply IH].
  apply dict_set_overwrites. apply prefix_append.
Qed.

Lemma flatten_author_overwrites (au : list (string * value)) :
  forall p, overwrites (String.prefix "author_") p (flatten_author au p).
Proof.
  unfold flatten_author.
  induction au as [|[k v] au IH]; intros p; [apply overwrites_refl|].
  cbn [fold_left fst snd].
  eapply overwrites_trans; [|apply IH].
  destruct (String.eqb k "username" || String.eqb k "email");
    [apply overwrites_refl|].
  apply dict_set_overwrites. apply prefix_append.
Qed.

Lemma key_count_absent (d : list (string * value)) k :
  dict_mem d k = false -> key_count d k = O.
Proof.
  unfold dict_mem. induction d as [|[k0 v0] d IH]; simpl; [reflexivity|].
  destruct (String.eqb k0 k); [discriminate|]. exact IH.
Qed.

Lemma key_count_NoDup (d : list (string * value)) k :
  NoDup (dict_keys d) -> dict_mem d k = true -> key_count d k = 1%nat.
Proof.
  unfold dict_mem. induction d as [|[k0 v0] d IH]; simpl; [discriminate|].
  intros Hnd Hm. inversion Hnd as [|? ? Hnotin Hnd']; subst.
  destruct (String.eqb_spec k0 k) as [->|Hne].
  - rewrite key_count_absent; [reflexivity|].
    unfold dict_mem. destruct (dict_get d k) eqn:E; [|reflexivity].
    exfalso. apply Hnotin. apply list_elem_of_In. apply dict_get_In. eauto.
  - apply IH; assumption.
Qed.

(** The per-key loop over the author mapping leaves the two identity
    fields alone: neither their value nor their number changes. *)
Lemma flatten_author_identity (au : list (string * value)) k0 :
  k0 = "author_username" \/ k0 = "author_email" ->
  forall p,
    dict_get (flatten_author au p) k0 = dict_get p k0 /\
    key_count (flatten_author au p) k0 = key_count p k0.
Proof.
  intros Hk0. unfold flatten_author.
  induction au as [|[k v] au IH]; intros p; [auto|].
  cbn [fold_left fst snd].
  destruct (String.eqb k "username" || String.eqb k "email") eqn:E;
    [apply IH|].
  apply orb_false_elim in E as (E1 & E2).
  apply String.eqb_neq in E1, E2.
  assert (Hne : "author_" +:+ k <> k0).
  { intros Heq. destruct Hk0 as [->| ->].
    - apply (append_inj_l "author_" k "username") in Heq. contradiction.
    - apply (append_inj_l "author_" k "email") in Heq. contradiction. }
  destruct (IH (dict_set p ("author_" +:+ k) v)) as (Hg & Hc).
  rewrite Hg, Hc, dict_get_set_ne, key_count_set_ne by exact Hne. auto.
Qed.

Lemma readable_of_false fields k :
  readable_of fields k = false <-> ~ In k (map readable_key fields).
Proof.
  unfold readable_of. induction fields as [|f fields IH]; simpl.
  - tauto.
  - rewrite orb_false_iff, IH, String.eqb_neq. tauto.
Qed.

Lemma timestamp_rule_transfer utc_offset f (a a' out : list (string * value)) :
  dict_get a' f = dict_get a f ->
  dict_get a' (readable_key f) = dict_get a (readable_key f) ->
  timestamp_rule utc_offset f a' out -> timestamp_rule utc_offset f a out.
Proof.
  unfold timestamp_rule. intros -> ->. auto.
Qed.

Section NormalizerFacts.

Variable json_loads : string -> option value.
Variable utc_offset : Z -> Z.

Lemma for_each_lookup {A : Type} (f : value -> res A) :
  forall items outs i x out,
  for_each f items = Ret outs ->
  items !! i = Some x -> outs !! i = Some out ->
  f x = Ret out.
Proof.
  induction items as [|y items IH]; intros outs i x out H Hx Ho;
    [discriminate|].
  simpl in H. destruct (f y) as [o|] eqn:Hy; [|discriminate].
  simpl in H. destruct (for_each f items) as [os|] eqn:Hr; [|discriminate].
  simpl in H. inversion H; subst.
  destruct i as [|i]; simpl in Hx, Ho.
  - congruence.
  - eapply IH; eauto.
Qed.

(** Lines 144-163 write under [author_...], [category_name] and
    [category_id] only. *)
Lemma author_and_category_overwrites (a : list (string * value)) :
  overwrites article_flatten_key a (author_and_category json_loads a).
Proof.
  unfold author_and_category.
  destruct (extract_author_info json_loads _) as [u e].
  set (p2 := dict_set (dict_set a "author_username" u) "author_email" e).
  assert (H2 : overwrites article_flatten_key a p2).
  { eapply overwrites_trans; apply dict_set_overwrites; reflexivity. }
  set (p3 := match dict_get_default a "author" (VDict []) with
             | VDict au => flatten_author au p2
             | _ => p2
             end).
  assert (H3 : overwrites article_flatten_key a p3).
  { eapply overwrites_trans; [exact H2|]. subst p3.
    destruct (dict_get_default a "author" (VDict []));
      try apply overwrites_refl.
    eapply overwrites_weaken; [|apply flatten_author_overwrites].
    intros k Hk. unfold article_flatten_key. rewrite Hk. reflexivity. }
  destruct (dict_get a "category") as [[| | | | |c]|]; try exact H3.
  eapply overwrites_trans; [exact H3|].
  eapply overwrites_trans; apply dict_set_overwrites; reflexivity.
Qed.

(** Lines 185-202 write under [details_...] and [notification_...]
    only. *)
Lemma details_and_settings_overwrites (u p : list (string * value)) :
  details_and_settings json_loads u = Ret p ->
  overwrites user_flatten_key u p.
Proof.
  unfold details_and_settings.
  set (p1 := match dict_get u "details" with
             | Some (VDict details) => flatten_into "details_" details u
             | _ => u
             end).
  assert (H1 : overwrites user_flatten_key u p1).
  { subst p1. destruct (dict_get u "details") as [[| | | | |d]|];
      try apply overwrites_refl.
    eapply overwrites_weaken; [|apply flatten_into_overwrites].
    intros k Hk. unfold user_flatten_key. rewrite Hk. reflexivity. }
  intros H.
  assert (H2 : forall ns, overwrites user_flatten_key u
                            (flatten_into "notification_" ns p1)).
  { intros ns. eapply overwrites_trans; [exact H1|].
    eapply overwrites_weaken; [|apply flatten_into_overwrites].
    intros k Hk. unfold user_flatten_key. rewrite Hk. apply orb_true_r. }
  destruct (dict_get u "notification_settings") as [settings|].
  - destruct (match settings with VStr s => json_loads s | v => Some v end)
      as [[| | | | |ns]|]; inversion H; subst; auto.
  - inversion H; subst. exact H1.
Qed.

(** The loop over the timestamp fields writes under the readable names
    only. *)
Lemma add_readable_overwrites fields : forall p out,
  add_readable utc_offset fields p = Ret out ->
  overwrites (readable_of fields) p out.
Proof.
  induction fields as [|g rest IH]; intros p out H; simpl in H.
  - inversion H. apply overwrites_refl.
  - assert (Hrest : forall p', add_readable utc_offset rest p' = Ret out ->
                               overwrites (readable_of (g :: rest)) p' out).
    { intros p' Hp'. eapply overwrites_weaken; [|apply IH; exact Hp'].
      intros k Hk. unfold readable_of in *. simpl. rewrite Hk.
      apply orb_true_r. }
    destruct (dict_get p g) as [v|]; [|auto].
    destruct (truthy v); [|auto].
    destruct (try! timestamp <- py_int v; fromtimestamp utc_offset timestamp)
      as [dt|e].
    + eapply overwrites_trans; [|apply Hrest; exact H].
      apply dict_set_overwrites. unfold readable_of. simpl.
      rewrite String.eqb_refl. reflexivity.
    + destruct (caught e); [auto|discriminate].
Qed.

(** What the loop does for each of its fields, when no readable name is
    itself a field and no two fields share a readable name. *)
Lemma add_readable_rule fields : forall p out,
  add_readable utc_offset fields p = Ret out ->
  NoDup (map readable_key fields) ->
  (forall f, In f fields -> readable_of fields f = false) ->
  forall f, In f fields -> timestamp_rule utc_offset f p out.
Proof.
  induction fields as [|g rest IH]; intros p out H Hnd Hside f Hf;
    [destruct Hf|].
  simpl in Hnd. inversion Hnd as [|? ? Hg Hnd']; subst.
  rewrite list_elem_of_In in Hg. pose proof Hg as Hgin.
  apply readable_of_false in Hg.
  assert (Hside' : forall f, In f rest -> readable_of rest f = false).
  { intros f' Hf'. specialize (Hside f' (or_intror Hf')).
    unfold readable_of in *. simpl in Hside.
    apply orb_false_elim in Hside. tauto. }
  assert (Hgf : forall f', In f' (g :: rest) -> readable_key g <> f').
  { intros f' Hf'. specialize (Hside f' Hf').
    unfold readable_of in Hside. simpl in Hside.
    apply orb_false_elim in Hside as (Hne & _).
    apply String.eqb_neq. exact Hne. }
  destruct (string_dec f g) as [->|Hne].
  - (* the field handled by this pass *)
    simpl in H.
    assert (Hkeep : forall p', add_readable utc_offset rest p' = Ret out ->
              dict_get out g = dict_get p' g /\
              dict_get out (readable_key g) = dict_get p' (readable_key g)).
    { intros p' Hp'. apply add_readable_overwrites in Hp'.
      split; apply Hp'; [|exact Hg].
      specialize (Hside g (or_introl eq_refl)).
      unfold readable_of in *. simpl in Hside.
      apply orb_false_elim in Hside. tauto. }
    unfold timestamp_rule.
    destruct (dict_get p g) as [v|] eqn:Hv.
    2:{ destruct (Hkeep p H) as (H1 & H2). rewrite H1, H2, Hv.
        repeat split; auto; intros; discriminate. }
    destruct (truthy v) eqn:Ht.
    2:{ destruct (Hkeep p H) as (H1 & H2). rewrite H1, H2, Hv.
        repeat split; auto; intros v' ? ? Hv'; inversion Hv'; subst;
          congruence. }
    destruct (py_int v) as [ts|e] eqn:Hi; simpl in H.
    2:{ destruct e; simpl in H; try discriminate;
          destruct (Hkeep p H) as (H1 & H2); rewrite H1, H2, Hv;
          repeat split; auto; intros v' ? ? Hv'; inversion Hv'; subst;
          congruence. }
    destruct (fromtimestamp utc_offset ts) as [dt|e] eqn:Hft.
    + destruct (Hkeep _ H) as (H1 & H2).
      rewrite H1, H2, dict_get_set_eq, dict_get_set_ne, Hv
        by (apply Hgf; left; reflexivity).
      repeat split; auto.
      * intros [Hnone|(v' & Hv' & [Hf'|(e & He)])]; congruence.
      * intros v' ts' dt' Hv' _ Hi' Hft'. congruence.
      * intros v' ts' Hv' _ Hi' Hft'. congruence.
    + destruct e; simpl in H; try discriminate.
      * destruct (Hkeep p H) as (H1 & H2). rewrite H1, H2, Hv.
        repeat split; auto. intros v' ts' dt' Hv' _ Hi' Hft'. congruence.
      * destruct (Hkeep p H) as (H1 & H2). rewrite H1, H2, Hv.
        repeat split; auto. intros v' ts' dt' Hv' _ Hi' Hft'. congruence.
  - (* a field handled by a later pass *)
    destruct Hf as [->|Hf]; [congruence|].
    assert (Hrf : readable_key f <> readable_key g).
    { intros Heq. apply Hgin. rewrite <- Heq. apply in_map. exact Hf. }
    assert (Hlater : forall p',
              add_readable utc_offset rest p' = Ret out ->
              dict_get p' f = dict_get p f ->
              dict_get p' (readable_key f) = dict_get p (readable_key f) ->
              timestamp_rule utc_offset f p out).
    { intros p' Hp' E1 E2. eapply timestamp_rule_transfer; eauto. }
    simpl in H.
    destruct (dict_get p g) as [v|]; [|eauto].
    destruct (truthy v); [|eauto].
    destruct (try! timestamp <- py_int v; fromtimestamp utc_offset timestamp)
      as [dt|e].
    + eapply Hlater; [exact H| |].
      * apply dict_get_set_ne. apply Hgf. right. exact Hf.
      * apply dict_get_set_ne. congruence.
    + destruct (caught e); [eauto|discriminate].
Qed.

End NormalizerFacts.

(** ** The normalizer: theorems *)

Lemma article_fields_side :
  NoDup (map readable_key article_date_fields) /\
  (forall f, In f article_date_fields ->
             readable_of article_date_fields f = false) /\
  (forall f, In f article_date_fields ->
             article_flatten_key f = false /\
             article_flatten_key (readable_key f) = false).
Proof.
  split; [|split].
  - repeat constructor; rewrite list_elem_of_In; simpl;
      intros H; repeat (destruct H as [H|H]; [discriminate|]); exact H.
  - intros f [<-|[<-|[<-|[]]]]; reflexivity.
  - intros f [<-|[<-|[<-|[]]]]; split; reflexivity.
Qed.

Lemma user_fields_side :
  NoDup (map readable_key user_date_fields) /\
  (forall f, In f user_date_fields ->
             readable_of user_date_fields f = false) /\
  (forall f, In f user_date_fields ->
             user_flatten_key f = false /\
             user_flatten_key (readable_key f) = false).
Proof.
  split; [|split].
  - repeat constructor; rewrite list_elem_of_In; simpl;
      intros H; repeat (destruct H as [H|H]; [discriminate|]); exact H.
  - intros f [<-|[<-|[<-|[]]]]; reflexivity.
  - intros f [<-|[<-|[<-|[]]]]; split; reflexivity.
Qed.

Section NormalizerClaims.

Variable json_loads : string -> option value.
Variable utc_offset : Z -> Z.

Lemma process_article_inv (a out : list (string * value)) records outs i :
  process_articles_data json_loads utc_offset records = Ret outs ->
  records !! i = Some (VDict a) -> outs !! i = Some out ->
  add_readable utc_offset article_date_fields
               (author_and_category json_loads a) = Ret out.
Proof.
  intros H Hr Ho. unfold process_articles_data in H.
  apply (for_each_lookup _ _ _ _ _ _ H Hr Ho).
Qed.

Lemma process_user_inv (u : list (string * value)) o records outs i :
  process_users_data json_loads utc_offset records = Ret outs ->
  records !! i = Some (VDict u) -> outs !! i = Some o ->
  exists p out,
    o = VDict out /\
    details_and_settings json_loads u = Ret p /\
    add_readable utc_offset user_date_fields p = Ret out.
Proof.
  intros H Hr Ho. unfold process_users_data in H.
  pose proof (for_each_lookup _ _ _ _ _ _ H Hr Ho) as Hu.
  unfold process_user, res_bind in Hu.
  destruct (details_and_settings json_loads u) as [p|]; [|discriminate].
  destruct (add_readable utc_offset user_date_fields p) as [out|] eqn:Hout;
    [|discriminate].
  inversion Hu; subst. eauto 10.
Qed.

(** C7 (flatten losslessness), as the code has it.  Every top-level key
    of a raw record is a key of the normalized record; it keeps its value
    unless its name is one the normalizer writes: [author_...],
    [category_name], [category_id] and the readable timestamps for an
    article, [details_...], [notification_...] and the readable timestamps
    for a user. *)
Theorem normalizer_keeps_keys :
  on_each_record (process_articles_data json_loads utc_offset)
                 (overwrites article_derived_key) /\
  on_each_user (process_users_data json_loads utc_offset)
               (overwrites user_derived_key).
Proof.
  split; intros records outs i a out H Hr Ho.
  - apply (process_article_inv _ _ _ _ _ H Hr) in Ho.
    apply add_readable_overwrites in Ho.
    eapply overwrites_trans.
    + eapply overwrites_weaken; [|apply author_and_category_overwrites].
      intros k Hk. unfold article_derived_key. rewrite Hk. reflexivity.
    + eapply overwrites_weaken; [|exact Ho].
      intros k Hk. unfold article_derived_key. rewrite Hk. apply orb_true_r.
  - destruct (process_user_inv _ _ _ _ _ H Hr Ho)
      as (p & out' & -> & Hp & Hout).
    exists out'. split; [reflexivity|].
    apply add_readable_overwrites in Hout.
    eapply overwrites_trans.
    + eapply overwrites_weaken; [|eapply details_and_settings_overwrites; eauto].
      intros k Hk. unfold user_derived_key. rewrite Hk. reflexivity.
    + eapply overwrites_weaken; [|exact Hout].
      intros k Hk. unfold user_derived_key. rewrite Hk. apply orb_true_r.
Qed.

(** Lines 146-163 on an article whose author is a non-empty mapping: the
    two identity fields hold the mapping's [username] and [email] (or the
    empty string), once each. *)
Lemma author_and_category_identity (a au : list (string * value)) :
  NoDup (dict_keys a) ->
  dict_get a "author" = Some (VDict au) -> au <> [] ->
  let p := author_and_category json_loads a in
  (dict_get p "author_username"
     = Some (dict_get_default au "username" (VStr "")) /\
   key_count p "author_username" = 1%nat) /\
  (dict_get p "author_email" = Some (dict_get_default au "email" (VStr "")) /\
   key_count p "author_email" = 1%nat).
Proof.
  intros Hnd Hau Hne. unfold author_and_category, dict_get_default.
  rewrite Hau.
  assert (Hex : extract_author_info json_loads (VDict au)
                = (dict_get_default au "username" (VStr ""),
                   dict_get_default au "email" (VStr ""))).
  { unfold extract_author_info. destruct au; [congruence|reflexivity]. }
  rewrite Hex. fold (dict_get_default au "username" (VStr "")).
  fold (dict_get_default au "email" (VStr "")).
  set (u := dict_get_default au "username" (VStr "")).
  set (e := dict_get_default au "email" (VStr "")).
  set (p1 := dict_set a "author_username" u).
  set (p2 := dict_set p1 "author_email" e).
  assert (Hnd1 : NoDup (dict_keys p1)) by (apply dict_set_NoDup; exact Hnd).
  assert (Hnd2 : NoDup (dict_keys p2)) by (apply dict_set_NoDup; exact Hnd1).
  assert (H2 : (dict_get p2 "author_username" = Some u /\
                key_count p2 "author_username" = 1%nat) /\
               (dict_get p2 "author_email" = Some e /\
                key_count p2 "author_email" = 1%nat)).
  { assert (Gu : dict_get p2 "author_username" = Some u).
    { subst p2 p1. rewrite dict_get_set_ne by discriminate.
      apply dict_get_set_eq. }
    assert (Ge : dict_get p2 "author_email" = Some e).
    { subst p2. apply dict_get_set_eq. }
    repeat split; auto; apply key_count_NoDup; auto;
      unfold dict_mem; [rewrite Gu|rewrite Ge]; reflexivity. }
  set (p3 := flatten_author au p2).
  assert (H3 : (dict_get p3 "author_username" = Some u /\
                key_count p3 "author_username" = 1%nat) /\
               (dict_get p3 "author_email" = Some e /\
                key_count p3 "author_email" = 1%nat)).
  { destruct (flatten_author_identity au "author_username"
                (or_introl eq_refl) p2) as (G1 & C1).
    destruct (flatten_author_identity au "author_email"
                (or_intror eq_refl) p2) as (G2 & C2).
    subst p3. rewrite G1, C1, G2, C2. exact H2. }
  destruct (dict_get a "category") as [[| | | | |c]|]; try exact H3.
  rewrite !dict_get_set_ne, !key_count_set_ne by discriminate. exact H3.
Qed.

(** C8 (author-key exclusion).  For an article whose author is a mapping
    with a [username] or an [email], the normalized record has exactly one
    [author_username] and one [author_email], holding the mapping's
    [username] and [email] (the empty string for a missing one); and the
    per-key loop over the author mapping never writes either of them. *)
Theorem author_identity_fields_unique :
  on_each_record (process_articles_data json_loads utc_offset)
    (fun a out =>
       forall au,
         NoDup (dict_keys a) ->
         dict_get a "author" = Some (VDict au) ->
         dict_mem au "username" = true \/ dict_mem au "email" = true ->
         key_count out "author_username" = 1%nat /\
         key_count out "author_email" = 1%nat /\
         dict_get out "author_username"
           = Some (dict_get_default au "username" (VStr "")) /\
         dict_get out "author_email"
           = Some (dict_get_default au "email" (VStr ""))) /\
  (forall (au p : list (string * value)) k0,
     k0 = "author_username" \/ k0 = "author_email" ->
     dict_get (flatten_author au p) k0 = dict_get p k0 /\
     key_count (flatten_author au p) k0 = key_count p k0).
Proof.
  split.
  - intros records outs i a out H Hr Ho au Hnd Hau Hkeys.
    apply (process_article_inv _ _ _ _ _ H Hr) in Ho.
    apply add_readable_overwrites in Ho.
    assert (Hne : au <> []).
    { intros ->. destruct Hkeys; discriminate. }
    destruct (author_and_category_identity a au Hnd Hau Hne)
      as ((G1 & C1) & (G2 & C2)).
    destruct (Ho "author_username") as (_ & Hu).
    destruct (Ho "author_email") as (_ & He).
    destruct (Hu eq_refl) as (-> & ->). destruct (He eq_refl) as (-> & ->).
    auto.
  - intros au p k0 Hk0. apply flatten_author_identity. exact Hk0.
Qed.

(** C9 (timestamp robustness), as the code has it.  For every recognized
    timestamp field of an article or a user: the field itself is left as
    it was; when it is missing, empty or not an integer, no readable field
    is added; when it is a non-empty integer that the conversion accepts
    (the year of its local date from 1 to 9999, as is the year of the
    instants probed up to one day earlier), the readable field is added
    and holds the calendar string of its local date; when the conversion
    rejects the integer with [ValueError], no readable field is added.
    The local date follows the rules of the zone at that instant: at
    UTC, 1700000000 reads "2023-11-14 22:13:20"; in a zone one hour ahead
    of UTC, two hours with daylight saving time, it reads "2023-11-14
    23:13:20", and 1690000000, a summer instant, reads "2023-07-22
    06:26:40". *)
Theorem timestamp_fields_readable :
  on_each_record (process_articles_data json_loads utc_offset)
    (fun a out => forall f, In f article_date_fields ->
                            timestamp_rule utc_offset f a out) /\
  on_each_user (process_users_data json_loads utc_offset)
    (fun a out => forall f, In f user_date_fields ->
                            timestamp_rule utc_offset f a out) /\
  (exists dt, fromtimestamp utc 1700000000 = Ret dt /\
              strftime dt = "2023-11-14 22:13:20") /\
  (exists dt, fromtimestamp cet_2023 1700000000 = Ret dt /\
              strftime dt = "2023-11-14 23:13:20") /\
  (exists dt, fromtimestamp cet_2023 1690000000 = Ret dt /\
              strftime dt = "2023-07-22 06:26:40").
Proof.
  split; [|split; [|split; [|split]]].
  - intros records outs i a out H Hr Ho f Hf.
    apply (process_article_inv _ _ _ _ _ H Hr) in Ho.
    destruct article_fields_side as (Hnd & Hside & Hflat).
    destruct (Hflat f Hf) as (F1 & F2).
    destruct (author_and_category_overwrites json_loads a f) as (_ & E1).
    destruct (author_and_category_overwrites json_loads a (readable_key f))
      as (_ & E2).
    eapply timestamp_rule_transfer;
      [apply E1; exact F1|apply E2; exact F2|].
    eapply add_readable_rule; eauto.
  - intros records outs i u o H Hr Ho.
    destruct (process_user_inv _ _ _ _ _ H Hr Ho)
      as (p & out & -> & Hp & Hout).
    exists out. split; [reflexivity|]. intros f Hf.
    destruct user_fields_side as (Hnd & Hside & Hflat).
    destruct (Hflat f Hf) as (F1 & F2).
    apply details_and_settings_overwrites in Hp.
    destruct (Hp f) as (_ & E1). destruct (Hp (readable_key f)) as (_ & E2).
    eapply timestamp_rule_transfer;
      [apply E1; exact F1|apply E2; exact F2|].
    eapply add_readable_rule; eauto.
  - eexists. split; vm_compute; reflexivity.
  - eexists. split; vm_compute; reflexivity.
  - eexists. split; vm_compute; reflexivity.
Qed.

End NormalizerClaims.

(** ** Sample records *)

Example sample_article_normalized :
  process_articles_data no_json utc [VDict sample_article]
  = Ret [[("id", VInt 1);
          ("author", VDict [("username", VStr "bob");
                            ("email", VStr "bob@example.org"); ("id", VInt 7)]);
          ("category", VDict [("name", VStr "news")]);
          ("time", VStr "1700000000");
          ("author_username", VStr "bob");
          ("author_email", VStr "bob@example.org");
          ("author_id", VInt 7);
          ("category_name", VStr "news"); ("category_id", VStr "");
          ("time_readable", VStr "2023-11-14 22:13:20")]].
Proof. vm_compute. reflexivity. Qed.

Example sample_user_normalized :
  process_users_data no_json utc [VDict sample_user]
  = Ret [VDict [("user_id", VStr "3");
                ("details", VDict [("post_count", VStr "12")]);
                ("lastseen", VInt 1700000000);
                ("details_post_count", VStr "12");
                ("lastseen_readable", VStr "2023-11-14 22:13:20")]].
Proof. vm_compute. reflexivity. Qed.

(** A user that is a list goes through as it is, unless it holds a name
    that the loop uses as a subscript; text has no [copy]. *)
Example list_users_normalized :
  process_users_data no_json utc [VDict []; list_user]
  = Ret [VDict []; list_user] /\
  process_users_data no_json utc [VDict []; named_list_user]
  = Raise TypeError /\
  process_users_data no_json utc [VList [VStr "details"]] = Raise TypeError /\
  process_users_data no_json utc [VList [VStr "notification_settings"]]
  = Ret [VList [VStr "notification_settings"]] /\
  process_users_data no_json utc [VDict []; VStr "deleted"]
  = Raise AttributeError /\
  process_articles_data no_json utc [VDict []; list_user]
  = Raise AttributeError.
Proof. vm_compute. repeat split; reflexivity. Qed.

(** Notification settings that are not a mapping have no [items()]. *)
Example numeric_settings_raise :
  process_users_data no_json utc [VDict [("notification_settings", VInt 5)]]
  = Raise AttributeError.
Proof. reflexivity. Qed.

(** [int] on strings. *)
Example parse_int_samples :
  map parse_int ["12"; " 12 "; "+12"; "-12"; "1_000"; "0012";
                 "_1"; "1_"; "1__0"; ""; " "; "0x10"; "- 1"; "12.0"; "1 2"]
  = [Some 12; Some 12; Some 12; Some (-12); Some 1000; Some 12;
     None; None; None; None; None; None; None; None; None].
Proof. vm_compute. reflexivity. Qed.

(** The ends of the calendar at UTC, and the ends of the platform. *)
Example fromtimestamp_samples :
  map (fun t => match fromtimestamp utc t with
                | Ret dt => inl (strftime dt)
                | Raise e => inr e
                end)
      [0; -1; 253402300799; 253402300800; -62135510400; -62135596800;
       1700000000000; 10 ^ 17; 2 ^ 63]
  = [inl "1970-01-01 00:00:00"; inl "1969-12-31 23:59:59";
     inl "9999-12-31 23:59:59"; inr ValueError;
     inl "1-01-02 00:00:00"; inr ValueError;
     inr ValueError; inr OSError; inr OverflowError].
Proof. vm_compute. reflexivity. Qed.

(** ** The normalizer theorems at work on sample records *)

(** Losslessness as the specification words it fails: [clashing_article]
    has a top-level [author_username] of ["alice"] and no author; the
    normalized record has [author_username] set to [None]. *)
Lemma flatten_lossless_counterexample : ~ flatten_lossless_claim.
Proof.
  intros H. destruct (H no_json utc) as (Ha & _).
  assert (Hrun : process_articles_data no_json utc [VDict clashing_article]
                 = Ret [[("author_username", VNone); ("author_email", VNone)]])
    by reflexivity.
  specialize (Ha _ _ 0%nat _ _ Hrun eq_refl eq_refl
                 "author_username" (VStr "alice") eq_refl).
  discriminate Ha.
Qed.

Lemma normalizer_keeps_keys_witness :
  exists out,
    process_articles_data no_json utc [VDict sample_article] = Ret [out] /\
    overwrites article_derived_key sample_article out.
Proof.
  eexists. split; [vm_compute; reflexivity|].
  destruct (normalizer_keeps_keys no_json utc) as (Ha & _).
  eapply (Ha [VDict sample_article] _ 0%nat).
  - vm_compute. reflexivity.
  - reflexivity.
  - reflexivity.
Defined.

Lemma author_identity_fields_unique_witness :
  exists out,
    process_articles_data no_json utc [VDict sample_article] = Ret [out] /\
    key_count out "author_username" = 1%nat /\
    key_count out "author_email" = 1%nat /\
    dict_get out "author_username" = Some (VStr "bob") /\
    dict_get out "author_email" = Some (VStr "bob@example.org").
Proof.
  eexists. split; [vm_compute; reflexivity|].
  destruct (author_identity_fields_unique no_json utc) as (Ha & _).
  unfold on_each_record in Ha.
  eapply Ha with (records := [VDict sample_article]) (i := 0%nat)
                 (a := sample_article)
                 (au := [("username", VStr "bob");
                         ("email", VStr "bob@example.org"); ("id", VInt 7)]).
  - vm_compute. reflexivity.
  - reflexivity.
  - reflexivity.
  - apply (bool_decide_unpack _). vm_compute. exact I.
  - reflexivity.
  - left. reflexivity.
Defined.

(** The timestamp rule as the specification words it fails:
    [millis_article] has a [time] of 1700000000000, a non-empty integer;
    its year, 55840, is
    outside the calendar, the conversion raises [ValueError], which the
    loop catches, and no [time_readable] is added. *)
Lemma timestamp_counterexample : ~ timestamp_claim.
Proof.
  intros H. destruct (H no_json utc) as (Ha & _).
  assert (Hrun : process_articles_data no_json utc [VDict millis_article]
                 = Ret [[("time", VInt 1700000000000);
                         ("author_username", VNone);
                         ("author_email", VNone)]])
    by (vm_compute; reflexivity).
  specialize (Ha _ _ 0%nat _ _ Hrun eq_refl eq_refl "time" (or_introl eq_refl)).
  destruct Ha as (_ & Ha).
  destruct (Ha (VInt 1700000000000) 1700000000000 eq_refl eq_refl eq_refl)
    as (s & Hs & _).
  discriminate Hs.
Qed.

Lemma timestamp_fields_readable_witness :
  exists out,
    process_articles_data no_json utc [VDict sample_article] = Ret [out] /\
    timestamp_rule utc "time" sample_article out /\
    dict_get out "time_readable" = Some (VStr "2023-11-14 22:13:20").
Proof.
  eexists. split; [vm_compute; reflexivity|].
  split; [|vm_compute; reflexivity].
  destruct (timestamp_fields_readable no_json utc) as (Ha & _).
  eapply (Ha [VDict sample_article] _ 0%nat).
  - vm_compute. reflexivity.
  - reflexivity.
  - reflexivity.
  - left. reflexivity.
Defined.

(** * Further properties *)

(** ** Transport: attempts, waits and messages *)

Section TransportEffects.

Context {Server : Type}.
Variable serve : Server -> http_request -> send_outcome * Server.
Variables site_url access_token server_key : string.
Implicit Types w : @world Server.

(** The attempts [a], [a+1], ..., up to the last one allowed: how many
    are made, the waits between them, what is returned and what is
    shown. *)
Lemma request_attempts_effects endpoint post_data retries n :
  forall a w r w',
  retries = Z.of_nat (a + n) ->
  request_attempts serve site_url access_token server_key endpoint post_data
                   retries (map Z.of_nat (seq a n)) w = (r, w') ->
  exists xs,
    http_log w' = http_log w ++ xs /\
    (length xs <= n)%nat /\
    sleeps w'
      = sleeps w ++ map (fun i => 2 ^ Z.of_nat i) (seq a (length xs - 1)) /\
    match last xs with
    | None => n = O /\ r = VNone /\ ui_errors w' = ui_errors w
    | Some x =>
        match classify (snd x) with
        | Returned v => r = v /\ ui_errors w' = ui_errors w
        | RequestException msg =>
            length xs = n /\ r = VNone /\
            ui_errors w' = ui_errors w ++ [failure_message retries msg]
        | JSONDecodeError =>
            r = VNone /\
            ui_errors w' = ui_errors w ++ ["Invalid JSON response from API"]
        end
    end.
Proof.
  induction n as [|n IH]; intros a w r w' Hret H; simpl in H.
  - inversion H; subst. exists []. simpl. rewrite !app_nil_r.
    repeat split; auto.
  - destruct (attempt_request _ _ _ _ _ _ w) as [o w1] eqn:Ha.
    apply attempt_request_spec in Ha
      as (out & -> & Hlog & _ & _ & _ & _ & Hu & Hs & _).
    set (x := (expected_request site_url access_token server_key endpoint
                 (option_map (deref w) post_data), out)) in *.
    destruct (classify out) as [v|msg|] eqn:Hcl.
    + inversion H; subst. exists [x]. simpl. rewrite Hcl, app_nil_r.
      repeat split; auto; lia.
    + destruct (Z.of_nat a =? retries - 1) eqn:E.
      * apply Z.eqb_eq in E. inversion H; subst. exists [x]. simpl.
        rewrite Hcl, app_nil_r, Hu. repeat split; auto; lia.
      * apply Z.eqb_neq in E.
        apply (IH (S a)) in H as (xs & Hlog' & Hn & Hsl & Hlast); [|lia].
        simpl in Hlog', Hsl.
        destruct xs as [|x' xs].
        { simpl in Hlast. destruct Hlast as (-> & _). lia. }
        exists (x :: x' :: xs). rewrite Hlog', Hlog, <- app_assoc.
        split; [reflexivity|]. split; [simpl in *; lia|].
        split.
        -- rewrite Hsl, Hs, <- app_assoc. simpl. rewrite Nat.sub_0_r.
           reflexivity.
        -- rewrite last_cons_cons.
           unfold time_sleep in Hlast. cbn [ui_errors] in Hlast.
           rewrite Hu in Hlast.
           destruct (last (x' :: xs)) as [y|]; [|simpl in Hn; lia].
           destruct (classify (snd y)); auto.
           destruct Hlast as (Hl & Hr & Hm). simpl in *.
           repeat split; auto.
    + inversion H; subst. exists [x]. simpl. rewrite Hcl, app_nil_r, Hu.
      repeat split; auto; lia.
Qed.

(** One attempt on a non-empty payload leaves the payload object holding
    the credential. *)
Lemma attempt_request_payload endpoint l w o w' kv d :
  attempt_request serve site_url access_token server_key endpoint (Some l) w
    = (o, w') ->
  deref w l = kv :: d ->
  deref w' l = dict_set (kv :: d) "server_key" (VStr server_key).
Proof.
  unfold attempt_request. intros H Hd. rewrite Hd in H. simpl in H.
  pose proof (deref_cons_lookup _ _ _ _ Hd) as Hl.
  destruct (send _ _ (store _ _ _ w)) as [out w1] eqn:Hs.
  inversion H; subst.
  apply send_spec in Hs as (_ & Hheap & _).
  rewrite (deref_heap_eq _ _ _ Hheap).
  apply (store_deref_eq _ _ _ _ _ Hl).
Qed.

Lemma request_attempts_payload endpoint l retries attempts :
  forall w r w' kv d,
  request_attempts serve site_url access_token server_key endpoint (Some l)
                   retries attempts w = (r, w') ->
  deref w l = kv :: d ->
  attempts <> [] ->
  deref w' l = dict_set (kv :: d) "server_key" (VStr server_key).
Proof.
  induction attempts as [|attempt rest IH]; intros w r w' kv d H Hd Hne;
    [congruence|].
  simpl in H.
  destruct (attempt_request _ _ _ _ _ _ w) as [o w1] eqn:Ha.
  pose proof (attempt_request_payload _ _ _ _ _ _ _ Ha Hd) as Hd1.
  destruct o as [v|msg|].
  - inversion H; subst. exact Hd1.
  - destruct (attempt =? retries - 1).
    + inversion H; subst. exact Hd1.
    + destruct rest as [|a' rest'].
      * simpl in H. inversion H; subst. exact Hd1.
      * destruct (dict_set_cons (kv :: d) "server_key" (VStr server_key))
          as (kv' & d' & E).
        rewrite E in Hd1.
        eapply IH in H; [|exact Hd1|discriminate].
        rewrite H, <- E. apply dict_set_idem.
  - inversion H; subst. exact Hd1.
Qed.

(** Attempts without a payload, or on an empty one, leave the heap
    alone. *)
Lemma request_attempts_unpaid endpoint post_data retries attempts :
  forall w r w',
  post_data = None \/ (exists l, post_data = Some l /\ deref w l = []) ->
  request_attempts serve site_url access_token server_key endpoint post_data
                   retries attempts w = (r, w') ->
  heap w' = heap w.
Proof.
  induction attempts as [|a rest IH]; intros w r w' Hcase H; simpl in H.
  - inversion H. reflexivity.
  - assert (Hone : exists out w1,
              attempt_request serve site_url access_token server_key endpoint
                              post_data w = (classify out, w1) /\
              heap w1 = heap w).
    { unfold attempt_request.
      destruct Hcase as [->|(l & -> & Hd)]; [|rewrite Hd; simpl];
        destruct (send serve _ w) as [out w1] eqn:Hs;
        apply send_spec in Hs as (_ & Hh & _); eauto. }
    destruct Hone as (out & w1 & Ha & Hh). rewrite Ha in H.
    destruct (classify out).
    + inversion H; subst. exact Hh.
    + destruct (a =? retries - 1).
      * inversion H; subst. exact Hh.
      * apply IH in H; [simpl in H; congruence|].
        destruct Hcase as [->|(l & -> & Hd)]; [auto|].
        right. exists l. split; [reflexivity|].
        unfold deref in *. simpl. rewrite Hh. exact Hd.
    + inversion H; subst. exact Hh.
Qed.

Lemma range_seq retries : range retries = map Z.of_nat (seq 0 (Z.to_nat retries)).
Proof. reflexivity. Qed.

(** X1 (backoff).  A call of the transport makes at most [retries]
    attempts, none when [retries] is zero or less, and between its
    attempts it waits 1, 2, 4, ... seconds: one wait, of [2 ^ i] seconds,
    after each attempt [i] but the last. *)
Theorem make_api_request_backoff endpoint post_data retries w r w' :
  make_api_request serve site_url access_token server_key endpoint post_data
                   retries w = (r, w') ->
  Z.of_nat (length (new_exchanges w w')) <= Z.max 0 retries /\
  sleeps w' = sleeps w ++ backoff_waits (length (new_exchanges w w')).
Proof.
  unfold make_api_request. intros H.
  destruct (request_attempts _ _ _ _ _ _ _ _ w) as [r0 w0] eqn:Hr.
  inversion H; subst. clear H.
  destruct (Z_le_gt_dec retries 0) as [Hle|Hgt].
  - assert (E : Z.to_nat retries = O) by lia.
    rewrite range_seq, E in Hr. simpl in Hr. inversion Hr; subst.
    unfold new_exchanges, backoff_waits. simpl.
    rewrite drop_all, app_nil_r. simpl. split; [lia|reflexivity].
  - rewrite range_seq in Hr.
    apply (request_attempts_effects _ _ _ _ O) in Hr
      as (xs & Hlog & Hn & Hsl & _); [|simpl; lia].
    unfold new_exchanges, backoff_waits. simpl.
    rewrite Hlog, drop_app_length. split; [lia|exact Hsl].
Qed.

(** No attempt ends in the exception that the second handler names. *)
Lemma classify_handled out : classify out <> JSONDecodeError.
Proof.
  destruct out as [[[e|] [v|e']]|e]; discriminate.
Qed.

(** A body that does not decode raises a [RequestException]. *)
Lemma undecodable_classify x :
  undecodable x = true -> exists msg, classify (snd x) = RequestException msg.
Proof.
  unfold undecodable, classify.
  destruct (snd x) as [[[e|] [v|msg]]|e']; simpl; try discriminate; eauto.
Qed.

(** X2 (diagnostics).  With at least one attempt allowed, what a call
    returns and shows is decided by its last exchange: a decoded payload
    is returned and nothing is shown; after a [RequestException], the
    error of a body that does not decode included, the call has used all
    its attempts, returns [None] and shows the failure message with the
    text of that last exception.  No call ends in the second handler. *)
Theorem make_api_request_diagnostics endpoint post_data retries w r w' :
  0 < retries ->
  make_api_request serve site_url access_token server_key endpoint post_data
                   retries w = (r, w') ->
  exists x,
    last (new_exchanges w w') = Some x /\
    match classify (snd x) with
    | Returned v => r = v /\ ui_errors w' = ui_errors w
    | RequestException msg =>
        length (new_exchanges w w') = Z.to_nat retries /\ r = VNone /\
        ui_errors w' = ui_errors w ++ [failure_message retries msg]
    | JSONDecodeError => False
    end.
Proof.
  unfold make_api_request. intros Hpos H.
  destruct (request_attempts _ _ _ _ _ _ _ _ w) as [r0 w0] eqn:Hr.
  inversion H; subst. clear H.
  rewrite range_seq in Hr.
  apply (request_attempts_effects _ _ _ _ O) in Hr
    as (xs & Hlog & Hn & Hsl & Hlast); [|simpl; lia].
  unfold new_exchanges. simpl. rewrite Hlog, drop_app_length.
  destruct (last xs) as [x|]; [|destruct Hlast; lia].
  exists x. split; [reflexivity|].
  pose proof (classify_handled (snd x)) as Hh.
  destruct (classify (snd x)); [exact Hlast|exact Hlast|congruence].
Qed.

(** C6 (decode failure), as the code has it.  A response with a good
    status whose body does not decode is handled as a timeout is: it is the
    last exchange of the call only when it answers the last attempt
    allowed, and then the call returns [None] and shows the message of a
    failed request with the text of the decode error; before that a
    further attempt follows.  No call shows the message of the second
    handler. *)
Theorem make_api_request_retries_decode_failure endpoint post_data retries
    w r w' pre x post :
  make_api_request serve site_url access_token server_key endpoint post_data
                   retries w = (r, w') ->
  new_exchanges w w' = pre ++ x :: post ->
  undecodable x = true ->
  (post = [] <-> Z.of_nat (length pre) = retries - 1) /\
  (post = [] ->
   r = VNone /\
   exists msg, classify (snd x) = RequestException msg /\
               ui_errors w' = ui_errors w ++ [failure_message retries msg]) /\
  ~ In "Invalid JSON response from API"
       (drop (length (ui_errors w)) (ui_errors w')).
Proof.
  unfold make_api_request. intros H Hnew Hx.
  destruct (request_attempts _ _ _ _ _ _ _ _ w) as [r0 w0] eqn:Hr.
  inversion H; subst. clear H.
  unfold new_exchanges in Hnew. simpl in Hnew |- *.
  destruct (Z_le_gt_dec retries 0) as [Hle|Hgt].
  { assert (E : Z.to_nat retries = O) by lia.
    rewrite range_seq, E in Hr. simpl in Hr. inversion Hr; subst.
    rewrite drop_all in Hnew. destruct pre; discriminate. }
  rewrite range_seq in Hr.
  apply (request_attempts_effects _ _ _ _ O) in Hr
    as (xs & Hlog & Hn & _ & Hlast); [|simpl; lia].
  rewrite Hlog, drop_app_length in Hnew. subst xs.
  rewrite length_app in Hn. simpl in Hn.
  destruct (undecodable_classify x Hx) as (msg & Hcl).
  assert (Hend : post = [] ->
            Z.of_nat (length pre) = retries - 1 /\ r = VNone /\
            ui_errors w0 = ui_errors w ++ [failure_message retries msg]).
  { intros ->. rewrite last_snoc, Hcl in Hlast.
    destruct Hlast as (Hl & Hr0 & Hu). rewrite length_app in Hl.
    simpl in Hl. split; [lia|]. auto. }
  split; [split|split].
  - intros Hp. apply Hend. exact Hp.
  - intros Hp. destruct post; [reflexivity|simpl in Hn; lia].
  - intros Hp. destruct (Hend Hp) as (_ & Hr0 & Hu). eauto.
  - assert (Hu : ui_errors w0 = ui_errors w \/
                 exists m, ui_errors w0
                           = ui_errors w ++ [failure_message retries m]).
    { destruct (last (pre ++ x :: post)) as [y|]; [|tauto].
      pose proof (classify_handled (snd y)) as Hh.
      destruct (classify (snd y)); [tauto|right; eexists; apply Hlast|
                                    congruence]. }
    destruct Hu as [->|(m & ->)].
    + rewrite drop_all. intros [].
    + rewrite drop_app_length. intros [E|[]].
      cbv [failure_message String.append] in E. discriminate.
Qed.

(** X3 (no attempts allowed).  With [retries] zero or less, a call sends
    nothing, changes no object, shows nothing, and returns [None]. *)
Theorem make_api_request_no_retries endpoint post_data retries w r w' :
  retries <= 0 ->
  make_api_request serve site_url access_token server_key endpoint post_data
                   retries w = (r, w') ->
  r = VNone /\ new_exchanges w w' = [] /\ heap w' = heap w /\
  ui_errors w' = ui_errors w /\ sleeps w' = sleeps w.
Proof.
  unfold make_api_request. intros Hle H.
  assert (E : Z.to_nat retries = O) by lia.
  rewrite range_seq, E in H. simpl in H. inversion H; subst.
  unfold new_exchanges. simpl. rewrite drop_all. auto.
Qed.

(** X4 (the payload is written in place).  A call on a non-empty payload
    object, with at least one attempt allowed, sends [POST] requests that
    carry the payload with the configured credential under [server_key],
    whatever the payload held under that key, and leaves the object
    itself holding the credential; every other object is as it was. *)
Theorem make_api_request_injects_credential endpoint l retries w r w' kv d :
  0 < retries ->
  heap w !! l = Some (kv :: d) ->
  make_api_request serve site_url access_token server_key endpoint (Some l)
                   retries w = (r, w') ->
  heap w' !! l = Some (dict_set (kv :: d) "server_key" (VStr server_key)) /\
  (forall l', l' <> l -> heap w' !! l' = heap w !! l') /\
  length (heap w') = length (heap w) /\
  Forall (fun x => req_method (fst x) = POST /\
                   req_data (fst x)
                   = Some (dict_set (kv :: d) "server_key" (VStr server_key)))
         (new_exchanges w w').
Proof.
  intros Hpos Hl H. pose proof H as H'.
  apply make_api_request_spec in H'
    as (xs & Hlog & _ & (Hall & _) & _ & Hlen & Hfr & _).
  rewrite (new_exchanges_app _ _ _ Hlog).
  assert (Hd : deref w l = kv :: d) by (apply deref_lookup; exact Hl).
  unfold make_api_request in H.
  destruct (request_attempts _ _ _ _ _ _ _ _ w) as [r0 w0] eqn:Hr.
  inversion H; subst. clear H. simpl in *.
  repeat split; auto.
  - eapply request_attempts_payload in Hr; eauto.
    + unfold deref in Hr.
      destruct (heap w0 !! l) as [d0|] eqn:E; simpl in Hr; [congruence|].
      apply lookup_ge_None in E. apply lookup_lt_Some in Hl. lia.
    + rewrite range_seq. destruct (Z.to_nat retries) eqn:E; [lia|discriminate].
  - intros l' Hne. apply Hfr. congruence.
  - eapply Forall_impl; [exact Hall|]. intros x Hx. simpl in Hx.
    rewrite Hx, Hd. simpl. auto.
Qed.

(** X5 (no payload, or an empty one).  A call without a payload, or on an
    empty payload object, sends [GET] requests without data and leaves
    the heap as it was: no credential is sent. *)
Theorem make_api_request_get endpoint post_data retries w r w' :
  post_data = None \/ (exists l, post_data = Some l /\ deref w l = []) ->
  make_api_request serve site_url access_token server_key endpoint post_data
                   retries w = (r, w') ->
  Forall (fun x => req_method (fst x) = GET /\ req_data (fst x) = None)
         (new_exchanges w w') /\
  heap w' = heap w.
Proof.
  intros Hcase H. pose proof H as H'.
  apply make_api_request_spec in H' as (xs & Hlog & _ & (Hall & _) & _).
  rewrite (new_exchanges_app _ _ _ Hlog). split.
  - eapply Forall_impl; [exact Hall|]. intros x Hx. rewrite Hx.
    destruct Hcase as [->|(l & -> & Hd)]; simpl; [auto|].
    rewrite Hd. simpl. auto.
  - unfold make_api_request in H.
    destruct (request_attempts _ _ _ _ _ _ _ _ w) as [r0 w0] eqn:Hr.
    inversion H; subst. simpl.
    eapply request_attempts_unpaid; eauto.
Qed.

End TransportEffects.

(** ** Transport: the address *)

Lemma rstrip_slash_slash s : rstrip_slash (s +:+ "/") = rstrip_slash s.
Proof.
  induction s as [|c s IH]; [reflexivity|].
  simpl. rewrite IH. reflexivity.
Qed.

Lemma rstrip_slash_clean s : ends_with_slash (rstrip_slash s) = false.
Proof.
  induction s as [|c s IH]; [reflexivity|].
  simpl. destruct (rstrip_slash s) as [|c' t] eqn:E.
  - destruct (Ascii.eqb c "/") eqn:Ec; [reflexivity|]. simpl. exact Ec.
  - exact IH.
Qed.

(** X6 (trailing slashes).  The address of an endpoint does not depend on
    how many slashes end the configured site URL, and the site part of it
    never ends with a slash. *)
Theorem api_url_trailing_slashes site_url access_token endpoint k :
  api_url (Nat.iter k (fun s => s +:+ "/") site_url) access_token endpoint
  = api_url site_url access_token endpoint /\
  ends_with_slash (rstrip_slash site_url) = false.
Proof.
  split; [|apply rstrip_slash_clean].
  unfold api_url. f_equal.
  induction k as [|k IH]; [reflexivity|].
  simpl. rewrite rstrip_slash_slash. exact IH.
Qed.

(** ** Paginator: how a pass ends *)

Section PassEnds.

Context {Server : Type}.
Implicit Types w : @world Server.

(** A pass that ends the loop normally: the page failed, or its batch was
    empty or short; the records of the page are kept. *)
Lemma handle_result_break st current_limit result w st' w' :
  handle_result st current_limit result w = (Break st', w') ->
  all_articles st' = all_articles st ++ page_items result /\
  total_fetched st'
    = total_fetched st + Z.of_nat (length (page_items result)) /\
  (page_failed result = true \/
   forall lim, as_int current_limit = Some lim ->
               short_batch lim result = true).
Proof.
  unfold handle_result, page_failed, short_batch, page_items, page_batch.
  intros H.
  destruct (truthy result) eqn:Ht.
  2:{ inversion H; subst. rewrite app_nil_r, Z.add_0_r. auto. }
  destruct result as [| | | | |d]; try discriminate.
  destruct (eq_200 (dict_get d "api_status")).
  2:{ inversion H; subst. rewrite app_nil_r, Z.add_0_r. auto. }
  destruct (truthy (dict_get_default d "articles" (VList []))) eqn:Hb.
  - destruct (py_iter (dict_get_default d "articles" (VList [])))
      as [items|e]; [|discriminate].
    destruct (as_int current_limit) as [lim|]; [|discriminate].
    destruct (Z.of_nat (length items) <? lim) eqn:Hlt; [|discriminate].
    inversion H; subst. simpl. repeat split; auto.
    right. intros lim' E. inversion E; subst. exact Hlt.
  - inversion H; subst.
    assert (Hnil : match py_iter (dict_get_default d "articles" (VList []))
                   with Ret xs => xs | Raise _ => [] end = []).
    { destruct (dict_get_default d "articles" (VList []))
        as [| | |s|xs|kvs]; simpl in *; try reflexivity.
      - destruct s; [reflexivity|discriminate].
      - destruct xs; [reflexivity|discriminate].
      - destruct kvs; [reflexivity|discriminate]. }
    rewrite Hnil, app_nil_r, Z.add_0_r. simpl. auto.
Qed.

(** A pass that raises: the payload is not a mapping, or its batch cannot
    be iterated or measured against the limit. *)
Lemma handle_result_throw st current_limit result w e w' :
  handle_result st current_limit result w = (Throw e, w') ->
  (e = AttributeError /\ truthy result = true /\
   forall d, result <> VDict d) \/
  (e = TypeError /\
   exists b, page_batch result = Some b /\ truthy b = true /\
             (py_iter b = Raise TypeError \/ as_int current_limit = None)).
Proof.
  unfold handle_result, page_batch. intros H.
  destruct (truthy result) eqn:Ht; [|discriminate].
  destruct result as [| | | | |d];
    try (inversion H; subst; left; repeat split; auto; discriminate).
  destruct (eq_200 (dict_get d "api_status")); [|discriminate].
  destruct (truthy (dict_get_default d "articles" (VList []))) eqn:Hb;
    [|discriminate].
  right.
  destruct (py_iter (dict_get_default d "articles" (VList [])))
    as [items|e'] eqn:Hi.
  - destruct (as_int current_limit) as [lim|] eqn:Hl.
    + destruct (Z.of_nat (length items) <? lim); discriminate.
    + inversion H; subst. split; [reflexivity|]. eauto 10.
  - inversion H; subst.
    assert (e = TypeError).
    { destruct (dict_get_default d "articles" (VList []));
        simpl in Hi; congruence. }
    subst e. split; [reflexivity|]. eauto 10.
Qed.

(** A payload that is not empty and not a mapping has no [get]. *)
Lemma handle_result_not_mapping st current_limit result w :
  truthy result = true -> (forall d, result <> VDict d) ->
  handle_result st current_limit result w = (Throw AttributeError, w).
Proof.
  unfold handle_result. intros Ht Hnd. rewrite Ht.
  destruct result as [| | | | |d]; try reflexivity. destruct (Hnd d eq_refl).
Qed.

End PassEnds.

Section PaginateMore.

Context {Server : Type}.
Variables site_url access_token server_key : string.
Variables (base : list (string * value)) (total_limit : Z).
Variables (current_offset api_limit : value).

Local Abbreviation pages :=
  (paginate Server site_url access_token server_key base total_limit
            current_offset api_limit).
Local Abbreviation called :=
  (page_called site_url access_token server_key base total_limit
               current_offset api_limit).

Lemma page_called_limit st current_limit offset c :
  called st current_limit offset c ->
  exists lim, as_int current_limit = Some lim /\ call_limit c = Some lim /\
              lim <= total_limit - total_fetched st.
Proof.
  intros Hc. pose proof Hc as (_ & Hmin & _).
  destruct (py_min_numeric _ _ _ Hmin) as [a Ha].
  destruct (page_called_payload _ _ _ _ _ _ _ _ _ _ _ _ Hc Ha)
    as (Hl & (d & Hd & Hrl & _) & _).
  eexists. split; [exact Hl|]. split; [|lia].
  unfold call_limit. rewrite Hd. exact Hrl.
Qed.

(** What a run returns is what its pages brought, in order. *)
Lemma paginate_records st cs r records :
  pages st cs r -> r = Ret records ->
  records = all_articles st ++ records_of cs.
Proof.
  induction 1 as [ | | |st cl off c w w' st' cs r Hc Hres Hp IH
                  |st cl off c w w' st' Hc Hres|st cl off c w w' e Hc Hres];
    intros Hr; try discriminate.
  - inversion Hr. unfold records_of. simpl. rewrite app_nil_r. reflexivity.
  - apply handle_result_continue in Hres as (lim & _ & _ & _ & _ & _ & ->).
    rewrite (IH Hr), records_of_cons. simpl. rewrite app_assoc. reflexivity.
  - apply handle_result_break in Hres as (Hall & _). inversion Hr.
    rewrite Hall. unfold records_of. simpl. rewrite app_nil_r. reflexivity.
Qed.

(** A run that returns fewer records than the target ended on a failed
    page, or on an empty or short batch. *)
Lemma paginate_early_stop st cs r records :
  pages st cs r ->
  Z.of_nat (length (all_articles st)) = total_fetched st ->
  r = Ret records ->
  Z.of_nat (length records) < total_limit ->
  exists pre c,
    cs = pre ++ [c] /\
    (page_failed (call_result c) = true \/
     exists lim, call_limit c = Some lim /\
                 short_batch lim (call_result c) = true).
Proof.
  induction 1 as [ | | |st cl off c w w' st' cs r Hc Hres Hp IH
                  |st cl off c w w' st' Hc Hres|st cl off c w w' e Hc Hres];
    intros Hinv Hr Hlt; try discriminate.
  - inversion Hr; subst. lia.
  - apply handle_result_continue in Hres as (lim & _ & _ & _ & _ & _ & ->).
    destruct IH as (pre & c' & -> & Hwhy); auto.
    + simpl. rewrite length_app. lia.
    + exists (c :: pre), c'. auto.
  - exists [], c. split; [reflexivity|].
    apply handle_result_break in Hres as (_ & _ & [Hf|Hs]); [auto|].
    destruct (page_called_limit _ _ _ _ Hc) as (lim & Hl & Hcl & _).
    right. exists lim. auto.
Qed.

(** When no page brings more than its limit, a run never returns more
    than the target. *)
Lemma paginate_bounded st cs r records :
  pages st cs r ->
  Z.of_nat (length (all_articles st)) = total_fetched st ->
  Forall (fun c => forall lim, call_limit c = Some lim ->
            Z.of_nat (length (page_items (call_result c))) <= lim) cs ->
  r = Ret records ->
  Z.of_nat (length records) <= Z.max (total_fetched st) total_limit.
Proof.
  induction 1 as [ | | |st cl off c w w' st' cs r Hc Hres Hp IH
                  |st cl off c w w' st' Hc Hres|st cl off c w w' e Hc Hres];
    intros Hinv Hhon Hr; try discriminate.
  - inversion Hr; subst. lia.
  - pose proof (Forall_inv Hhon) as Hc0.
    pose proof (Forall_inv_tail Hhon) as Hrest.
    destruct (page_called_limit _ _ _ _ Hc) as (lim & Hl & Hcl & Hle).
    specialize (Hc0 lim Hcl).
    apply handle_result_continue in Hres as (lim' & _ & _ & _ & _ & _ & ->).
    simpl in IH. rewrite length_app in IH.
    specialize (IH ltac:(lia) Hrest Hr). lia.
  - pose proof (Forall_inv Hhon) as Hc0.
    destruct (page_called_limit _ _ _ _ Hc) as (lim & Hl & Hcl & Hle).
    specialize (Hc0 lim Hcl).
    apply handle_result_break in Hres as (Hall & _ & _).
    inversion Hr; subst. rewrite Hall, length_app. lia.
Qed.

(** A payload that is not empty and not a mapping is the last one of the
    run, and makes it raise [AttributeError]. *)
Lemma paginate_not_mapping st cs r :
  pages st cs r ->
  forall pre c post,
    cs = pre ++ c :: post -> truthy (call_result c) = true ->
    (forall d, call_result c <> VDict d) ->
    post = [] /\ r = Raise AttributeError.
Proof.
  induction 1 as [ | | |st cl off c0 w w' st' cs r Hc Hres Hp IH
                  |st cl off c0 w w' st' Hc Hres|st cl off c0 w w' e Hc Hres];
    intros pre c post Hcs Ht Hnd; try (destruct pre; discriminate).
  - destruct pre as [|p pre]; simpl in Hcs; inversion Hcs; subst.
    + rewrite (handle_result_not_mapping _ _ _ _ Ht Hnd) in Hres.
      discriminate.
    + eapply IH; eauto.
  - destruct pre as [|p [|? ?]]; inversion Hcs; subst.
    rewrite (handle_result_not_mapping _ _ _ _ Ht Hnd) in Hres. discriminate.
  - destruct pre as [|p [|? ?]]; inversion Hcs; subst.
    rewrite (handle_result_not_mapping _ _ _ _ Ht Hnd) in Hres.
    inversion Hres. auto.
Qed.

(** A run raises nothing but [TypeError] and [AttributeError]. *)
Lemma paginate_raises st cs r e :
  pages st cs r -> r = Raise e -> e = TypeError \/ e = AttributeError.
Proof.
  induction 1 as [ |st e0 Hlt Hmin|st cl e0 Hlt Hmin Hoff
                  |st cl off c w w' st' cs r Hc Hres Hp IH
                  |st cl off c w w' st' Hc Hres|st cl off c w w' e0 Hc Hres];
    intros Hr; try discriminate; auto.
  - inversion Hr; subst. left. unfold py_min in Hmin.
    destruct (as_int api_limit); [|congruence].
    destruct (as_int (VInt (total_limit - total_fetched st))); congruence.
  - inversion Hr; subst. left. unfold py_add_int in Hoff.
    destruct (as_int current_offset); congruence.
  - inversion Hr; subst.
    apply handle_result_throw in Hres as [(-> & _)|(-> & _)]; auto.
Qed.

End PaginateMore.

Section PaginateCauses.

Context {Server : Type}.
Variables site_url access_token server_key : string.
Variables (base : list (string * value)) (total_limit : Z).
Variables (current_offset api_limit : value).

Local Abbreviation pages :=
  (paginate Server site_url access_token server_key base total_limit
            current_offset api_limit).
Local Abbreviation called :=
  (page_called site_url access_token server_key base total_limit
               current_offset api_limit).

(** Why a run raises. *)
Lemma paginate_raise_cause st cs r e :
  pages st cs r -> r = Raise e ->
  (e = AttributeError /\
   exists pre c, cs = pre ++ [c] /\ truthy (call_result c) = true /\
                 forall d, call_result c <> VDict d) \/
  (e = TypeError /\
   (as_int api_limit = None \/ as_int current_offset = None \/
    exists pre c b, cs = pre ++ [c] /\ page_batch (call_result c) = Some b /\
                    truthy b = true /\ py_iter b = Raise TypeError)).
Proof.
  induction 1 as [ |st e0 Hlt Hmin|st cl e0 Hlt Hmin Hoff
                  |st cl off c w w' st' cs r Hc Hres Hp IH
                  |st cl off c w w' st' Hc Hres|st cl off c w w' e0 Hc Hres];
    intros Hr; try discriminate.
  - inversion Hr; subst. right. unfold py_min in Hmin.
    destruct (as_int api_limit); [|split; [congruence|auto]].
    simpl in Hmin. discriminate.
  - inversion Hr; subst. right. unfold py_add_int in Hoff.
    destruct (as_int current_offset); [discriminate|].
    split; [congruence|auto].
  - destruct (IH Hr) as [(-> & pre & c' & -> & Ht & Hnd)
                        |(-> & [Hl|[Ho|(pre & c' & b & -> & Hb & Ht & Hi)]])].
    + left. split; [reflexivity|]. exists (c :: pre), c'. auto.
    + right. auto.
    + right. auto.
    + right. split; [reflexivity|]. right. right.
      exists (c :: pre), c', b. auto.
  - inversion Hr; subst.
    destruct (page_called_limit _ _ _ _ _ _ _ _ _ _ _ Hc)
      as (lim & Hl & _ & _).
    apply handle_result_throw in Hres
      as [(-> & Ht & Hnd)|(-> & b & Hb & Ht & [Hi|Hn])].
    + left. split; [reflexivity|]. exists [], c. auto.
    + right. split; [reflexivity|]. right. right. exists [], c, b. auto.
    + congruence.
Qed.

(** What every page payload and every request of a run carries besides
    the limit and the offset. *)
Lemma page_called_filters st current_limit offset c :
  called st current_limit offset c ->
  (exists d, call_data c = Some d /\
             forall k, k <> "limit" -> k <> "offset" ->
                       dict_get d k = dict_get base k) /\
  Forall (fun x =>
            req_method (fst x) = POST /\
            req_url (fst x) = api_url site_url access_token "get-articles" /\
            exists d, req_data (fst x) = Some d /\
                      forall k, k <> "limit" -> k <> "offset" ->
                                k <> "server_key" ->
                                dict_get d k = dict_get base k)
         (call_exchanges c).
Proof.
  intros (_ & _ & _ & _ & Hdata & Hall & _).
  set (payload := dict_set (dict_set base "limit" current_limit) "offset" offset)
    in *.
  assert (Hk : forall k, k <> "limit" -> k <> "offset" ->
                         dict_get payload k = dict_get base k).
  { intros k H1 H2. unfold payload.
    rewrite !dict_get_set_ne by congruence. reflexivity. }
  split; [eauto|].
  eapply Forall_impl; [exact Hall|]. intros x Hx. simpl in Hx.
  rewrite Hx, Hdata.
  destruct (dict_set_cons (dict_set base "limit" current_limit) "offset" offset)
    as (kv & d' & E).
  fold payload in E. unfold expected_request. rewrite E.
  cbn [req_data req_method req_url]. rewrite <- E.
  split; [reflexivity|]. split; [reflexivity|].
  eexists. split; [reflexivity|]. intros k H1 H2 H3.
  rewrite dict_get_set_ne by congruence. auto.
Qed.

End PaginateCauses.

(** ** The paginator: what a run returns, and how it can fail *)

Section PaginatorMore.

Context {Server : Type}.
Variable serve : Server -> http_request -> send_outcome * Server.
Variables site_url access_token server_key : string.
Implicit Types w : @world Server.

(** X7 (nothing lost, nothing added).  Every run returns; what it returns
    normally is the concatenation, in order, of the records of all the
    pages it fetched: no page is dropped, truncated or repeated. *)
Theorem bulk_fetch_articles_returns_pages post_data total_limit
    progress_callback w base :
  heap w !! post_data = Some base ->
  exists r w',
    bulk_fetch_articles serve site_url access_token server_key post_data
                        total_limit progress_callback w = Some (r, w') /\
    forall records, r = Ret records -> records = records_of (new_calls w w').
Proof.
  intros Hbase.
  destruct (bulk_fetch_articles_run serve site_url access_token server_key
              post_data total_limit progress_callback w base Hbase)
    as (r & w' & cs & ext & Hrun & Hc & _ & _ & Hp).
  exists r, w'. split; [exact Hrun|]. rewrite Hc. intros records Hr.
  destruct (py_min _ _) as [api_limit|e] eqn:Hmin.
  - eapply paginate_records in Hp; eauto.
  - destruct Hp as (_ & Hp). congruence.
Qed.

(** X8 (why a run stops early).  Every run returns; when it returns fewer
    records than the target, its last page failed, or brought no records,
    or brought fewer than the page asked for. *)
Theorem bulk_fetch_articles_early_stop post_data total_limit
    progress_callback w base :
  heap w !! post_data = Some base ->
  exists r w',
    bulk_fetch_articles serve site_url access_token server_key post_data
                        total_limit progress_callback w = Some (r, w') /\
    forall records,
      r = Ret records -> Z.of_nat (length records) < total_limit ->
      exists pre c,
        new_calls w w' = pre ++ [c] /\
        (page_failed (call_result c) = true \/
         exists lim, call_limit c = Some lim /\
                     short_batch lim (call_result c) = true).
Proof.
  intros Hbase.
  destruct (bulk_fetch_articles_run serve site_url access_token server_key
              post_data total_limit progress_callback w base Hbase)
    as (r & w' & cs & ext & Hrun & Hc & _ & _ & Hp).
  exists r, w'. split; [exact Hrun|]. rewrite Hc. intros records Hr Hlt.
  destruct (py_min _ _) as [api_limit|e] eqn:Hmin.
  - eapply paginate_early_stop in Hp; eauto.
  - destruct Hp as (_ & Hp). congruence.
Qed.

(** X9 (the target bounds the result of an honest service).  Every run
    returns; when no page brought more records than it asked for, the run
    returns at most [max 0 total_limit] records. *)
Theorem bulk_fetch_articles_bounded post_data total_limit
    progress_callback w base :
  heap w !! post_data = Some base ->
  exists r w',
    bulk_fetch_articles serve site_url access_token server_key post_data
                        total_limit progress_callback w = Some (r, w') /\
    (Forall (fun c => forall lim, call_limit c = Some lim ->
               Z.of_nat (length (page_items (call_result c))) <= lim)
            (new_calls w w') ->
     forall records,
       r = Ret records -> Z.of_nat (length records) <= Z.max 0 total_limit).
Proof.
  intros Hbase.
  destruct (bulk_fetch_articles_run serve site_url access_token server_key
              post_data total_limit progress_callback w base Hbase)
    as (r & w' & cs & ext & Hrun & Hc & _ & _ & Hp).
  exists r, w'. split; [exact Hrun|]. rewrite Hc. intros Hhon records Hr.
  destruct (py_min _ _) as [api_limit|e] eqn:Hmin.
  - eapply paginate_bounded in Hp; eauto.
  - destruct Hp as (_ & Hp). congruence.
Qed.

(** X10 (a payload that is not a mapping).  Every run returns; a page
    whose decoded payload is neither empty nor a mapping (a JSON list,
    string or number) is the last page of the run, and the run raises
    [AttributeError] instead of returning the records fetched so far. *)
Theorem bulk_fetch_articles_not_mapping post_data total_limit
    progress_callback w base :
  heap w !! post_data = Some base ->
  exists r w',
    bulk_fetch_articles serve site_url access_token server_key post_data
                        total_limit progress_callback w = Some (r, w') /\
    forall pre c post,
      new_calls w w' = pre ++ c :: post ->
      truthy (call_result c) = true ->
      (forall d, call_result c <> VDict d) ->
      post = [] /\ r = Raise AttributeError.
Proof.
  intros Hbase.
  destruct (bulk_fetch_articles_run serve site_url access_token server_key
              post_data total_limit progress_callback w base Hbase)
    as (r & w' & cs & ext & Hrun & Hc & _ & _ & Hp).
  exists r, w'. split; [exact Hrun|]. rewrite Hc. intros pre c post Hcs Ht Hnd.
  destruct (py_min _ _) as [api_limit|e] eqn:Hmin.
  - eapply paginate_not_mapping in Hp; eauto.
  - destruct Hp as (Hp & _). rewrite Hp in Hcs. destruct pre; discriminate.
Qed.

(** X11 (what a run can raise).  Every run returns; it raises nothing but
    [AttributeError], after a page whose payload is not a mapping, and
    [TypeError], when the caller's [limit] or [offset] is not a number or
    after a page whose batch of articles cannot be iterated. *)
Theorem bulk_fetch_articles_raises post_data total_limit
    progress_callback w base :
  heap w !! post_data = Some base ->
  exists r w',
    bulk_fetch_articles serve site_url access_token server_key post_data
                        total_limit progress_callback w = Some (r, w') /\
    forall e,
      r = Raise e ->
      (e = AttributeError /\
       exists pre c, new_calls w w' = pre ++ [c] /\
                     truthy (call_result c) = true /\
                     forall d, call_result c <> VDict d) \/
      (e = TypeError /\
       (as_int (dict_get_default base "limit" (VInt 1000)) = None \/
        as_int (dict_get_default base "offset" (VInt 0)) = None \/
        exists pre c b, new_calls w w' = pre ++ [c] /\
                        page_batch (call_result c) = Some b /\
                        truthy b = true /\ py_iter b = Raise TypeError)).
Proof.
  intros Hbase.
  destruct (bulk_fetch_articles_run serve site_url access_token server_key
              post_data total_limit progress_callback w base Hbase)
    as (r & w' & cs & ext & Hrun & Hc & _ & _ & Hp).
  exists r, w'. split; [exact Hrun|]. rewrite Hc. intros e Hr.
  destruct (py_min _ _) as [api_limit|e'] eqn:Hmin.
  - eapply paginate_raise_cause in Hp; eauto.
    destruct Hp as [Hp|(-> & [Hl|Hp])]; auto.
    apply api_limit_ceiling in Hmin as (a & Ha & _). congruence.
  - destruct Hp as (_ & Hp). right. unfold py_min in Hmin. simpl in Hmin.
    destruct (as_int (dict_get_default base "limit" (VInt 1000)));
      [discriminate|].
    split; [congruence|auto].
Qed.

(** X12 (a malformed paging field).  When the caller's [limit] is not a
    number, the run raises [TypeError] at once; when its [offset] is not a
    number and the target is positive, it raises [TypeError] in the first
    pass.  In both cases nothing is sent. *)
Theorem bulk_fetch_articles_bad_paging post_data total_limit
    progress_callback w base :
  heap w !! post_data = Some base ->
  as_int (dict_get_default base "limit" (VInt 1000)) = None \/
  (0 < total_limit /\
   as_int (dict_get_default base "offset" (VInt 0)) = None) ->
  exists w',
    bulk_fetch_articles serve site_url access_token server_key post_data
                        total_limit progress_callback w
      = Some (Raise TypeError, w') /\
    new_calls w w' = [] /\ new_exchanges w w' = [].
Proof.
  intros Hbase Hbad.
  destruct (bulk_fetch_articles_run serve site_url access_token server_key
              post_data total_limit progress_callback w base Hbase)
    as (r & w' & cs & ext & Hrun & Hc & Hl & _ & Hp).
  exists w'. rewrite Hrun, Hc, Hl.
  destruct (py_min _ _) as [api_limit|e'] eqn:Hmin.
  - destruct Hbad as [Hlim|(Hpos & Hoff)].
    + unfold py_min in Hmin. simpl in Hmin. rewrite Hlim in Hmin.
      discriminate.
    + inversion Hp as [st Hge| | |st cl off c w0 w0' st' cs' r' Hpc
                      |st cl off c w0 w0' st' Hpc|st cl off c w0 w0' e Hpc];
        subst; simpl in *.
      * lia.
      * apply api_limit_ceiling in Hmin as (a & Ha & _).
        unfold py_min in H0. rewrite Ha in H0. simpl in H0. discriminate.
      * unfold py_add_int in H1. rewrite Hoff in H1. inversion H1. auto.
      * destruct Hpc as (_ & _ & Ho & _). unfold py_add_int in Ho.
        rewrite Hoff in Ho. discriminate.
      * destruct Hpc as (_ & _ & Ho & _). unfold py_add_int in Ho.
        rewrite Hoff in Ho. discriminate.
      * destruct Hpc as (_ & _ & Ho & _). unfold py_add_int in Ho.
        rewrite Hoff in Ho. discriminate.
  - destruct Hp as (-> & ->). unfold py_min in Hmin. simpl in Hmin.
    destruct (as_int (dict_get_default base "limit" (VInt 1000)));
      [discriminate|].
    inversion Hmin. auto.
Qed.

(** X13 (filters reach every page).  Every run returns; every page payload
    has, for every key but [limit] and [offset], what the caller's payload
    has; every request is a POST to the articles endpoint whose form data
    has, for every key but [limit], [offset] and [server_key], what the
    caller's payload has. *)
Theorem bulk_fetch_articles_keeps_filters post_data total_limit
    progress_callback w base :
  heap w !! post_data = Some base ->
  exists r w',
    bulk_fetch_articles serve site_url access_token server_key post_data
                        total_limit progress_callback w = Some (r, w') /\
    Forall (fun c => exists d, call_data c = Some d /\
                     forall k, k <> "limit" -> k <> "offset" ->
                               dict_get d k = dict_get base k)
           (new_calls w w') /\
    Forall (fun x =>
              req_method (fst x) = POST /\
              req_url (fst x) = api_url site_url access_token "get-articles" /\
              exists d, req_data (fst x) = Some d /\
                        forall k, k <> "limit" -> k <> "offset" ->
                                  k <> "server_key" ->
                                  dict_get d k = dict_get base k)
           (new_exchanges w w').
Proof.
  intros Hbase.
  destruct (bulk_fetch_articles_run serve site_url access_token server_key
              post_data total_limit progress_callback w base Hbase)
    as (r & w' & cs & ext & Hrun & Hc & Hl & _ & Hp).
  exists r, w'. split; [exact Hrun|]. rewrite Hc, Hl.
  destruct (py_min _ _) as [api_limit|e] eqn:Hmin.
  - split.
    + eapply paginate_Forall; [|exact Hp].
      intros st cl off c Hpc.
      apply (page_called_filters _ _ _ _ _ _ _ _ _ _ _ Hpc).
    + apply Forall_exchanges_of.
      eapply paginate_Forall; [|exact Hp].
      intros st cl off c Hpc.
      apply (page_called_filters _ _ _ _ _ _ _ _ _ _ _ Hpc).
  - destruct Hp as (-> & _). split; constructor.
Qed.

End PaginatorMore.

(** ** The normalizer: order of the columns *)

Lemma key_order_kept_refl (d : list (string * value)) : key_order_kept d d.
Proof. split; [exists []; symmetry; apply app_nil_r|auto]. Qed.

Lemma key_order_kept_trans (d1 d2 d3 : list (string * value)) :
  key_order_kept d1 d2 -> key_order_kept d2 d3 -> key_order_kept d1 d3.
Proof.
  intros ([e1 H1] & N1) ([e2 H2] & N2). split; [|auto].
  exists (e1 ++ e2). rewrite H2, H1, app_assoc. reflexivity.
Qed.

Lemma dict_set_key_order (d : list (string * value)) k v :
  key_order_kept d (dict_set d k v).
Proof.
  split; [|apply dict_set_NoDup].
  rewrite dict_keys_set.
  destruct (dict_mem d k); [exists []; symmetry; apply app_nil_r|eauto].
Qed.

Lemma flatten_into_key_order pre (d : list (string * value)) :
  forall p, key_order_kept p (flatten_into pre d p).
Proof.
  unfold flatten_into.
  induction d as [|[k v] d IH]; intros p; simpl;
    [apply key_order_kept_refl|].
  eapply key_order_kept_trans; [apply dict_set_key_order|apply IH].
Qed.

Lemma flatten_author_key_order (au : list (string * value)) :
  forall p, key_order_kept p (flatten_author au p).
Proof.
  unfold flatten_author.
  induction au as [|[k v] au IH]; intros p; [apply key_order_kept_refl|].
  cbn [fold_left fst snd].
  destruct (String.eqb k "username" || String.eqb k "email"); [apply IH|].
  eapply key_order_kept_trans; [apply dict_set_key_order|apply IH].
Qed.

(** ** The normalizer: the values of the flattened fields *)

Lemma flatten_into_other pre (d : list (string * value)) k :
  forall p,
    ~ In k (dict_keys d) ->
    dict_get (flatten_into pre d p) (pre +:+ k) = dict_get p (pre +:+ k).
Proof.
  unfold flatten_into.
  induction d as [|[k0 v0] d IH]; intros p Hn; [reflexivity|].
  cbn [fold_left fst snd].
  rewrite IH by (intros Hi; apply Hn; right; exact Hi).
  apply dict_get_set_ne. intros E. apply append_inj_l in E.
  apply Hn. left. exact E.
Qed.

Lemma flatten_into_get pre (d : list (string * value)) k v :
  forall p,
    NoDup (dict_keys d) -> dict_get d k = Some v ->
    dict_get (flatten_into pre d p) (pre +:+ k) = Some v.
Proof.
  induction d as [|[k0 v0] d IH]; intros p Hnd Hg; [discriminate|].
  change (dict_keys ((k0, v0) :: d)) with (k0 :: dict_keys d) in Hnd.
  apply NoDup_cons in Hnd as (Hk0 & Hnd). rewrite list_elem_of_In in Hk0.
  simpl in Hg.
  change (flatten_into pre ((k0, v0) :: d) p)
    with (flatten_into pre d (dict_set p (pre +:+ k0) v0)).
  destruct (String.eqb_spec k0 k) as [->|Hne].
  - inversion Hg; subst. rewrite flatten_into_other by exact Hk0.
    apply dict_get_set_eq.
  - apply IH; assumption.
Qed.

Lemma flatten_author_other (au : list (string * value)) k :
  forall p,
    ~ In k (dict_keys au) ->
    dict_get (flatten_author au p) ("author_" +:+ k)
    = dict_get p ("author_" +:+ k).
Proof.
  unfold flatten_author.
  induction au as [|[k0 v0] au IH]; intros p Hn; [reflexivity|].
  cbn [fold_left fst snd].
  rewrite IH by (intros Hi; apply Hn; right; exact Hi).
  destruct (String.eqb k0 "username" || String.eqb k0 "email");
    [reflexivity|].
  apply dict_get_set_ne. intros E. apply append_inj_l in E.
  apply Hn. left. exact E.
Qed.

Lemma flatten_author_get (au : list (string * value)) k v :
  forall p,
    NoDup (dict_keys au) -> dict_get au k = Some v ->
    k <> "username" -> k <> "email" ->
    dict_get (flatten_author au p) ("author_" +:+ k) = Some v.
Proof.
  induction au as [|[k0 v0] au IH]; intros p Hnd Hg Hu He; [discriminate|].
  change (dict_keys ((k0, v0) :: au)) with (k0 :: dict_keys au) in Hnd.
  apply NoDup_cons in Hnd as (Hk0 & Hnd). rewrite list_elem_of_In in Hk0.
  simpl in Hg.
  destruct (String.eqb_spec k0 k) as [->|Hne].
  - inversion Hg; subst.
    unfold flatten_author. cbn [fold_left fst snd].
    apply String.eqb_neq in Hu, He. rewrite Hu, He. cbn [orb].
    pose proof (flatten_author_other au k
                  (dict_set p ("author_" +:+ k) v) Hk0) as E.
    unfold flatten_author in E. rewrite E. apply dict_get_set_eq.
  - unfold flatten_author. cbn [fold_left fst snd].
    destruct (String.eqb k0 "username" || String.eqb k0 "email");
      apply IH; assumption.
Qed.

Lemma notification_key_sides k :
  String.prefix "notification_" k = true ->
  String.prefix "details_" k = false /\
  readable_of user_date_fields k = false.
Proof.
  destruct k as [|c k]; [discriminate|].
  cbn [String.prefix]. destruct (ascii_dec "n" c) as [<-|]; [|discriminate].
  intros _. split; reflexivity.
Qed.

Lemma author_key_sides k :
  String.prefix "author_" k = true ->
  k <> "category_name" /\ k <> "category_id" /\
  readable_of article_date_fields k = false.
Proof.
  destruct k as [|c k]; [discriminate|].
  cbn [String.prefix]. destruct (ascii_dec "a" c) as [<-|]; [|discriminate].
  intros _. repeat split; try discriminate.
Qed.

Lemma for_each_length {A : Type} (f : value -> res A) :
  forall items outs,
  for_each f items = Ret outs -> length outs = length items.
Proof.
  induction items as [|x items IH]; intros outs H; simpl in H.
  - inversion H. reflexivity.
  - destruct (f x) as [o|]; [|discriminate]. simpl in H.
    destruct (for_each f items) as [os|]; [|discriminate]. simpl in H.
    inversion H. simpl. f_equal. apply IH. reflexivity.
Qed.

Lemma for_each_all {A : Type} (f : value -> res A) :
  forall items outs,
  for_each f items = Ret outs ->
  Forall (fun x => exists o, f x = Ret o) items.
Proof.
  induction items as [|x items IH]; intros outs H; simpl in H;
    [constructor|].
  destruct (f x) as [o|] eqn:Hx; [|discriminate]. simpl in H.
  destruct (for_each f items) as [os|]; [|discriminate].
  constructor; eauto.
Qed.

Lemma for_each_Forall2 {A : Type} (f : value -> res A) :
  forall items outs,
  for_each f items = Ret outs ->
  Forall2 (fun x o => f x = Ret o) items outs.
Proof.
  induction items as [|x items IH]; intros outs H; simpl in H.
  - inversion H. constructor.
  - destruct (f x) as [o|] eqn:Hx; [|discriminate]. simpl in H.
    destruct (for_each f items) as [os|]; [|discriminate]. simpl in H.
    inversion H. constructor; [exact Hx|]. apply IH. reflexivity.
Qed.

Lemma for_each_raises {A : Type} (f : value -> res A) :
  forall items x e,
  In x items -> f x = Raise e -> exists e', for_each f items = Raise e'.
Proof.
  induction items as [|y items IH]; intros x e Hin Hx; [destruct Hin|].
  simpl. destruct (f y) as [o|e0] eqn:Hy; [|eauto]. simpl.
  destruct Hin as [->|Hin]; [congruence|].
  destruct (IH x e Hin Hx) as [e' ->]. simpl. eauto.
Qed.

Lemma for_each_raise_inv {A : Type} (f : value -> res A) :
  forall items e,
  for_each f items = Raise e -> exists x, In x items /\ f x = Raise e.
Proof.
  induction items as [|y items IH]; intros e H; simpl in H; [discriminate|].
  destruct (f y) as [o|e0] eqn:Hy; simpl in H.
  - destruct (for_each f items) as [os|e1]; simpl in H; [discriminate|].
    inversion H; subst. destruct (IH e eq_refl) as (x & Hin & Hx).
    exists x. split; [right; exact Hin|exact Hx].
  - inversion H; subst. exists y. split; [left; reflexivity|exact Hy].
Qed.

Section NormalizerMore.

Variable json_loads : string -> option value.
Variable utc_offset : Z -> Z.

Lemma author_and_category_key_order (a : list (string * value)) :
  key_order_kept a (author_and_category json_loads a).
Proof.
  unfold author_and_category.
  destruct (extract_author_info json_loads _) as [u e].
  set (p2 := dict_set (dict_set a "author_username" u) "author_email" e).
  assert (H2 : key_order_kept a p2).
  { eapply key_order_kept_trans; apply dict_set_key_order. }
  set (p3 := match dict_get_default a "author" (VDict []) with
             | VDict au => flatten_author au p2
             | _ => p2
             end).
  assert (H3 : key_order_kept a p3).
  { eapply key_order_kept_trans; [exact H2|]. subst p3.
    destruct (dict_get_default a "author" (VDict []));
      try apply key_order_kept_refl.
    apply flatten_author_key_order. }
  destruct (dict_get a "category") as [[| | | | |c]|]; try exact H3.
  eapply key_order_kept_trans; [exact H3|].
  eapply key_order_kept_trans; apply dict_set_key_order.
Qed.

Lemma details_and_settings_key_order (u p : list (string * value)) :
  details_and_settings json_loads u = Ret p -> key_order_kept u p.
Proof.
  unfold details_and_settings.
  set (p1 := match dict_get u "details" with
             | Some (VDict details) => flatten_into "details_" details u
             | _ => u
             end).
  assert (H1 : key_order_kept u p1).
  { subst p1. destruct (dict_get u "details") as [[| | | | |d]|];
      try apply key_order_kept_refl.
    apply flatten_into_key_order. }
  intros H.
  destruct (dict_get u "notification_settings") as [settings|].
  - destruct (match settings with VStr s => json_loads s | v => Some v end)
      as [[| | | | |ns]|]; inversion H; subst; auto.
    eapply key_order_kept_trans; [exact H1|apply flatten_into_key_order].
  - inversion H; subst. exact H1.
Qed.

Lemma add_readable_key_order fields : forall p out,
  add_readable utc_offset fields p = Ret out -> key_order_kept p out.
Proof.
  induction fields as [|g rest IH]; intros p out H; simpl in H.
  - inversion H. apply key_order_kept_refl.
  - destruct (dict_get p g) as [v|]; [|auto].
    destruct (truthy v); [|auto].
    destruct (try! timestamp <- py_int v; fromtimestamp utc_offset timestamp)
      as [dt|e].
    + eapply key_order_kept_trans; [apply dict_set_key_order|].
      apply IH. exact H.
    + destruct (caught e); [auto|discriminate].
Qed.

(** X14 (order of the columns).  The normalized record of an article or
    of a user has the keys of the raw record first, in their order, and
    the derived keys after them; when the raw record has no key twice,
    neither has the normalized one. *)
Theorem normalizer_key_order :
  on_each_record (process_articles_data json_loads utc_offset)
                 key_order_kept /\
  on_each_user (process_users_data json_loads utc_offset)
               key_order_kept.
Proof.
  split; intros records outs i a out H Hr Ho.
  - apply (process_article_inv _ _ _ _ _ _ _ H Hr) in Ho.
    eapply key_order_kept_trans;
      [apply author_and_category_key_order
      |eapply add_readable_key_order; exact Ho].
  - destruct (process_user_inv _ _ _ _ _ _ _ H Hr Ho)
      as (p & out' & -> & Hp & Hout).
    exists out'. split; [reflexivity|].
    eapply key_order_kept_trans;
      [eapply details_and_settings_key_order; exact Hp
      |eapply add_readable_key_order; exact Hout].
Qed.

(** Lines 144-163 on an article whose author is a mapping: every field of
    the author but [username] and [email] is copied under its prefixed
    name. *)
Lemma author_and_category_flattened (a au : list (string * value)) k v :
  dict_get a "author" = Some (VDict au) -> NoDup (dict_keys au) ->
  dict_get au k = Some v -> k <> "username" -> k <> "email" ->
  dict_get (author_and_category json_loads a) ("author_" +:+ k) = Some v.
Proof.
  intros Hau Hnd Hk Hu He. unfold author_and_category, dict_get_default.
  rewrite Hau. destruct (extract_author_info json_loads _) as [u e].
  destruct (author_key_sides ("author_" +:+ k) (prefix_append _ _))
    as (Hn & Hi & _).
  destruct (dict_get a "category") as [[| | | | |c]|];
    rewrite ?dict_get_set_ne by congruence;
    apply flatten_author_get; assumption.
Qed.

(** X15 (the author's fields).  For an article whose author is a mapping,
    every field of the author other than [username] and [email] is in the
    normalized record under the name [author_<field>], with its value. *)
Theorem author_fields_flattened :
  on_each_record (process_articles_data json_loads utc_offset)
    (fun a out =>
       forall au k v,
         dict_get a "author" = Some (VDict au) -> NoDup (dict_keys au) ->
         dict_get au k = Some v -> k <> "username" -> k <> "email" ->
         dict_get out ("author_" +:+ k) = Some v).
Proof.
  intros records outs i a out H Hr Ho au k v Hau Hnd Hk Hu He.
  apply (process_article_inv _ _ _ _ _ _ _ H Hr) in Ho.
  apply add_readable_overwrites in Ho.
  destruct (author_key_sides ("author_" +:+ k) (prefix_append _ _))
    as (_ & _ & Hread).
  destruct (Ho ("author_" +:+ k)) as (_ & Hsame).
  destruct (Hsame Hread) as (-> & _).
  eapply author_and_category_flattened; eauto.
Qed.

(** Lines 144-163 on an article whose author is not a mapping: the two
    identity fields hold what [extract_author_info] returned, and no
    other key is written before the category. *)
Lemma author_and_category_not_mapping (a : list (string * value)) :
  (forall au, dict_get a "author" <> Some (VDict au)) ->
  let p := author_and_category json_loads a in
  let found :=
    extract_author_info json_loads (dict_get_default a "author" (VDict [])) in
  dict_get p "author_username" = Some (fst found) /\
  dict_get p "author_email" = Some (snd found) /\
  forall k, String.prefix "author_" k = true ->
            k <> "author_username" -> k <> "author_email" ->
            dict_get p k = dict_get a k.
Proof.
  intros Hnm. unfold author_and_category.
  destruct (extract_author_info json_loads _) as [u e]. cbn [fst snd].
  set (p2 := dict_set (dict_set a "author_username" u) "author_email" e).
  set (p3 := match dict_get_default a "author" (VDict []) with
             | VDict au => flatten_author au p2
             | _ => p2
             end).
  assert (H3 : forall k, dict_get p3 k = dict_get p2 k).
  { intros k. subst p3. unfold dict_get_default.
    destruct (dict_get a "author") as [[| | | | |au]|] eqn:Hau;
      try reflexivity.
    destruct (Hnm au eq_refl). }
  assert (H4 : forall k, k <> "category_name" -> k <> "category_id" ->
     dict_get match dict_get a "category" with
              | Some (VDict category_data) =>
                  dict_set
                    (dict_set p3 "category_name"
                       (dict_get_default category_data "name" (VStr "")))
                    "category_id" (dict_get_default category_data "id" (VStr ""))
              | _ => p3
              end k = dict_get p2 k).
  { intros k Hn Hi.
    destruct (dict_get a "category") as [[| | | | |c]|];
      rewrite ?dict_get_set_ne by congruence; apply H3. }
  split; [|split].
  - rewrite H4 by discriminate. subst p2.
    rewrite dict_get_set_ne by discriminate. apply dict_get_set_eq.
  - rewrite H4 by discriminate. subst p2. apply dict_get_set_eq.
  - intros k Hk Hu He. destruct (author_key_sides k Hk) as (Hn & Hi & _).
    rewrite H4 by assumption. subst p2.
    rewrite !dict_get_set_ne by congruence. reflexivity.
Qed.

(** X16 (an author that is not a mapping).  For an article whose author
    is missing, empty, or neither text nor a mapping, or is text that does
    not decode to a mapping, the two identity fields hold [None]; for an
    article whose author is text that decodes to a mapping, they hold the
    mapping's [username] and [email] (the empty string for a missing
    one); in both cases no other [author_...] field is written, so the
    other fields of an author given as text are not flattened. *)
Theorem author_not_a_mapping :
  on_each_record (process_articles_data json_loads utc_offset)
    (fun a out =>
       (forall au, dict_get a "author" <> Some (VDict au)) ->
       (match dict_get a "author" with
        | Some (VStr s) =>
            match json_loads s with
            | Some (VDict d) =>
                s <> "" ->
                dict_get out "author_username"
                  = Some (dict_get_default d "username" (VStr "")) /\
                dict_get out "author_email"
                  = Some (dict_get_default d "email" (VStr ""))
            | _ =>
                dict_get out "author_username" = Some VNone /\
                dict_get out "author_email" = Some VNone
            end
        | _ =>
            dict_get out "author_username" = Some VNone /\
            dict_get out "author_email" = Some VNone
        end) /\
       forall k, String.prefix "author_" k = true ->
                 k <> "author_username" -> k <> "author_email" ->
                 dict_get out k = dict_get a k).
Proof.
  intros records outs i a out H Hr Ho Hnm.
  apply (process_article_inv _ _ _ _ _ _ _ H Hr) in Ho.
  apply add_readable_overwrites in Ho.
  destruct (author_and_category_not_mapping a Hnm) as (Hu & He & Hk).
  assert (Hout : forall k, String.prefix "author_" k = true ->
            dict_get out k = dict_get (author_and_category json_loads a) k).
  { intros k Hp. destruct (author_key_sides k Hp) as (_ & _ & Hread).
    destruct (Ho k) as (_ & Hsame). destruct (Hsame Hread) as (E & _).
    exact E. }
  split.
  - rewrite !Hout by reflexivity. rewrite Hu, He.
    unfold dict_get_default, extract_author_info.
    destruct (dict_get a "author") as [[|b|n|s|xs|au]|] eqn:Hau;
      cbn [truthy fst snd]; auto.
    + destruct b; auto.
    + destruct (negb (n =? 0)); auto.
    + destruct (json_loads s) as [[| | | | |d]|];
        destruct (negb (String.eqb s "")) eqn:Hs; cbn [fst snd]; auto.
      intros Hne. apply String.eqb_neq in Hne. rewrite Hne in Hs.
      discriminate.
    + destruct xs; auto.
    + destruct (Hnm au eq_refl).
  - intros k Hp Hku Hke. rewrite Hout by exact Hp. apply Hk; assumption.
Qed.

(** Lines 144-163 on an article whose category is not a mapping: nothing
    but [author_...] keys is written. *)
Lemma author_and_category_no_category (a : list (string * value)) :
  (forall c, dict_get a "category" <> Some (VDict c)) ->
  overwrites (String.prefix "author_") a (author_and_category json_loads a).
Proof.
  intros Hnc. unfold author_and_category.
  destruct (extract_author_info json_loads _) as [u e].
  set (p2 := dict_set (dict_set a "author_username" u) "author_email" e).
  assert (H2 : overwrites (String.prefix "author_") a p2).
  { eapply overwrites_trans; apply dict_set_overwrites; reflexivity. }
  set (p3 := match dict_get_default a "author" (VDict []) with
             | VDict au => flatten_author au p2
             | _ => p2
             end).
  assert (H3 : overwrites (String.prefix "author_") a p3).
  { eapply overwrites_trans; [exact H2|]. subst p3.
    destruct (dict_get_default a "author" (VDict []));
      try apply overwrites_refl.
    apply flatten_author_overwrites. }
  destruct (dict_get a "category") as [[| | | | |c]|]; try exact H3.
  destruct (Hnc c eq_refl).
Qed.

(** X17 (the category).  For an article whose category is a mapping, the
    normalized record has [category_name] and [category_id], holding the
    mapping's [name] and [id] (the empty string for a missing one); for
    any other article the two keys are left as the raw record has
    them. *)
Theorem category_fields :
  on_each_record (process_articles_data json_loads utc_offset)
    (fun a out =>
       (forall c, dict_get a "category" = Some (VDict c) ->
          dict_get out "category_name"
            = Some (dict_get_default c "name" (VStr "")) /\
          dict_get out "category_id"
            = Some (dict_get_default c "id" (VStr ""))) /\
       ((forall c, dict_get a "category" <> Some (VDict c)) ->
          dict_get out "category_name" = dict_get a "category_name" /\
          dict_get out "category_id" = dict_get a "category_id")).
Proof.
  intros records outs i a out H Hr Ho.
  apply (process_article_inv _ _ _ _ _ _ _ H Hr) in Ho.
  apply add_readable_overwrites in Ho.
  destruct (Ho "category_name") as (_ & Hn).
  destruct (Ho "category_id") as (_ & Hi).
  destruct (Hn eq_refl) as (-> & _). destruct (Hi eq_refl) as (-> & _).
  split.
  - intros c Hc. unfold author_and_category. rewrite Hc.
    destruct (extract_author_info json_loads _) as [u e].
    rewrite dict_get_set_ne by discriminate.
    rewrite !dict_get_set_eq. auto.
  - intros Hnc.
    pose proof (author_and_category_no_category a Hnc) as Hov.
    destruct (Hov "category_name") as (_ & Hn').
    destruct (Hov "category_id") as (_ & Hi').
    destruct (Hn' eq_refl) as (-> & _). destruct (Hi' eq_refl) as (-> & _).
    auto.
Qed.

(** X18 (the details and the notification settings of a user).  For a
    user whose [details] is a mapping, every field of it is in the
    normalized record under the name [details_<field>]; for a user whose
    [notification_settings] is a mapping, or text that decodes to one,
    every setting is there under the name [notification_<setting>]. *)
Theorem user_fields_flattened :
  on_each_user (process_users_data json_loads utc_offset)
    (fun u out =>
       (forall d k v,
          dict_get u "details" = Some (VDict d) -> NoDup (dict_keys d) ->
          dict_get d k = Some v ->
          dict_get out ("details_" +:+ k) = Some v) /\
       (forall ns k v,
          dict_get u "notification_settings" = Some (VDict ns) \/
          (exists s, dict_get u "notification_settings" = Some (VStr s) /\
                     json_loads s = Some (VDict ns)) ->
          NoDup (dict_keys ns) -> dict_get ns k = Some v ->
          dict_get out ("notification_" +:+ k) = Some v)).
Proof.
  intros records outs i u out H Hr Ho.
  destruct (process_user_inv _ _ _ _ _ _ _ H Hr Ho)
      as (p & out' & -> & Hp & Hout).
    exists out'. split; [reflexivity|].
  apply add_readable_overwrites in Hout.
  split.
  - intros d k v Hd Hnd Hk.
    destruct (Hout ("details_" +:+ k)) as (_ & Hsame).
    destruct (Hsame eq_refl) as (-> & _).
    unfold details_and_settings in Hp. rewrite Hd in Hp.
    assert (H1 : dict_get (flatten_into "details_" d u) ("details_" +:+ k)
                 = Some v) by (apply flatten_into_get; assumption).
    destruct (dict_get u "notification_settings") as [settings|].
    + destruct (match settings with VStr s => json_loads s | v => Some v end)
        as [[| | | | |ns]|]; inversion Hp; subst; auto.
      destruct (flatten_into_overwrites "notification_" ns
                  (flatten_into "details_" d u) ("details_" +:+ k))
        as (_ & Hsame').
      destruct (Hsame' eq_refl) as (-> & _). exact H1.
    + inversion Hp; subst. exact H1.
  - intros ns k v Hns Hnd Hk.
    destruct (Hout ("notification_" +:+ k)) as (_ & Hsame).
    destruct (Hsame eq_refl) as (-> & _).
    unfold details_and_settings in Hp.
    destruct Hns as [Hns|(s & Hns & Hs)]; rewrite Hns in Hp;
      try rewrite Hs in Hp; inversion Hp; subst;
      apply flatten_into_get; assumption.
Qed.

Lemma details_and_settings_raise (u : list (string * value)) e :
  details_and_settings json_loads u = Raise e -> e = AttributeError.
Proof.
  unfold details_and_settings.
  destruct (dict_get u "notification_settings") as [settings|];
    [|discriminate].
  destruct (match settings with VStr s => json_loads s | v => Some v end)
    as [[| | | | |ns]|]; intros H; inversion H; reflexivity.
Qed.

Lemma add_readable_raise fields : forall p e,
  add_readable utc_offset fields p = Raise e -> caught e = false.
Proof.
  induction fields as [|g rest IH]; intros p e H; simpl in H;
    [discriminate|].
  destruct (dict_get p g) as [v|]; [|eauto].
  destruct (truthy v); [|eauto].
  destruct (try! timestamp <- py_int v; fromtimestamp utc_offset timestamp)
    as [dt|e0]; [eauto|].
  destruct (caught e0) eqn:Hc; [eauto|]. inversion H; subst. exact Hc.
Qed.

Lemma uncaught_kinds e :
  caught e = false -> e = AttributeError \/ e = OverflowError \/ e = OSError.
Proof. destruct e; intros H; try discriminate; auto. Qed.

Lemma process_article_raise x e :
  process_article json_loads utc_offset x = Raise e ->
  e = AttributeError \/ e = OverflowError \/ e = OSError.
Proof.
  destruct x as [| | | | |a]; unfold process_article; intros H;
    try (inversion H; auto; fail).
  apply uncaught_kinds. eapply add_readable_raise. exact H.
Qed.

(** A user that is a list: it goes through as it is, or some name used
    as a subscript is among its items and [TypeError] is raised. *)
Lemma process_list_user_spec xs :
  (process_list_user xs = Ret (VList xs) /\
   Forall (fun k => list_has k xs = false) subscripted_names) \/
  (process_list_user xs = Raise TypeError /\
   exists k, In k subscripted_names /\ list_has k xs = true).
Proof.
  unfold process_list_user, subscripted_names, user_date_fields.
  cbn [existsb].
  destruct (list_has "details" xs) eqn:H0;
    [right; split; [reflexivity|]; exists "details"; simpl; auto|].
  destruct (list_has "lastseen" xs) eqn:H1;
    [right; split; [reflexivity|]; exists "lastseen"; simpl; auto|].
  destruct (list_has "last_data_update" xs) eqn:H2;
    [right; split; [reflexivity|]; exists "last_data_update"; simpl; auto|].
  destruct (list_has "point_day_expire" xs) eqn:H3;
    [right; split; [reflexivity|]; exists "point_day_expire"; simpl; auto 6|].
  left. split; [reflexivity|]. repeat constructor; assumption.
Qed.

Lemma process_user_raise x e :
  process_user json_loads utc_offset x = Raise e ->
  e = AttributeError \/ e = OverflowError \/ e = OSError \/
  (e = TypeError /\
   exists xs k, x = VList xs /\ In k subscripted_names /\
                list_has k xs = true).
Proof.
  destruct x as [| | | |xs|u]; unfold process_user, res_bind; intros H;
    try (inversion H; auto; fail).
  - destruct (process_list_user_spec xs) as [(Hr & _)|(Hr & k & Hk & Hh)];
      rewrite Hr in H; inversion H; subst.
    right. right. right. split; [reflexivity|]. eauto.
  - destruct (details_and_settings json_loads u) as [p|e0] eqn:Hd.
    + destruct (add_readable utc_offset user_date_fields p) as [out|e1]
        eqn:Ha; [discriminate|].
      inversion H; subst.
      destruct (uncaught_kinds e (add_readable_raise _ _ _ Ha))
        as [->|[->| ->]]; auto.
    + inversion H; subst. left. eapply details_and_settings_raise. exact Hd.
Qed.

Lemma process_user_ret x o :
  process_user json_loads utc_offset x = Ret o ->
  (exists a out, x = VDict a /\ o = VDict out) \/
  (exists xs, x = VList xs /\ o = VList xs /\
              Forall (fun k => list_has k xs = false) subscripted_names).
Proof.
  destruct x as [| | | |xs|u]; unfold process_user, res_bind; intros H;
    try discriminate.
  - right. exists xs.
    destruct (process_list_user_spec xs) as [(Hr & Hf)|(Hr & _)];
      rewrite Hr in H; inversion H; subst. auto.
  - left. destruct (details_and_settings json_loads u) as [p|];
      [|discriminate].
    destruct (add_readable utc_offset user_date_fields p) as [out|];
      [|discriminate].
    inversion H. eauto.
Qed.

Lemma process_users_all_or_nothing :
  users_all_or_nothing (process_users_data json_loads utc_offset).
Proof.
  unfold process_users_data. split; [|split; [|split]].
  - intros records outs H. apply for_each_Forall2 in H.
    eapply Forall2_impl; [exact H|].
    intros x o Hx. apply process_user_ret. exact Hx.
  - intros records e H. apply for_each_raise_inv in H as (x & Hin & Hx).
    apply process_user_raise in Hx
      as [->|[->|[->|(-> & xs & k & -> & Hk & Hh)]]]; auto.
    right. right. right. split; [reflexivity|]. eauto.
  - intros records x Hin Hd Hl.
    eapply for_each_raises with (e := AttributeError); [exact Hin|].
    destruct x as [| | | |xs|u]; try reflexivity.
    + destruct (Hl xs eq_refl).
    + destruct (Hd u eq_refl).
  - intros records xs k Hin Hk Hh.
    eapply for_each_raises with (e := TypeError); [exact Hin|].
    unfold process_user.
    destruct (process_list_user_spec xs) as [(_ & Hf)|(Hr & _)];
      [|exact Hr].
    rewrite Forall_forall in Hf. rewrite (Hf k) in Hh; [discriminate|].
    rewrite list_elem_of_In. exact Hk.
Qed.

Lemma for_each_all_or_nothing (f : value -> res (list (string * value))) :
  (forall x o, f x = Ret o -> exists a, x = VDict a) ->
  (forall x e, f x = Raise e ->
               e = AttributeError \/ e = OverflowError \/ e = OSError) ->
  all_or_nothing (for_each f).
Proof.
  intros Hret Hraise. split; [|split].
  - intros records outs H. split; [eapply for_each_length; exact H|].
    eapply Forall_impl; [eapply for_each_all; exact H|].
    intros x [o Ho]. eapply Hret. exact Ho.
  - intros records e H. apply for_each_raise_inv in H as (x & _ & Hx).
    eapply Hraise. exact Hx.
  - intros records x Hin Hnd.
    destruct (f x) as [o|e] eqn:Hx.
    + destruct (Hret x o Hx) as [a ->]. destruct (Hnd a eq_refl).
    + eapply for_each_raises; eauto.
Qed.

(** X19 (all the records or none).  Each of the two normalizers returns
    one record per input record, or raises and returns nothing.  For the
    articles, a record that is not a mapping is enough to lose the whole
    result, and what is raised is never a [ValueError] or a [TypeError].
    The users normalizer lets a list through as it is, unless the list
    holds ["details"] or the name of a timestamp field: then it raises
    [TypeError], which it raises in no other case; a record that is
    neither a mapping nor a list loses the whole result, and what is
    raised is never a [ValueError]. *)
Theorem normalizer_all_or_nothing :
  all_or_nothing (process_articles_data json_loads utc_offset) /\
  users_all_or_nothing (process_users_data json_loads utc_offset).
Proof.
  split; [apply for_each_all_or_nothing|apply process_users_all_or_nothing].
  - intros [| | | | |a] o H; try discriminate. eauto.
  - apply process_article_raise.
Qed.

(** X20 (notification settings that are not a mapping).  Settings given
    as text that does not decode are skipped: the user is normalized and
    no [notification_...] field is written.  Settings that are neither
    text nor a mapping ([None], a number, a list), or text that decodes
    to something else than a mapping, make the normalizer raise: no user
    at all is returned. *)
Theorem notification_settings_failures :
  on_each_user (process_users_data json_loads utc_offset)
    (fun u out =>
       forall s,
         dict_get u "notification_settings" = Some (VStr s) ->
         json_loads s = None ->
         forall k, String.prefix "notification_" k = true ->
                   dict_get out k = dict_get u k) /\
  (forall records u settings,
     In (VDict u) records ->
     dict_get u "notification_settings" = Some settings ->
     match settings with
     | VStr s => exists x, json_loads s = Some x /\ forall ns, x <> VDict ns
     | VDict _ => False
     | _ => True
     end ->
     exists e, process_users_data json_loads utc_offset records = Raise e).
Proof.
  split.
  - intros records outs i u out H Hr Ho.
    destruct (process_user_inv _ _ _ _ _ _ _ H Hr Ho)
      as (p & out' & -> & Hp & Hout).
    exists out'. split; [reflexivity|]. intros s Hs Hj k Hk.
    apply add_readable_overwrites in Hout.
    destruct (notification_key_sides k Hk) as (Hd & Hread).
    destruct (Hout k) as (_ & Hsame). destruct (Hsame Hread) as (-> & _).
    unfold details_and_settings in Hp. rewrite Hs, Hj in Hp.
    inversion Hp; subst.
    destruct (dict_get u "details") as [[| | | | |d]|]; try reflexivity.
    destruct (flatten_into_overwrites "details_" d u k) as (_ & Hsame').
    destruct (Hsame' Hd) as (-> & _). reflexivity.
  - intros records u settings Hin Hs Hbad.
    unfold process_users_data.
    eapply for_each_raises with (e := AttributeError); [exact Hin|].
    unfold process_user.
    assert (Hd : details_and_settings json_loads u = Raise AttributeError).
    { unfold details_and_settings. rewrite Hs.
      destruct settings as [| | |s| |ns]; try reflexivity.
      - destruct Hbad as (x & -> & Hx).
        destruct x as [| | | | |ns]; try reflexivity.
        destruct (Hx ns eq_refl).
      - destruct Hbad. }
    rewrite Hd. reflexivity.
Qed.

(** The loop over the timestamp fields raises when one of its fields
    holds an integer that the calendar rejects with another exception
    than [ValueError]. *)
Lemma add_readable_uncaught fields f v ts e : forall p,
  In f fields -> (forall g, In g fields -> readable_key g <> f) ->
  dict_get p f = Some v -> truthy v = true -> py_int v = Ret ts ->
  fromtimestamp utc_offset ts = Raise e -> caught e = false ->
  exists e', add_readable utc_offset fields p = Raise e'.
Proof.
  intros p Hin Hside Hv Ht Hi Hft Hc. revert p Hv.
  induction fields as [|g rest IH]; intros p Hv; [destruct Hin|].
  assert (Hside' : forall g', In g' rest -> readable_key g' <> f).
  { intros g' Hg'. apply Hside. right. exact Hg'. }
  simpl. destruct (string_dec g f) as [->|Hne].
  - rewrite Hv, Ht, Hi. simpl. rewrite Hft, Hc. eauto.
  - destruct Hin as [->|Hin]; [congruence|].
    destruct (dict_get p g) as [v'|]; [|apply IH; auto].
    destruct (truthy v'); [|apply IH; auto].
    destruct (try! timestamp <- py_int v'; fromtimestamp utc_offset timestamp)
      as [dt|e0].
    + apply IH; auto. rewrite dict_get_set_ne; [exact Hv|].
      apply Hside. left. reflexivity.
    + destruct (caught e0); [apply IH; auto|eauto].
Qed.

Lemma readable_key_not_field fields f :
  (forall f', In f' fields -> readable_of fields f' = false) ->
  In f fields -> forall g, In g fields -> readable_key g <> f.
Proof.
  intros Hside Hf g Hg E. specialize (Hside f Hf).
  apply readable_of_false in Hside. apply Hside.
  rewrite <- E. apply in_map. exact Hg.
Qed.

(** X21 (a timestamp the clock cannot hold).  When a timestamp field of
    one record is a non-empty integer for which the calendar conversion
    raises something else than [ValueError] (an integer outside the
    64-bit range of the clock, or whose year does not fit the C
    calendar), the normalizer raises: the conversion is guarded against
    [ValueError] and [TypeError] only, and no record at all is
    returned. *)
Theorem timestamp_out_of_range_aborts records a f v ts e :
  In (VDict a) records ->
  dict_get a f = Some v -> truthy v = true -> py_int v = Ret ts ->
  fromtimestamp utc_offset ts = Raise e -> e <> ValueError ->
  (In f article_date_fields ->
   exists e', process_articles_data json_loads utc_offset records = Raise e') /\
  (In f user_date_fields ->
   exists e', process_users_data json_loads utc_offset records = Raise e').
Proof.
  intros Hin Hv Ht Hi Hft Hne.
  assert (Hc : caught e = false).
  { unfold fromtimestamp in Hft.
    destruct ((ts <? - 2 ^ 63) || (2 ^ 63 - 1 <? ts));
      [inversion Hft; reflexivity|].
    destruct ((dt_year (localtime utc_offset ts) - 1900 <? - 2 ^ 31)
              || (2 ^ 31 - 1 <? dt_year (localtime utc_offset ts) - 1900));
      [inversion Hft; reflexivity|].
    destruct (year_in_range (dt_year (localtime utc_offset ts))
              && year_in_range
                   (dt_year (localtime utc_offset (ts - 86400))));
      [|inversion Hft; subst; congruence].
    cbv zeta in Hft.
    destruct ((utc_offset ts - utc_offset (ts - 86400) <? 0) && _);
      [inversion Hft; subst; congruence|discriminate]. }
  split; intros Hf.
  - destruct article_fields_side as (_ & Hside & Hflat).
    destruct (Hflat f Hf) as (F1 & _).
    destruct (author_and_category_overwrites json_loads a f) as (_ & E1).
    destruct (E1 F1) as (E & _).
    destruct (add_readable_uncaught article_date_fields f v ts e
                (author_and_category json_loads a) Hf
                (readable_key_not_field _ _ Hside Hf))
      as [e' He']; try assumption; [congruence|].
    unfold process_articles_data.
    eapply for_each_raises; [exact Hin|]. exact He'.
  - destruct user_fields_side as (_ & Hside & Hflat).
    destruct (Hflat f Hf) as (F1 & _).
    unfold process_users_data.
    destruct (details_and_settings json_loads a) as [p|e0] eqn:Hd.
    + apply details_and_settings_overwrites in Hd as Hov.
      destruct (Hov f) as (_ & E1). destruct (E1 F1) as (E & _).
      destruct (add_readable_uncaught user_date_fields f v ts e p Hf
                  (readable_key_not_field _ _ Hside Hf))
        as [e' He']; try assumption; [congruence|].
      eapply for_each_raises; [exact Hin|]. unfold process_user.
      rewrite Hd. unfold res_bind. rewrite He'. reflexivity.
    + eapply for_each_raises; [exact Hin|]. unfold process_user.
      rewrite Hd. reflexivity.
Qed.

End NormalizerMore.

(** ** Export: the names of the columns *)

Lemma append_cons c s t : String c s +:+ t = String c (s +:+ t).
Proof. reflexivity. Qed.

Lemma clean_char_word c :
  is_word_char (if is_word_char c then c else "_"%char) = true.
Proof. destruct (is_word_char c) eqn:E; [exact E|reflexivity]. Qed.

Lemma clean_column_name_fixed name :
  clean_column_name name = name <-> all_word_chars name = true.
Proof.
  induction name as [|c name IH]; cbn [clean_column_name all_word_chars].
  - split; reflexivity.
  - rewrite andb_true_iff, <- IH. split.
    + intros H. inversion H as [[Hc Hn]]. rewrite Hn. split; [|exact Hn].
      destruct (is_word_char c) eqn:E; [first [exact E|reflexivity]|].
      assert (Hu : is_word_char "_" = true) by reflexivity.
      rewrite Hc in Hu. congruence.
    + intros (Hc & Hn). rewrite Hc, Hn. reflexivity.
Qed.

Lemma clean_column_name_word name :
  all_word_chars (clean_column_name name) = true.
Proof.
  induction name as [|c name IH]; cbn [clean_column_name all_word_chars];
    [reflexivity|].
  rewrite clean_char_word, IH. reflexivity.
Qed.

(** X22 (column names).  The cleaning of a column name keeps its length,
    leaves nothing but letters, digits and underscores, changes nothing
    when applied again, leaves alone exactly the names that had no other
    character, and works character by character: the cleaned name of a
    flattened field is the cleaned prefix followed by the cleaned field
    name. *)
Theorem clean_column_name_sound name rest :
  String.length (clean_column_name name) = String.length name /\
  all_word_chars (clean_column_name name) = true /\
  clean_column_name (clean_column_name name) = clean_column_name name /\
  (clean_column_name name = name <-> all_word_chars name = true) /\
  clean_column_name (name +:+ rest)
  = clean_column_name name +:+ clean_column_name rest.
Proof.
  split; [|split; [|split; [|split]]].
  - induction name as [|c name IH]; cbn [clean_column_name String.length];
      congruence.
  - apply clean_column_name_word.
  - apply clean_column_name_fixed. apply clean_column_name_word.
  - apply clean_column_name_fixed.
  - induction name as [|c name IH]; [reflexivity|].
    cbn [clean_column_name]. rewrite !append_cons.
    cbn [clean_column_name]. rewrite IH. reflexivity.
Qed.

(** ** Preview: the columns shown *)

Lemma is_in_In x l : is_in x l = true <-> In x l.
Proof.
  unfold is_in. rewrite existsb_exists. split.
  - intros (y & Hy & E). apply String.eqb_eq in E. subst. exact Hy.
  - intros H. exists x. split; [exact H|apply String.eqb_refl].
Qed.

Lemma is_in_false x l : is_in x l = false <-> ~ In x l.
Proof.
  rewrite <- is_in_In. destruct (is_in x l); split; intros H; congruence.
Qed.

Lemma py_slice_prefix {A : Type} (l : list A) n :
  0 <= n -> py_slice l 0 n = take (Z.to_nat n) l.
Proof.
  intros Hn. unfold py_slice, slice_index.
  destruct (0 <? 0) eqn:E0; [apply Z.ltb_lt in E0; lia|].
  destruct (n <? 0) eqn:E; [apply Z.ltb_lt in E; lia|].
  replace (Z.min (Z.of_nat (length l)) 0) with 0 by lia.
  rewrite Z.sub_0_r. change (drop (Z.to_nat 0) l) with l.
  destruct (Z.le_gt_cases n (Z.of_nat (length l))).
  - rewrite Z.min_r by lia. reflexivity.
  - rewrite Z.min_l by lia. rewrite Nat2Z.id.
    rewrite !take_ge by lia. reflexivity.
Qed.

(** The loop of lines 273-275 keeps the list free of repetitions, takes
    its entries from the columns, and adds at most one per candidate. *)
Lemma priority_loop_spec all_columns candidates : forall p,
  NoDup p -> (forall c, In c p -> In c all_columns) ->
  let p' :=
    fold_left
      (fun priority_columns col =>
         if is_in col all_columns && negb (is_in col priority_columns)
         then priority_columns ++ [col] else priority_columns)
      candidates p in
  NoDup p' /\ (forall c, In c p' -> In c all_columns) /\
  (length p' <= length p + length candidates)%nat /\
  exists added, p' = p ++ added.
Proof.
  induction candidates as [|col candidates IH]; intros p Hnd Hsub;
    cbn [fold_left].
  - repeat split; auto; [simpl; lia|]. exists []. symmetry. apply app_nil_r.
  - destruct (is_in col all_columns && negb (is_in col p)) eqn:E.
    + apply andb_true_iff in E as (Hin & Hnot).
      apply is_in_In in Hin. apply negb_true_iff, is_in_false in Hnot.
      destruct (IH (p ++ [col])) as (H1 & H2 & H3 & (added & H4)).
      * apply NoDup_app. repeat split; [exact Hnd| |apply NoDup_singleton].
        intros x Hx Hx'. apply list_elem_of_In in Hx, Hx'.
        destruct Hx' as [<-|[]]. contradiction.
      * intros c Hc. apply in_app_or in Hc as [Hc|[<-|[]]]; auto.
      * repeat split; auto.
        -- rewrite length_app in H3. simpl in *. lia.
        -- exists (col :: added). rewrite H4, <- app_assoc. reflexivity.
    + destruct (IH p Hnd Hsub) as (H1 & H2 & H3 & (added & H4)).
      repeat split; auto; [simpl; lia|eauto].
Qed.

Lemma priority_columns_spec all_columns :
  NoDup (priority_columns all_columns) /\
  (forall c, In c (priority_columns all_columns) -> In c all_columns) /\
  (length (priority_columns all_columns) <= 10)%nat /\
  exists others,
    priority_columns all_columns
    = (if is_in "author_username" all_columns then ["author_username"] else [])
      ++ (if is_in "author_email" all_columns then ["author_email"] else [])
      ++ others.
Proof.
  unfold priority_columns.
  set (p0 := (if is_in "author_username" all_columns
              then [] ++ ["author_username"] else [])).
  set (p1 := (if is_in "author_email" all_columns
              then p0 ++ ["author_email"] else p0)).
  assert (H1 : NoDup p1 /\ (forall c, In c p1 -> In c all_columns) /\
               (length p1 <= 2)%nat /\
               p1 = (if is_in "author_username" all_columns
                     then ["author_username"] else [])
                    ++ (if is_in "author_email" all_columns
                        then ["author_email"] else [])).
  { subst p1 p0.
    destruct (is_in "author_username" all_columns) eqn:Eu;
      destruct (is_in "author_email" all_columns) eqn:Ee;
      cbn [app length]; (split; [|split; [|split; [lia|reflexivity]]]).
    - apply (bool_decide_unpack _). vm_compute. exact I.
    - intros c [<-|[<-|[]]]; apply is_in_In; assumption.
    - apply NoDup_singleton.
    - intros c [<-|[]]; apply is_in_In; assumption.
    - apply NoDup_singleton.
    - intros c [<-|[]]; apply is_in_In; assumption.
    - apply NoDup_nil_2.
    - intros c []. }
  destruct H1 as (Hnd & Hsub & Hlen & Hp1).
  destruct (priority_loop_spec all_columns important_columns p1 Hnd Hsub)
    as (G1 & G2 & G3 & (added & G4)).
  cbv zeta in G1, G2, G3, G4.
  repeat split; auto.
  - change (length important_columns) with 8%nat in G3. lia.
  - exists added. rewrite G4, Hp1, <- app_assoc. reflexivity.
Qed.

Lemma filter_length_split {A : Type} (f : A -> bool) (l : list A) :
  (length (List.filter f l) + length (List.filter (fun x => negb (f x)) l)
   = length l)%nat.
Proof.
  induction l as [|x l IH]; simpl; [reflexivity|].
  destruct (f x); simpl; lia.
Qed.

Lemma filter_keeps_NoDup {A : Type} (f : A -> bool) (l : list A) :
  NoDup l -> NoDup (List.filter f l).
Proof.
  induction l as [|x l IH]; intros Hnd; simpl; [apply NoDup_nil_2|].
  apply NoDup_cons in Hnd as (Hx & Hnd).
  destruct (f x); [|auto].
  apply NoDup_cons. split; [|auto].
  rewrite list_elem_of_In, filter_In. rewrite list_elem_of_In in Hx. tauto.
Qed.

Lemma filter_in_bound (p l : list string) :
  NoDup l ->
  (length (List.filter (fun c => is_in c p) l) <= length p)%nat.
Proof.
  intros Hnd.
  apply submseteq_length, NoDup_submseteq.
  - apply filter_keeps_NoDup. exact Hnd.
  - intros x Hx. apply list_elem_of_In in Hx. apply filter_In in Hx as (_ & Hx).
    apply list_elem_of_In, is_in_In. exact Hx.
Qed.

(** X23 (the columns of the preview).  The columns the preview shows by
    default are columns of the table, never more than ten, and when the
    table has more than ten columns the author's identity fields come
    first; when the table has no column twice, the selection has none
    twice, and it has exactly ten entries as soon as the table has more
    than ten columns. *)
Theorem selected_columns_default all_columns :
  (forall c, In c (selected_columns all_columns) -> In c all_columns) /\
  (length (selected_columns all_columns) <= 10)%nat /\
  ((10 < length all_columns)%nat ->
   exists others,
     selected_columns all_columns
     = (if is_in "author_username" all_columns then ["author_username"] else [])
       ++ (if is_in "author_email" all_columns then ["author_email"] else [])
       ++ others) /\
  (NoDup all_columns ->
   NoDup (selected_columns all_columns) /\
   ((10 < length all_columns)%nat ->
    length (selected_columns all_columns) = 10%nat)).
Proof.
  unfold selected_columns.
  destruct (10 <? Z.of_nat (length all_columns)) eqn:E.
  2:{ apply Z.ltb_ge in E. repeat split; auto; try lia. }
  apply Z.ltb_lt in E. unfold default_columns.
  destruct (priority_columns_spec all_columns) as (Hnd & Hsub & Hlen & Hfirst).
  set (p := priority_columns all_columns) in *.
  set (remaining := List.filter (fun col => negb (is_in col p)) all_columns).
  rewrite py_slice_prefix by lia.
  assert (Hrem : forall c, In c (take (Z.to_nat (10 - Z.of_nat (length p)))
                                     remaining) ->
                           In c all_columns /\ ~ In c p).
  { intros c Hc. apply list_elem_of_In in Hc.
    apply (subseteq_take _ _ c) in Hc.
    apply list_elem_of_In in Hc. subst remaining.
    apply filter_In in Hc as (Hc & Hn).
    apply negb_true_iff, is_in_false in Hn. auto. }
  split; [|split; [|split]].
  - intros c Hc. apply in_app_or in Hc as [Hc|Hc]; [auto|].
    apply Hrem. exact Hc.
  - rewrite length_app, length_take. lia.
  - intros _. destruct Hfirst as (others & Hp). rewrite Hp.
    eexists. rewrite <- !app_assoc. reflexivity.
  - intros Hall. split.
    + apply NoDup_app. repeat split; [exact Hnd| |].
      * intros x Hx Hx'. apply list_elem_of_In in Hx, Hx'.
        apply Hrem in Hx'. tauto.
      * apply (sublist_NoDup _ remaining); [|apply sublist_take].
        apply filter_keeps_NoDup. exact Hall.
    + intros _. rewrite length_app, length_take.
      pose proof (filter_length_split (fun c => is_in c p) all_columns) as Hs.
      pose proof (filter_in_bound p all_columns Hall) as Hb.
      cbv beta in Hs. fold remaining in Hs. lia.
Qed.

(** ** The users tab: identifiers *)

Lemma has_char_lstrip c s :
  has_char c s = false -> has_char c (py_lstrip s) = false.
Proof.
  induction s as [|c' s IH]; [reflexivity|].
  cbn [py_lstrip]. destruct (is_py_space c'); [|auto].
  cbn [has_char]. intros H. apply orb_false_elim in H as (_ & H). auto.
Qed.

Lemma has_char_rstrip c s :
  has_char c s = false -> has_char c (py_rstrip s) = false.
Proof.
  induction s as [|c' s IH]; [reflexivity|].
  cbn [py_rstrip has_char]. intros H. apply orb_false_elim in H as (Hc & H).
  specialize (IH H).
  destruct (py_rstrip s) as [|c'' t].
  - destruct (is_py_space c'); [reflexivity|].
    cbn [has_char]. rewrite Hc. reflexivity.
  - cbn [has_char] in *. rewrite Hc. exact IH.
Qed.

Lemma first_char_lstrip s c :
  first_char (py_lstrip s) = Some c -> is_py_space c = false.
Proof.
  induction s as [|c' s IH]; [discriminate|].
  cbn [py_lstrip]. destruct (is_py_space c') eqn:E; [exact IH|].
  intros H. inversion H; subst. exact E.
Qed.

Lemma first_char_rstrip s c :
  first_char (py_rstrip s) = Some c -> first_char s = Some c.
Proof.
  destruct s as [|c' s]; [discriminate|].
  cbn [py_rstrip]. destruct (py_rstrip s).
  - destruct (is_py_space c'); [discriminate|auto].
  - auto.
Qed.

Lemma last_char_rstrip s c :
  last_char (py_rstrip s) = Some c -> is_py_space c = false.
Proof.
  induction s as [|c' s IH]; [discriminate|].
  cbn [py_rstrip]. destruct (py_rstrip s) as [|c'' t].
  - destruct (is_py_space c') eqn:E; [discriminate|].
    intros H. inversion H; subst. exact E.
  - intros H. apply IH. exact H.
Qed.

Lemma split_on_no_sep sep s :
  Forall (fun piece => has_char sep piece = false) (split_on sep s).
Proof.
  induction s as [|c s IH]; cbn [split_on].
  - repeat constructor.
  - destruct (Ascii.eqb c sep) eqn:E.
    + constructor; [reflexivity|exact IH].
    + destruct (split_on sep s) as [|piece rest].
      * repeat constructor. cbn [has_char]. rewrite E. reflexivity.
      * inversion IH as [|? ? Hp Hrest]; subst.
        constructor; [|exact Hrest].
        cbn [has_char]. rewrite E. exact Hp.
Qed.

Lemma py_strip_clean uid : clean_id uid -> py_strip uid = uid.
Proof.
  intros (Hne & _ & Hfirst & Hlast). unfold py_strip.
  assert (Hl : py_lstrip uid = uid).
  { destruct uid as [|c s]; [reflexivity|].
    cbn [py_lstrip]. rewrite (Hfirst c eq_refl). reflexivity. }
  rewrite Hl. clear Hl Hfirst.
  induction uid as [|c s IH]; [reflexivity|].
  cbn [py_rstrip]. destruct s as [|c' s'].
  - cbn [py_rstrip]. rewrite (Hlast c eq_refl). reflexivity.
  - rewrite IH; [reflexivity|discriminate|exact Hlast].
Qed.

(** X24 (the identifiers sent).  Whatever the user types, every
    identifier the users tab works with is not empty, has no comma, and
    has no white space at either end. *)
Theorem parse_user_ids_clean user_ids_input :
  Forall clean_id (parse_user_ids user_ids_input).
Proof.
  unfold parse_user_ids. apply Forall_map.
  apply List.Forall_forall. intros uid Hin.
  apply filter_In in Hin as (Hin & Hne).
  pose proof (split_on_no_sep "," user_ids_input) as Hsep.
  rewrite List.Forall_forall in Hsep. specialize (Hsep uid Hin).
  apply negb_true_iff, String.eqb_neq in Hne.
  split; [exact Hne|]. split; [|split].
  - apply has_char_rstrip, has_char_lstrip. exact Hsep.
  - intros c Hc. apply first_char_rstrip in Hc.
    eapply first_char_lstrip. exact Hc.
  - intros c Hc. eapply last_char_rstrip. exact Hc.
Qed.

Lemma split_on_plain sep s :
  has_char sep s = false -> split_on sep s = [s].
Proof.
  induction s as [|c s IH]; [reflexivity|].
  cbn [has_char split_on]. intros H. apply orb_false_elim in H as (Hc & H).
  rewrite Hc, (IH H). reflexivity.
Qed.

Lemma split_on_app sep s t :
  has_char sep s = false ->
  split_on sep (s +:+ String sep t) = s :: split_on sep t.
Proof.
  induction s as [|c s IH].
  - intros _. change ("" +:+ String sep t) with (String sep t).
    cbn [split_on]. rewrite Ascii.eqb_refl. reflexivity.
  - cbn [has_char]. intros H. apply orb_false_elim in H as (Hc & H).
    rewrite append_cons. cbn [split_on]. rewrite Hc, (IH H). reflexivity.
Qed.

Lemma split_on_join ids :
  ids <> [] -> Forall (fun uid => has_char "," uid = false) ids ->
  split_on "," (join "," ids) = ids.
Proof.
  induction ids as [|x ids IH]; [congruence|]. intros _ Hall.
  inversion Hall as [|? ? Hx Hrest]; subst.
  destruct ids as [|y ids].
  - cbn [join]. apply split_on_plain. exact Hx.
  - change (join "," (x :: y :: ids))
      with (x +:+ String "," (join "," (y :: ids))).
    rewrite split_on_app by exact Hx. f_equal. apply IH; [discriminate|].
    exact Hrest.
Qed.

(** X25 (identifiers, there and back).  A list of clean identifiers
    joined by commas is parsed back into the same list; so is the text
    sent for a batch when it is split at the commas: the service can
    recover exactly the identifiers of the batch. *)
Theorem parse_user_ids_join ids :
  Forall clean_id ids ->
  parse_user_ids (join "," ids) = ids /\
  (ids <> [] -> split_on "," (join "," ids) = ids).
Proof.
  intros Hall.
  assert (Hsep : Forall (fun uid => has_char "," uid = false) ids).
  { eapply Forall_impl; [exact Hall|]. intros uid (_ & H & _). exact H. }
  assert (Hstrip : map py_strip ids = ids).
  { clear Hsep. induction Hall as [|uid ids Hc _ IH]; [reflexivity|].
    cbn [map]. rewrite IH, (py_strip_clean uid Hc). reflexivity. }
  assert (Hkeep : List.filter
                    (fun uid => negb (String.eqb (py_strip uid) "")) ids
                  = ids).
  { clear Hsep Hstrip. induction Hall as [|uid ids Hc _ IH]; [reflexivity|].
    cbn [List.filter]. rewrite IH, (py_strip_clean uid Hc).
    destruct Hc as (Hne & _). apply String.eqb_neq in Hne. rewrite Hne.
    reflexivity. }
  split; [|intros Hne; apply split_on_join; assumption].
  unfold parse_user_ids. destruct ids as [|x ids]; [reflexivity|].
  rewrite split_on_join by (discriminate || assumption).
  rewrite Hkeep. exact Hstrip.
Qed.

(** ** The users tab: batches *)

Lemma ceil_div_spec n b :
  0 < b -> (ceil_div n b - 1) * b < n <= ceil_div n b * b.
Proof.
  intros Hb. unfold ceil_div. Z.div_mod_to_equations. nia.
Qed.

Lemma py_range3_steps n b :
  0 < b ->
  py_range3 0 n b
  = Some (map (fun k => Z.of_nat k * b) (seq 0 (Z.to_nat (ceil_div n b)))).
Proof.
  intros Hb. unfold py_range3.
  destruct (b =? 0) eqn:E0; [apply Z.eqb_eq in E0; lia|].
  destruct (0 <? b) eqn:E; [|apply Z.ltb_ge in E; lia].
  rewrite Z.sub_0_r. reflexivity.
Qed.

Lemma py_slice_chunk {A : Type} (l : list A) k b :
  0 < b -> (k * Z.to_nat b <= length l)%nat ->
  py_slice l (Z.of_nat k * b) (Z.of_nat k * b + b)
  = take (Z.to_nat b) (drop (k * Z.to_nat b) l).
Proof.
  intros Hb Hk. unfold py_slice, slice_index.
  assert (Hkb : Z.of_nat k * b = Z.of_nat (k * Z.to_nat b)) by nia.
  rewrite Hkb. set (i := (k * Z.to_nat b)%nat) in *.
  destruct (Z.of_nat i <? 0) eqn:E1; [apply Z.ltb_lt in E1; lia|].
  destruct (Z.of_nat i + b <? 0) eqn:E2; [apply Z.ltb_lt in E2; lia|].
  rewrite (Z.min_r (Z.of_nat (length l)) (Z.of_nat i)) by lia.
  rewrite Nat2Z.id.
  destruct (Z.le_gt_cases (Z.of_nat i + b) (Z.of_nat (length l))).
  - rewrite Z.min_r by lia. f_equal. lia.
  - rewrite Z.min_l by lia.
    rewrite !take_ge; [reflexivity| |]; rewrite length_drop; lia.
Qed.

Lemma lookup_map {A B : Type} (f : A -> B) (l : list A) :
  forall i, map f l !! i = option_map f (l !! i).
Proof.
  induction l as [|x l IH]; intros [|i]; simpl; auto.
Qed.

Lemma concat_chunks {A : Type} (l : list A) b m :
  concat (map (fun k => take b (drop (k * b) l)) (seq 0 m))
  = take (m * b) l.
Proof.
  induction m as [|m IH]; [reflexivity|].
  rewrite seq_S, map_app, concat_app, IH. cbn [map concat plus].
  rewrite app_nil_r, take_take_drop. f_equal. lia.
Qed.

(** The starts and the batches of the loop, for a positive batch size. *)
Lemma batches_steps (user_ids : list string) batch_size :
  0 < batch_size ->
  let b := Z.to_nat batch_size in
  let m := Z.to_nat (ceil_div (Z.of_nat (length user_ids)) batch_size) in
  py_range3 0 (Z.of_nat (length user_ids)) batch_size
  = Some (map (fun k => Z.of_nat k * batch_size) (seq 0 m)) /\
  batches user_ids batch_size
  = Some (map (fun k => (Z.of_nat k * batch_size,
                         take b (drop (k * b) user_ids))) (seq 0 m)) /\
  Z.of_nat m = ceil_div (Z.of_nat (length user_ids)) batch_size /\
  (length user_ids <= m * b)%nat /\
  (forall k, (k < m)%nat -> (k * b < length user_ids)%nat).
Proof.
  intros Hb b m.
  pose proof (ceil_div_spec (Z.of_nat (length user_ids)) batch_size Hb)
    as (Hlo & Hhi).
  assert (Hm : Z.of_nat m = ceil_div (Z.of_nat (length user_ids)) batch_size).
  { subst m. apply Z2Nat.id.
    destruct (Z.le_gt_cases 0
                (ceil_div (Z.of_nat (length user_ids)) batch_size));
      [lia|nia]. }
  rewrite <- Hm in Hlo, Hhi.
  assert (Hin : forall k, (k < m)%nat -> (k * b < length user_ids)%nat)
    by (intros; nia).
  split; [apply py_range3_steps; exact Hb|].
  split; [|split; [exact Hm|split; [nia|exact Hin]]].
  unfold batches. rewrite py_range3_steps by exact Hb.
  cbn [option_map]. fold m. f_equal. rewrite map_map.
  apply map_ext_in. intros k Hk. apply in_seq in Hk. f_equal.
  apply py_slice_chunk; [exact Hb|]. fold b. specialize (Hin k). lia.
Qed.

(** X26 (the batches).  For a positive batch size, the batches of the
    loop are the identifiers cut, in order, into pieces of the batch
    size: put end to end they give the identifiers back, none is empty,
    none is longer than the batch size, all but the last have exactly
    that size, and there are [ceil (n / batch_size)] of them. *)
Theorem batches_partition user_ids batch_size :
  0 < batch_size ->
  exists bs,
    batches user_ids batch_size = Some bs /\
    concat (map snd bs) = user_ids /\
    Z.of_nat (length bs)
      = ceil_div (Z.of_nat (length user_ids)) batch_size /\
    forall j start batch_ids,
      bs !! j = Some (start, batch_ids) ->
      start = Z.of_nat j * batch_size /\
      batch_ids
        = take (Z.to_nat batch_size) (drop (j * Z.to_nat batch_size) user_ids) /\
      batch_ids <> [] /\
      Z.of_nat (length batch_ids) <= batch_size /\
      (S j < length bs -> Z.of_nat (length batch_ids) = batch_size)%nat.
Proof.
  intros Hb.
  destruct (batches_steps user_ids batch_size Hb) as (_ & Hbs & Hm & Hall & Hin).
  set (b := Z.to_nat batch_size) in *.
  set (m := Z.to_nat (ceil_div (Z.of_nat (length user_ids)) batch_size)) in *.
  eexists. split; [exact Hbs|].
  rewrite !map_map. cbn [snd]. split; [|split].
  - rewrite concat_chunks. apply take_ge. exact Hall.
  - rewrite length_map, length_seq. exact Hm.
  - intros j start batch_ids Hj.
    rewrite lookup_map in Hj.
    destruct (seq 0 m !! j) as [k|] eqn:Hk; [|discriminate].
    apply lookup_seq in Hk as (-> & Hjm). cbn [option_map plus] in Hj.
    inversion Hj; subst start batch_ids. clear Hj.
    rewrite length_map, length_seq.
    pose proof (Hin j Hjm) as Hjn.
    repeat split.
    + intros E. apply (f_equal length) in E.
      rewrite length_take, length_drop in E. simpl in E. lia.
    + rewrite length_take, length_drop. lia.
    + intros Hnext. rewrite length_take, length_drop.
      pose proof (Hin (S j) Hnext) as Hsj. lia.
Qed.

(** ** The users tab: the fetch *)

Lemma Forall2_map_l {A B C : Type} (f : A -> B) (P : B -> C -> Prop) l k :
  Forall2 (fun x c => P (f x) c) l k -> Forall2 P (map f l) k.
Proof. induction 1; simpl; constructor; auto. Qed.

Lemma status_total n b :
  0 < b -> 0 <= n -> (n - 1) / b + 1 = ceil_div n b.
Proof.
  intros Hb Hn. unfold ceil_div. Z.div_mod_to_equations. nia.
Qed.

Lemma batch_users_raise result e :
  batch_users result = Raise e -> e = AttributeError \/ e = TypeError.
Proof.
  unfold batch_users. destruct (truthy result); [|discriminate].
  destruct result as [| | | | |d]; try (intros H; inversion H; auto; fail).
  destruct (eq_200 (dict_get d "api_status")); [|discriminate].
  destruct (dict_get_default d "users" (VList [])); simpl; intros H;
    inversion H; auto.
Qed.

Section UsersTabFacts.

Context {Server : Type}.
Variable serve : Server -> http_request -> send_outcome * Server.
Variables site_url access_token server_key : string.
Variable progress_accepts : progress_value -> bool.
Implicit Types w : @world Server.

Local Abbreviation called :=
  (batch_called site_url access_token server_key).

(** One pass: one call, for the batch that starts at [i]; then the users
    of its result are kept, the progress bar moves and the tab pauses, or
    the pass raises. *)
Lemma users_step_spec user_ids batch_size all i w ui out w' ui' :
  users_step serve site_url access_token server_key progress_accepts
             user_ids batch_size all i w ui = (out, w', ui') ->
  exists c,
    api_calls w' = api_calls w ++ [c] /\
    http_log w' = http_log w ++ call_exchanges c /\
    called (py_slice user_ids i (i + batch_size)) c /\
    status_texts ui'
    = status_texts ui
      ++ [batch_status (i / batch_size + 1)
                       ((Z.of_nat (length user_ids) - 1) / batch_size + 1)] /\
    let v := Fraction (i + batch_size) (Z.of_nat (length user_ids)) in
    match out with
    | inr all' =>
        all' = all ++ users_of c /\ progress_accepts v = true /\
        progress_values ui' = progress_values ui ++ [v] /\
        pauses ui' = S (pauses ui)
    | inl (Raised e) => batch_users (call_result c) = Raise e
    | inl (ProgressRejected v') => v' = v /\ progress_accepts v = false
    end.
Proof.
  unfold users_step, alloc.
  set (d := [("user_ids",
              VStr (join "," (py_slice user_ids i (i + batch_size))))]).
  set (w1 := set_heap (heap w ++ [d]) w).
  destruct (make_api_request serve site_url access_token server_key
              "get-many-users-data" (Some (length (heap w))) 3 w1)
    as [result w2] eqn:Hreq.
  apply make_api_request_spec in Hreq
    as (xs & Hlog & Hcalls & Hok & _).
  assert (Hd : deref w1 (length (heap w)) = d).
  { unfold deref. subst w1. simpl.
    rewrite lookup_app_r, Nat.sub_diag by lia. reflexivity. }
  cbn [option_map] in Hcalls, Hok. rewrite Hd in Hcalls, Hok.
  intros H.
  exists (mkCall "get-many-users-data" (Some d) xs result).
  assert (Hcommon :
    api_calls w2
      = api_calls w ++ [mkCall "get-many-users-data" (Some d) xs result] /\
    http_log w2 = http_log w ++ xs /\
    called (py_slice user_ids i (i + batch_size))
           (mkCall "get-many-users-data" (Some d) xs result)).
  { split; [exact Hcalls|]. split; [exact Hlog|].
    split; [reflexivity|]. split; [reflexivity|exact Hok]. }
  destruct Hcommon as (C1 & C2 & C3).
  unfold users_of. cbn [call_result call_exchanges].
  destruct (batch_users result) as [users|e].
  - unfold set_progress in H.
    destruct (progress_accepts
                (Fraction (i + batch_size) (Z.of_nat (length user_ids))))
      eqn:Hacc; inversion H; subst; clear H; simpl; auto 10.
  - inversion H; subst; clear H. simpl. auto 10.
Qed.

(** The loop: one call per start, in order, until the starts are
    exhausted or a pass raises. *)
Lemma users_loop_spec user_ids batch_size starts :
  forall all w ui out w' ui',
  users_loop serve site_url access_token server_key progress_accepts
             user_ids batch_size starts all w ui = (out, w', ui') ->
  exists cs,
    api_calls w' = api_calls w ++ cs /\
    http_log w' = http_log w ++ exchanges_of cs /\
    (length cs <= length starts)%nat /\
    Forall2 (fun i c => called (py_slice user_ids i (i + batch_size)) c)
            (take (length cs) starts) cs /\
    status_texts ui'
    = status_texts ui
      ++ map (fun i =>
                batch_status (i / batch_size + 1)
                  ((Z.of_nat (length user_ids) - 1) / batch_size + 1))
             (take (length cs) starts) /\
    match out with
    | inr all' =>
        length cs = length starts /\
        all' = all ++ concat (map users_of cs) /\
        Forall (fun i =>
                  progress_accepts
                    (Fraction (i + batch_size) (Z.of_nat (length user_ids)))
                  = true) starts /\
        progress_values ui'
        = progress_values ui
          ++ map (fun i =>
                    Fraction (i + batch_size) (Z.of_nat (length user_ids)))
                 starts /\
        pauses ui' = (pauses ui + length starts)%nat
    | inl (Raised e) =>
        exists c, last cs = Some c /\ batch_users (call_result c) = Raise e
    | inl (ProgressRejected v) =>
        exists i, In i starts /\
                  v = Fraction (i + batch_size) (Z.of_nat (length user_ids)) /\
                  progress_accepts v = false
    end.
Proof.
  induction starts as [|i starts IH]; intros all w ui out w' ui' H;
    cbn [users_loop] in H.
  - inversion H; subst. exists []. rewrite !app_nil_r.
    repeat split; auto; try constructor.
  - destruct (users_step serve site_url access_token server_key
                progress_accepts user_ids batch_size all i w ui)
      as [[sr w1] ui1] eqn:Hs.
    apply users_step_spec in Hs
      as (c & Hc & Hl & Hcalled & Hst & Hout).
    destruct sr as [s|all1].
    + inversion H; subst; clear H. exists [c].
      unfold exchanges_of. simpl. rewrite app_nil_r.
      split; [exact Hc|]. split; [exact Hl|]. split; [lia|].
      split; [constructor; [exact Hcalled|rewrite take_0; constructor]|].
      split; [exact Hst|].
      destruct s as [e|v].
      * exists c. auto.
      * destruct Hout as (-> & Hrej). exists i. auto.
    + destruct Hout as (Hall & Hacc & Hpv & Hp).
      apply IH in H as (cs & Hc' & Hl' & Hlen & Hf2 & Hst' & Hout').
      exists (c :: cs). rewrite exchanges_of_cons. cbn [length take map].
      split; [rewrite Hc', Hc, <- app_assoc; reflexivity|].
      split; [rewrite Hl', Hl, <- app_assoc; reflexivity|].
      split; [lia|]. split; [constructor; assumption|].
      split; [rewrite Hst', Hst, <- app_assoc; reflexivity|].
      destruct out as [[e|v]|all'].
      * destruct Hout' as (c' & Hlast & Hraise). exists c'. split; [|exact Hraise].
        destruct cs as [|c0 cs]; [discriminate|]. exact Hlast.
      * destruct Hout' as (i' & Hin & Hv & Hrej). exists i'.
        split; [right; exact Hin|auto].
      * destruct Hout' as (E1 & E2 & E3 & E4 & E5).
        split; [congruence|]. cbn [concat].
        split; [rewrite E2, Hall, <- app_assoc; reflexivity|].
        split; [constructor; assumption|].
        split; [rewrite E4, Hpv, <- app_assoc; reflexivity|].
        rewrite E5, Hp. lia.
Qed.


(** X27 (one call per batch).  When the button is pressed with a positive
    batch size, the tab calls the users endpoint once per batch, in the
    order of the batches, each time with the identifiers of the batch
    joined by commas; it stops before the last batch only when it raises;
    the status line of the call of batch [k] reads [k] of the number of
    batches. *)
Theorem users_tab_batches user_ids_input batch_size w ui out w' ui' :
  0 < batch_size ->
  users_tab serve site_url access_token server_key progress_accepts
            true user_ids_input batch_size w ui = (out, w', ui') ->
  exists bs,
    batches (parse_user_ids user_ids_input) batch_size = Some bs /\
    (length (new_calls w w') <= length bs)%nat /\
    Forall2 (fun ib c => called (snd ib) c)
            (take (length (new_calls w w')) bs) (new_calls w w') /\
    new_exchanges w w' = exchanges_of (new_calls w w') /\
    status_texts ui'
    = status_texts ui
      ++ map (fun k => batch_status (Z.of_nat k + 1) (Z.of_nat (length bs)))
             (seq 0 (length (new_calls w w'))) /\
    ((forall s, out <> Stopped s) ->
     length (new_calls w w') = length bs).
Proof.
  intros Hb Hrun. unfold users_tab in Hrun. cbn [andb] in Hrun.
  remember (parse_user_ids user_ids_input) as user_ids eqn:Hids.
  destruct (batches_steps user_ids batch_size Hb)
    as (Hrange & _ & Hm & _ & _).
  remember (Z.to_nat (ceil_div (Z.of_nat (length user_ids)) batch_size))
    as m eqn:Hmdef.
  remember (map (fun k => Z.of_nat k * batch_size) (seq 0 m))
    as starts eqn:Hstarts.
  assert (Hbs : batches user_ids batch_size
                = Some (map (fun i => (i, py_slice user_ids i
                                            (i + batch_size))) starts)).
  { unfold batches. rewrite Hrange. reflexivity. }
  assert (Hlen : length starts = m).
  { subst starts. rewrite length_map, length_seq. reflexivity. }
  eexists. split; [exact Hbs|]. rewrite length_map, Hlen.
  assert (Hquiet :
    api_calls w' = api_calls w -> http_log w' = http_log w -> ui' = ui ->
    m = O \/ (exists s, out = Stopped s) ->
    (length (new_calls w w') <= m)%nat /\
    Forall2 (fun ib c => called (snd ib) c)
      (take (length (new_calls w w'))
            (map (fun i => (i, py_slice user_ids i (i + batch_size))) starts))
      (new_calls w w') /\
    new_exchanges w w' = exchanges_of (new_calls w w') /\
    status_texts ui'
    = status_texts ui
      ++ map (fun k => batch_status (Z.of_nat k + 1) (Z.of_nat m))
             (seq 0 (length (new_calls w w'))) /\
    ((forall s, out <> Stopped s) -> length (new_calls w w') = m)).
  { intros Hc Hl -> Hwhy.
    unfold new_calls, new_exchanges. rewrite Hc, Hl, !drop_all.
    cbn [length take seq map]. rewrite app_nil_r.
    split; [lia|]. split; [constructor|]. split; [reflexivity|].
    split; [reflexivity|]. intros Hns.
    destruct Hwhy as [->|(s & ->)]; [reflexivity|].
    destruct (Hns s eq_refl). }
  assert (Hempty : user_ids = [] -> m = O).
  { intros ->. subst m. reflexivity. }
  destruct (negb (String.eqb user_ids_input "")) eqn:Hinput.
  2:{ inversion Hrun; subst w' ui' out. apply Hquiet; auto.
      left. apply Hempty. apply negb_false_iff, String.eqb_eq in Hinput.
      rewrite Hids, Hinput. reflexivity. }
  destruct user_ids as [|uid ids].
  { inversion Hrun; subst w' ui' out. apply Hquiet; auto. }
  unfold set_progress at 1 in Hrun.
  destruct (progress_accepts (Percent 0)).
  2:{ inversion Hrun; subst w' ui' out. apply Hquiet; eauto. }
  rewrite Hrange in Hrun.
  destruct (users_loop _ _ _ _ _ _ _ _ _ _ _) as [[sr w1] ui1] eqn:Hloop
    in Hrun.
  apply users_loop_spec in Hloop
    as (cs & Hc & Hl & Hle & Hf2 & Hst & Hout).
  assert (Hw : w1 = w' /\ ui1 = ui').
  { destruct sr as [s|[|u us]]; inversion Hrun; auto. }
  destruct Hw as (-> & ->).
  rewrite (new_calls_app _ _ _ Hc), (new_exchanges_app _ _ _ Hl).
  rewrite Hlen in Hle.
  split; [exact Hle|]. split; [|split; [reflexivity|split]].
  - rewrite firstn_map. apply Forall2_map_l. exact Hf2.
  - rewrite Hst. cbn [status_texts]. f_equal.
    rewrite Hstarts, <- firstn_map, map_map, firstn_map.
    change (@firstn nat) with (@take nat). rewrite take_seq.
    rewrite Nat.min_l by exact Hle.
    apply map_ext. intros k.
    rewrite Z.div_mul by lia.
    rewrite status_total by lia. rewrite Hm. reflexivity.
  - intros Hns. destruct sr as [s|all'].
    + inversion Hrun; subst. destruct (Hns _ eq_refl).
    + destruct Hout as (E & _). congruence.
Qed.

(** X28 (what the tab announces).  The users announced are those of all
    the calls made, in order: a batch whose call failed brings none and
    does not stop the fetch.  The warning that no user was found means
    that no call brought any.  Without an identifier nothing is sent and
    the error about the identifiers is shown.  An exception of the
    program's own comes from the last call made, whose payload is not a
    mapping or whose users cannot be iterated, or from a batch size of
    zero. *)
Theorem users_tab_result fetch_users_btn user_ids_input batch_size w ui
    out w' ui' :
  users_tab serve site_url access_token server_key progress_accepts
            fetch_users_btn user_ids_input batch_size w ui = (out, w', ui') ->
  match out with
  | Fetched users =>
      users = concat (map users_of (new_calls w w')) /\ users <> []
  | NoUsers =>
      concat (map users_of (new_calls w w')) = [] /\
      parse_user_ids user_ids_input <> []
  | InvalidIds =>
      parse_user_ids user_ids_input = [] /\ new_exchanges w w' = [] /\
      ui_errors w' = ui_errors w ++ ["Please enter valid user IDs"]
  | Idle => w' = w /\ ui' = ui
  | Stopped (Raised e) =>
      (e = ValueError /\ batch_size = 0 /\ new_exchanges w w' = []) \/
      ((e = AttributeError \/ e = TypeError) /\
       exists c, last (new_calls w w') = Some c /\
                 batch_users (call_result c) = Raise e)
  | Stopped (ProgressRejected v) => progress_accepts v = false
  end.
Proof.
  intros Hrun. unfold users_tab in Hrun.
  destruct (fetch_users_btn && negb (String.eqb user_ids_input "")).
  2:{ inversion Hrun; subst. auto. }
  destruct (parse_user_ids user_ids_input) as [|uid ids] eqn:Hids.
  { inversion Hrun; subst. unfold new_exchanges. simpl.
    rewrite drop_all. auto. }
  unfold set_progress at 1 in Hrun.
  destruct (progress_accepts (Percent 0)) eqn:H0.
  2:{ inversion Hrun; subst. exact H0. }
  destruct (py_range3 0 (Z.of_nat (length (uid :: ids))) batch_size)
    as [starts|] eqn:Hrange.
  2:{ inversion Hrun; subst. left.
      unfold new_exchanges. rewrite drop_all.
      unfold py_range3 in Hrange.
      destruct (batch_size =? 0) eqn:E; [|discriminate].
      apply Z.eqb_eq in E. auto. }
  destruct (users_loop _ _ _ _ _ _ _ _ _ _ _) as [[sr w1] ui1] eqn:Hloop
    in Hrun.
  apply users_loop_spec in Hloop
    as (cs & Hc & Hl & Hle & Hf2 & Hst & Hout).
  destruct sr as [[e|v]|[|u us]]; inversion Hrun; subst; clear Hrun;
    rewrite ?(new_calls_app _ _ _ Hc).
  - right. destruct Hout as (c & Hlast & Hraise).
    split; [eapply batch_users_raise; exact Hraise|eauto].
  - destruct Hout as (i & _ & _ & Hrej). exact Hrej.
  - destruct Hout as (_ & E & _). simpl in E. split; [auto|discriminate].
  - destruct Hout as (_ & E & _). simpl in E. split; [exact E|discriminate].
Qed.

(** X29 (the progress bar overshoots).  Take a progress bar that accepts
    the percentages 0 to 100 and the fractions from 0 to 1 and raises on
    any other value.  When the button is pressed with a positive batch
    size and at least one identifier, the value handed to the bar after
    the last batch is above 1 unless the batch size divides the number
    of identifiers: then the tab never gets to announce a result, whatever
    the service returned.  When the batch size divides the number of
    identifiers the bar refuses nothing. *)
Theorem users_tab_progress_overshoot user_ids_input batch_size w ui
    out w' ui' :
  (forall v, progress_accepts v = unit_interval v) ->
  0 < batch_size ->
  parse_user_ids user_ids_input <> [] ->
  users_tab serve site_url access_token server_key progress_accepts
            true user_ids_input batch_size w ui = (out, w', ui') ->
  let n := Z.of_nat (length (parse_user_ids user_ids_input)) in
  (n mod batch_size <> 0 -> exists s, out = Stopped s) /\
  (n mod batch_size = 0 -> forall v, out <> Stopped (ProgressRejected v)).
Proof.
  intros Hacc Hb Hne Hrun n. unfold users_tab in Hrun. cbn [andb] in Hrun.
  destruct (negb (String.eqb user_ids_input "")) eqn:Hinput.
  2:{ apply negb_false_iff, String.eqb_eq in Hinput. subst user_ids_input.
      destruct Hne. reflexivity. }
  subst n.
  remember (parse_user_ids user_ids_input) as user_ids eqn:Hids.
  destruct (batches_steps user_ids batch_size Hb)
    as (Hrange & _ & Hm & Hall & Hin).
  remember (Z.to_nat (ceil_div (Z.of_nat (length user_ids)) batch_size))
    as m eqn:Hmdef.
  assert (Hn : (0 < length user_ids)%nat).
  { destruct user_ids; [congruence|simpl; lia]. }
  assert (Hloop : exists sr w1 ui1,
    users_loop serve site_url access_token server_key progress_accepts
               user_ids batch_size
               (map (fun k => Z.of_nat k * batch_size) (seq 0 m)) [] w
               (mkTabUi (status_texts ui)
                        (progress_values ui ++ [Percent 0]) (pauses ui))
    = (sr, w1, ui1) /\
    match sr with
    | inl s => out = Stopped s
    | inr _ => forall s, out <> Stopped s
    end).
  { destruct user_ids as [|uid ids]; [congruence|].
    unfold set_progress at 1 in Hrun. rewrite Hacc in Hrun.
    cbn [unit_interval] in Hrun.
    change ((0 <=? 0) && (0 <=? 100)) with true in Hrun. cbv iota in Hrun.
    rewrite Hrange in Hrun.
    destruct (users_loop _ _ _ _ _ _ _ _ _ _ _) as [[sr w1] ui1]
      in Hrun |- *.
    exists sr, w1, ui1. split; [reflexivity|].
    destruct sr as [s|[|u us]]; inversion Hrun; subst; try reflexivity;
      intros s; discriminate. }
  destruct Hloop as (sr & w1 & ui1 & Hloop & Hsr).
  apply users_loop_spec in Hloop as (cs & _ & _ & _ & _ & _ & Hout).
  split.
  - intros Hmod. destruct sr as [s|all']; [eauto|].
    exfalso. destruct Hout as (_ & _ & Hok & _).
    assert (Hm1 : (m - 1 < m)%nat) by (specialize (Hin O); nia).
    rewrite List.Forall_forall in Hok.
    specialize (Hok (Z.of_nat (m - 1) * batch_size)).
    rewrite Hacc in Hok. cbn [unit_interval] in Hok.
    assert (Hlast : In (Z.of_nat (m - 1) * batch_size)
              (map (fun k => Z.of_nat k * batch_size) (seq 0 m))).
    { apply in_map_iff. exists (m - 1)%nat. split; [reflexivity|].
      apply in_seq. lia. }
    specialize (Hok Hlast). apply andb_true_iff in Hok as (_ & Hok).
    apply Z.leb_le in Hok.
    assert (Heq : Z.of_nat (length user_ids) = Z.of_nat m * batch_size)
      by nia.
    apply Hmod. rewrite Heq. apply Z.mod_mul. lia.
  - intros Hmod v Hv. destruct sr as [[e|v']|all'].
    + rewrite Hsr in Hv. discriminate.
    + rewrite Hsr in Hv. inversion Hv; subst v'. clear Hv.
      destruct Hout as (i & Hi & Hv & Hrej).
      rewrite Hacc, Hv in Hrej. cbn [unit_interval] in Hrej.
      apply in_map_iff in Hi as (k & <- & Hk). apply in_seq in Hk.
      apply Z.mod_divide in Hmod; [|lia]. destruct Hmod as [q Hq].
      assert (Hkb : Z.of_nat k * batch_size + batch_size
                    <= Z.of_nat (length user_ids)).
      { assert (Hkn : Z.of_nat k * batch_size < Z.of_nat (length user_ids)).
        { specialize (Hin k ltac:(lia)). nia. }
        assert (Hkq : Z.of_nat k < q) by nia.
        nia. }
      apply andb_false_iff in Hrej as [Hrej|Hrej];
        apply Z.leb_gt in Hrej; nia.
    + apply (Hsr _ Hv).
Qed.

End UsersTabFacts.

(** ** The further properties at work on sample runs *)

Lemma make_api_request_backoff_witness :
  exists r w',
    make_api_request scripted_serve "https://zzatem.com" "token" "key"
                     "get-articles" (Some 0%nat) 3
                     (fresh_world garbled_script bulk_payload) = (r, w') /\
    Z.of_nat (length (new_exchanges (fresh_world garbled_script bulk_payload)
                                    w')) <= Z.max 0 3 /\
    sleeps w'
    = sleeps (fresh_world garbled_script bulk_payload)
      ++ backoff_waits
           (length (new_exchanges (fresh_world garbled_script bulk_payload)
                                  w')).
Proof.
  eexists _, _. split; [vm_compute; reflexivity|].
  eapply (make_api_request_backoff scripted_serve "https://zzatem.com" "token"
           "key" "get-articles" (Some 0%nat) 3
           (fresh_world garbled_script bulk_payload) _ _).
  vm_compute. reflexivity.
Defined.

Lemma make_api_request_diagnostics_witness :
  exists r w',
    make_api_request scripted_serve "https://zzatem.com" "token" "key"
                     "get-articles" (Some 0%nat) 2
                     (fresh_world garbled_script bulk_payload) = (r, w') /\
    exists x,
      last (new_exchanges (fresh_world garbled_script bulk_payload) w')
      = Some x /\
      match classify (snd x) with
      | Returned v =>
          r = v /\
          ui_errors w' = ui_errors (fresh_world garbled_script bulk_payload)
      | RequestException msg =>
          length (new_exchanges (fresh_world garbled_script bulk_payload) w')
          = Z.to_nat 2 /\ r = VNone /\
          ui_errors w'
          = ui_errors (fresh_world garbled_script bulk_payload)
            ++ [failure_message 2 msg]
      | JSONDecodeError => False
      end.
Proof.
  eexists _, _. split; [vm_compute; reflexivity|].
  eapply (make_api_request_diagnostics scripted_serve "https://zzatem.com"
           "token" "key" "get-articles" (Some 0%nat) 2
           (fresh_world garbled_script bulk_payload) _ _).
  - lia.
  - vm_compute. reflexivity.
Defined.

Lemma make_api_request_retries_decode_failure_witness :
  exists r w',
    make_api_request scripted_serve "https://zzatem.com" "token" "key"
                     "get-articles" (Some 0%nat) 3
                     (fresh_world garbled_script bulk_payload) = (r, w') /\
    r = VDict [("api_status", VInt 200); ("articles", VList (numbered 2))] /\
    new_exchanges (fresh_world garbled_script bulk_payload) w'
      = [(expected_request "https://zzatem.com" "token" "key" "get-articles"
                           (Some bulk_payload), SendError "Read timed out")]
        ++ (expected_request "https://zzatem.com" "token" "key" "get-articles"
                             (Some bulk_payload), garbled_page)
           :: [(expected_request "https://zzatem.com" "token" "key"
                                 "get-articles" (Some bulk_payload),
                ok_page (numbered 2))] /\
    ([(expected_request "https://zzatem.com" "token" "key" "get-articles"
                        (Some bulk_payload), ok_page (numbered 2))] = [] <->
     Z.of_nat (length [(expected_request "https://zzatem.com" "token" "key"
                                         "get-articles" (Some bulk_payload),
                        SendError "Read timed out")]) = 3 - 1) /\
    ([(expected_request "https://zzatem.com" "token" "key" "get-articles"
                        (Some bulk_payload), ok_page (numbered 2))] = [] ->
     r = VNone /\
     exists msg,
       classify (snd (expected_request "https://zzatem.com" "token" "key"
                                       "get-articles" (Some bulk_payload),
                      garbled_page)) = RequestException msg /\
       ui_errors w'
       = ui_errors (fresh_world garbled_script bulk_payload)
         ++ [failure_message 3 msg]) /\
    ~ In "Invalid JSON response from API"
         (drop (length (ui_errors (fresh_world garbled_script bulk_payload)))
               (ui_errors w')).
Proof.
  eexists _, _. split; [vm_compute; reflexivity|].
  split; [vm_compute; reflexivity|].
  split; [vm_compute; reflexivity|].
  eapply (make_api_request_retries_decode_failure scripted_serve
            "https://zzatem.com" "token" "key" "get-articles" (Some 0%nat) 3
            (fresh_world garbled_script bulk_payload) _ _
            [(expected_request "https://zzatem.com" "token" "key"
                               "get-articles" (Some bulk_payload),
              SendError "Read timed out")]
            (expected_request "https://zzatem.com" "token" "key"
                              "get-articles" (Some bulk_payload),
             garbled_page)
            [(expected_request "https://zzatem.com" "token" "key"
                               "get-articles" (Some bulk_payload),
              ok_page (numbered 2))]).
  - vm_compute. reflexivity.
  - vm_compute. reflexivity.
  - vm_compute. reflexivity.
Defined.

Lemma make_api_request_no_retries_witness :
  exists r w',
    make_api_request scripted_serve "https://zzatem.com" "token" "key"
                     "get-articles" (Some 0%nat) 0
                     (fresh_world garbled_script bulk_payload) = (r, w') /\
    r = VNone /\
    new_exchanges (fresh_world garbled_script bulk_payload) w' = [] /\
    heap w' = heap (fresh_world garbled_script bulk_payload) /\
    ui_errors w' = ui_errors (fresh_world garbled_script bulk_payload) /\
    sleeps w' = sleeps (fresh_world garbled_script bulk_payload).
Proof.
  eexists _, _. split; [vm_compute; reflexivity|].
  eapply (make_api_request_no_retries scripted_serve "https://zzatem.com"
           "token" "key" "get-articles" (Some 0%nat) 0
           (fresh_world garbled_script bulk_payload) _ _).
  - lia.
  - vm_compute. reflexivity.
Defined.

Lemma make_api_request_injects_credential_witness :
  exists r w',
    make_api_request scripted_serve "https://zzatem.com" "token" "key"
                     "get-articles" (Some 0%nat) 3
                     (fresh_world garbled_script bulk_payload) = (r, w') /\
    heap w' !! 0%nat
    = Some (dict_set bulk_payload "server_key" (VStr "key")) /\
    (forall l', l' <> 0%nat ->
       heap w' !! l' = heap (fresh_world garbled_script bulk_payload) !! l') /\
    length (heap w') = length (heap (fresh_world garbled_script bulk_payload)) /\
    Forall (fun x => req_method (fst x) = POST /\
                     req_data (fst x)
                     = Some (dict_set bulk_payload "server_key" (VStr "key")))
           (new_exchanges (fresh_world garbled_script bulk_payload) w').
Proof.
  eexists _, _. split; [vm_compute; reflexivity|].
  eapply (make_api_request_injects_credential scripted_serve
           "https://zzatem.com" "token" "key" "get-articles" 0%nat 3
           (fresh_world garbled_script bulk_payload) _ _
           ("limit", VInt 1000) [("offset", VInt 0)]).
  - lia.
  - reflexivity.
  - vm_compute. reflexivity.
Defined.

Lemma make_api_request_get_witness :
  exists r w',
    make_api_request scripted_serve "https://zzatem.com" "token" "key"
                     "get-articles" None 3
                     (fresh_world garbled_script bulk_payload) = (r, w') /\
    Forall (fun x => req_method (fst x) = GET /\ req_data (fst x) = None)
           (new_exchanges (fresh_world garbled_script bulk_payload) w') /\
    heap w' = heap (fresh_world garbled_script bulk_payload).
Proof.
  eexists _, _. split; [vm_compute; reflexivity|].
  eapply (make_api_request_get scripted_serve "https://zzatem.com" "token"
           "key" "get-articles" None 3
           (fresh_world garbled_script bulk_payload) _ _).
  - left. reflexivity.
  - vm_compute. reflexivity.
Defined.

Lemma bulk_fetch_articles_returns_pages_witness :
  exists r w',
    bulk_fetch_articles echo_serve "https://zzatem.com" "token" "key" 0%nat 3
                        false (fresh_world tt pairs_payload) = Some (r, w') /\
    forall records,
      r = Ret records ->
      records = records_of (new_calls (fresh_world tt pairs_payload) w').
Proof.
  apply (bulk_fetch_articles_returns_pages echo_serve "https://zzatem.com"
           "token" "key" 0%nat 3 false (fresh_world tt pairs_payload)
           pairs_payload).
  reflexivity.
Defined.

Lemma bulk_fetch_articles_early_stop_witness :
  exists r w',
    bulk_fetch_articles scripted_serve "https://zzatem.com" "token" "key"
                        0%nat 10 false
                        (fresh_world failing_script pairs_payload)
    = Some (r, w') /\
    forall records,
      r = Ret records -> Z.of_nat (length records) < 10 ->
      exists pre c,
        new_calls (fresh_world failing_script pairs_payload) w' = pre ++ [c] /\
        (page_failed (call_result c) = true \/
         exists lim, call_limit c = Some lim /\
                     short_batch lim (call_result c) = true).
Proof.
  apply (bulk_fetch_articles_early_stop scripted_serve "https://zzatem.com"
           "token" "key" 0%nat 10 false
           (fresh_world failing_script pairs_payload) pairs_payload).
  reflexivity.
Defined.

Lemma bulk_fetch_articles_bounded_witness :
  exists r w',
    bulk_fetch_articles echo_serve "https://zzatem.com" "token" "key" 0%nat 3
                        false (fresh_world tt pairs_payload) = Some (r, w') /\
    (Forall (fun c => forall lim, call_limit c = Some lim ->
               Z.of_nat (length (page_items (call_result c))) <= lim)
            (new_calls (fresh_world tt pairs_payload) w') ->
     forall records,
       r = Ret records -> Z.of_nat (length records) <= Z.max 0 3).
Proof.
  apply (bulk_fetch_articles_bounded echo_serve "https://zzatem.com" "token"
           "key" 0%nat 3 false (fresh_world tt pairs_payload) pairs_payload).
  reflexivity.
Defined.

Lemma bulk_fetch_articles_not_mapping_witness :
  exists r w',
    bulk_fetch_articles echo_serve "https://zzatem.com" "token" "key" 0%nat 3
                        false (fresh_world tt pairs_payload) = Some (r, w') /\
    forall pre c post,
      new_calls (fresh_world tt pairs_payload) w' = pre ++ c :: post ->
      truthy (call_result c) = true ->
      (forall d, call_result c <> VDict d) ->
      post = [] /\ r = Raise AttributeError.
Proof.
  apply (bulk_fetch_articles_not_mapping echo_serve "https://zzatem.com"
           "token" "key" 0%nat 3 false (fresh_world tt pairs_payload)
           pairs_payload).
  reflexivity.
Defined.

Lemma bulk_fetch_articles_raises_witness :
  exists r w',
    bulk_fetch_articles echo_serve "https://zzatem.com" "token" "key" 0%nat 3
                        false (fresh_world tt text_limit_payload)
    = Some (r, w') /\
    forall e,
      r = Raise e ->
      (e = AttributeError /\
       exists pre c,
         new_calls (fresh_world tt text_limit_payload) w' = pre ++ [c] /\
         truthy (call_result c) = true /\
         forall d, call_result c <> VDict d) \/
      (e = TypeError /\
       (as_int (dict_get_default text_limit_payload "limit" (VInt 1000)) = None \/
        as_int (dict_get_default text_limit_payload "offset" (VInt 0)) = None \/
        exists pre c b,
          new_calls (fresh_world tt text_limit_payload) w' = pre ++ [c] /\
          page_batch (call_result c) = Some b /\
          truthy b = true /\ py_iter b = Raise TypeError)).
Proof.
  apply (bulk_fetch_articles_raises echo_serve "https://zzatem.com" "token"
           "key" 0%nat 3 false (fresh_world tt text_limit_payload)
           text_limit_payload).
  reflexivity.
Defined.

Lemma bulk_fetch_articles_bad_paging_witness :
  exists w',
    bulk_fetch_articles echo_serve "https://zzatem.com" "token" "key" 0%nat 3
                        false (fresh_world tt text_limit_payload)
    = Some (Raise TypeError, w') /\
    new_calls (fresh_world tt text_limit_payload) w' = [] /\
    new_exchanges (fresh_world tt text_limit_payload) w' = [].
Proof.
  apply (bulk_fetch_articles_bad_paging echo_serve "https://zzatem.com"
           "token" "key" 0%nat 3 false (fresh_world tt text_limit_payload)
           text_limit_payload).
  - reflexivity.
  - left. reflexivity.
Defined.

Lemma bulk_fetch_articles_keeps_filters_witness :
  exists r w',
    bulk_fetch_articles echo_serve "https://zzatem.com" "token" "key" 0%nat 3
                        false (fresh_world tt pairs_payload) = Some (r, w') /\
    Forall (fun c => exists d, call_data c = Some d /\
                     forall k, k <> "limit" -> k <> "offset" ->
                               dict_get d k = dict_get pairs_payload k)
           (new_calls (fresh_world tt pairs_payload) w') /\
    Forall (fun x =>
              req_method (fst x) = POST /\
              req_url (fst x)
              = api_url "https://zzatem.com" "token" "get-articles" /\
              exists d, req_data (fst x) = Some d /\
                        forall k, k <> "limit" -> k <> "offset" ->
                                  k <> "server_key" ->
                                  dict_get d k = dict_get pairs_payload k)
           (new_exchanges (fresh_world tt pairs_payload) w').
Proof.
  apply (bulk_fetch_articles_keeps_filters echo_serve "https://zzatem.com"
           "token" "key" 0%nat 3 false (fresh_world tt pairs_payload)
           pairs_payload).
  reflexivity.
Defined.

Lemma normalizer_key_order_witness :
  exists out,
    process_articles_data no_json utc [VDict sample_article] = Ret [out] /\
    key_order_kept sample_article out.
Proof.
  eexists. split; [vm_compute; reflexivity|].
  destruct (normalizer_key_order no_json utc) as (Ha & _).
  eapply (Ha [VDict sample_article] _ 0%nat).
  - vm_compute. reflexivity.
  - reflexivity.
  - reflexivity.
Defined.

Lemma author_fields_flattened_witness :
  exists out,
    process_articles_data no_json utc [VDict sample_article] = Ret [out] /\
    dict_get out ("author_" +:+ "id") = Some (VInt 7).
Proof.
  eexists. split; [vm_compute; reflexivity|].
  pose proof (author_fields_flattened no_json utc) as Ha.
  unfold on_each_record in Ha.
  eapply Ha with (records := [VDict sample_article]) (i := 0%nat)
                 (a := sample_article)
                 (au := [("username", VStr "bob");
                         ("email", VStr "bob@example.org"); ("id", VInt 7)]).
  - vm_compute. reflexivity.
  - reflexivity.
  - reflexivity.
  - reflexivity.
  - apply (bool_decide_unpack _). vm_compute. exact I.
  - reflexivity.
  - discriminate.
  - discriminate.
Defined.

Lemma author_not_a_mapping_witness :
  exists out,
    process_articles_data author_json utc [VDict text_author_article]
    = Ret [out] /\
    (eve_json <> "" ->
     dict_get out "author_username" = Some (VStr "eve") /\
     dict_get out "author_email" = Some (VStr "")) /\
    forall k, String.prefix "author_" k = true ->
              k <> "author_username" -> k <> "author_email" ->
              dict_get out k = dict_get text_author_article k.
Proof.
  eexists. split; [vm_compute; reflexivity|].
  pose proof (author_not_a_mapping author_json utc) as Ha.
  unfold on_each_record in Ha.
  eapply (Ha [VDict text_author_article] _ 0%nat text_author_article).
  - vm_compute. reflexivity.
  - reflexivity.
  - reflexivity.
  - intros au. discriminate.
Defined.

Lemma category_fields_witness :
  exists out,
    process_articles_data no_json utc [VDict sample_article] = Ret [out] /\
    (forall c, dict_get sample_article "category" = Some (VDict c) ->
       dict_get out "category_name"
         = Some (dict_get_default c "name" (VStr "")) /\
       dict_get out "category_id"
         = Some (dict_get_default c "id" (VStr ""))) /\
    ((forall c, dict_get sample_article "category" <> Some (VDict c)) ->
       dict_get out "category_name" = dict_get sample_article "category_name" /\
       dict_get out "category_id" = dict_get sample_article "category_id").
Proof.
  eexists. split; [vm_compute; reflexivity|].
  pose proof (category_fields no_json utc) as Ha.
  eapply (Ha [VDict sample_article] _ 0%nat sample_article).
  - vm_compute. reflexivity.
  - reflexivity.
  - reflexivity.
Defined.

Lemma user_fields_flattened_witness :
  exists out,
    process_users_data no_json utc [VDict settings_user] = Ret [VDict out] /\
    dict_get out ("details_" +:+ "post_count") = Some (VStr "12") /\
    dict_get out ("notification_" +:+ "e_liked") = Some (VInt 1).
Proof.
  pose proof (user_fields_flattened no_json utc) as Hu.
  unfold on_each_user in Hu.
  destruct (Hu [VDict settings_user] _ 0%nat settings_user _
               ltac:(vm_compute; reflexivity) eq_refl eq_refl)
    as (out & Ho & Hd & Hn).
  exists out. split; [rewrite <- Ho; vm_compute; reflexivity|].
  split.
  - apply (Hd [("post_count", VStr "12")]).
    + reflexivity.
    + apply (bool_decide_unpack _). vm_compute. exact I.
    + reflexivity.
  - apply (Hn [("e_liked", VInt 1)]).
    + left. reflexivity.
    + apply (bool_decide_unpack _). vm_compute. exact I.
    + reflexivity.
Defined.

Lemma normalizer_all_or_nothing_witness :
  (exists e,
     process_articles_data no_json utc [VDict sample_article; list_user]
     = Raise e) /\
  (exists e,
     process_users_data no_json utc [VDict sample_user; VStr "deleted"]
     = Raise e) /\
  (exists e,
     process_users_data no_json utc [VDict sample_user; named_list_user]
     = Raise e) /\
  process_users_data no_json utc [VDict []; list_user]
  = Ret [VDict []; list_user].
Proof.
  destruct (normalizer_all_or_nothing no_json utc)
    as ((_ & _ & Ha) & (_ & _ & Hu & Hl)).
  split; [|split; [|split]].
  - apply (Ha [VDict sample_article; list_user] list_user).
    + right. left. reflexivity.
    + intros a. discriminate.
  - apply (Hu [VDict sample_user; VStr "deleted"] (VStr "deleted")).
    + right. left. reflexivity.
    + intros a. discriminate.
    + intros xs. discriminate.
  - apply (Hl [VDict sample_user; named_list_user]
              [VStr "user_id"; VStr "lastseen"] "lastseen").
    + right. left. reflexivity.
    + right. left. reflexivity.
    + reflexivity.
  - vm_compute. reflexivity.
Defined.

Lemma notification_settings_failures_witness :
  (exists out,
     process_users_data no_json utc [VDict garbled_settings_user]
     = Ret [VDict out] /\
     forall k, String.prefix "notification_" k = true ->
               dict_get out k = dict_get garbled_settings_user k) /\
  (exists e,
     process_users_data no_json utc [VDict sample_user; VDict null_settings_user]
     = Raise e).
Proof.
  destruct (notification_settings_failures no_json utc) as (Hskip & Habort).
  split.
  - unfold on_each_user in Hskip.
    destruct (Hskip [VDict garbled_settings_user] _ 0%nat
                    garbled_settings_user _
                    ltac:(vm_compute; reflexivity) eq_refl eq_refl)
      as (out & Ho & Hout).
    exists out. split; [rewrite <- Ho; vm_compute; reflexivity|].
    intros k Hk. eapply Hout.
    + reflexivity.
    + reflexivity.
    + exact Hk.
  - apply (Habort [VDict sample_user; VDict null_settings_user]
                  null_settings_user VNone).
    + right. left. reflexivity.
    + reflexivity.
    + exact I.
Defined.

Lemma timestamp_out_of_range_aborts_witness :
  (In "time" article_date_fields ->
   exists e',
     process_articles_data no_json utc [VDict far_future_article] = Raise e') /\
  (In "time" user_date_fields ->
   exists e',
     process_users_data no_json utc [VDict far_future_article] = Raise e').
Proof.
  apply (timestamp_out_of_range_aborts no_json utc [VDict far_future_article]
           far_future_article "time" (VInt (2 ^ 63)) (2 ^ 63) OverflowError).
  - left. reflexivity.
  - reflexivity.
  - reflexivity.
  - reflexivity.
  - vm_compute. reflexivity.
  - discriminate.
Defined.

Lemma selected_columns_default_witness :
  NoDup (selected_columns article_columns) /\
  ((10 < length article_columns)%nat ->
   length (selected_columns article_columns) = 10%nat).
Proof.
  destruct (selected_columns_default article_columns) as (_ & _ & _ & H).
  apply H. apply (bool_decide_unpack _). vm_compute. exact I.
Defined.

Lemma parse_user_ids_join_witness :
  parse_user_ids (join "," ["1"; "22"; "3"]) = ["1"; "22"; "3"] /\
  (["1"; "22"; "3"] <> [] ->
   split_on "," (join "," ["1"; "22"; "3"]) = ["1"; "22"; "3"]).
Proof.
  apply (parse_user_ids_join ["1"; "22"; "3"]).
  repeat constructor; try discriminate;
    intros c Hc; inversion Hc; reflexivity.
Defined.

Lemma batches_partition_witness :
  exists bs,
    batches ["1"; "22"; "3"] 2 = Some bs /\
    concat (map snd bs) = ["1"; "22"; "3"] /\
    Z.of_nat (length bs) = ceil_div (Z.of_nat (length ["1"; "22"; "3"])) 2 /\
    forall j start batch_ids,
      bs !! j = Some (start, batch_ids) ->
      start = Z.of_nat j * 2 /\
      batch_ids = take (Z.to_nat 2) (drop (j * Z.to_nat 2) ["1"; "22"; "3"]) /\
      batch_ids <> [] /\
      Z.of_nat (length batch_ids) <= 2 /\
      ((S j < length bs)%nat -> Z.of_nat (length batch_ids) = 2).
Proof.
  apply (batches_partition ["1"; "22"; "3"] 2). lia.
Defined.

Lemma users_tab_batches_witness :
  exists out w' ui',
    users_tab users_serve "https://zzatem.com" "token" "key" unit_interval
              true "1, 2,7 ,3" 2 (empty_world tt) blank_ui = (out, w', ui') /\
    exists bs,
    batches (parse_user_ids "1, 2,7 ,3") 2 = Some bs /\
    (length (new_calls (empty_world tt) w') <= length bs)%nat /\
    Forall2 (fun ib c =>
               batch_called "https://zzatem.com" "token" "key" (snd ib) c)
            (take (length (new_calls (empty_world tt) w')) bs)
            (new_calls (empty_world tt) w') /\
    new_exchanges (empty_world tt) w'
    = exchanges_of (new_calls (empty_world tt) w') /\
    status_texts ui'
    = status_texts blank_ui
      ++ map (fun k => batch_status (Z.of_nat k + 1) (Z.of_nat (length bs)))
             (seq 0 (length (new_calls (empty_world tt) w'))) /\
    ((forall s, out <> Stopped s) ->
     length (new_calls (empty_world tt) w') = length bs).
Proof.
  eexists _, _, _. split; [vm_compute; reflexivity|].
  eapply (users_tab_batches users_serve "https://zzatem.com" "token" "key"
            unit_interval "1, 2,7 ,3" 2 (empty_world tt) blank_ui).
  - lia.
  - vm_compute. reflexivity.
Defined.

Lemma users_tab_result_witness :
  exists out w' ui',
    users_tab users_serve "https://zzatem.com" "token" "key" unit_interval
              true "1, 2,7 ,3" 2 (empty_world tt) blank_ui = (out, w', ui') /\
    out = Fetched (concat (map users_of (new_calls (empty_world tt) w'))).
Proof.
  eexists _, _, _. split; [vm_compute; reflexivity|].
  pose proof (users_tab_result users_serve "https://zzatem.com" "token" "key"
                unit_interval true "1, 2,7 ,3" 2 (empty_world tt) blank_ui
                _ _ _ ltac:(vm_compute; reflexivity)) as H.
  cbv iota in H. destruct H as (H & _). apply (f_equal Fetched H).
Defined.

Lemma users_tab_progress_overshoot_witness :
  exists out w' ui',
    users_tab users_serve "https://zzatem.com" "token" "key" unit_interval
              true "1, 2,3" 2 (empty_world tt) blank_ui = (out, w', ui') /\
    (Z.of_nat (length (parse_user_ids "1, 2,3")) mod 2 <> 0 ->
     exists s, out = Stopped s) /\
    (Z.of_nat (length (parse_user_ids "1, 2,3")) mod 2 = 0 ->
     forall v, out <> Stopped (ProgressRejected v)).
Proof.
  eexists _, _, _. split; [vm_compute; reflexivity|].
  eapply (users_tab_progress_overshoot users_serve "https://zzatem.com"
            "token" "key" unit_interval "1, 2,3" 2 (empty_world tt) blank_ui).
  - reflexivity.
  - lia.
  - vm_compute. discriminate.
  - vm_compute. reflexivity.
Defined.

(** ** The articles tab *)

Lemma articles_payload_limit f target_limit offset :
  dict_get (articles_payload f target_limit offset) "limit"
  = Some (VInt (Z.min 1000 target_limit)).
Proof.
  unfold articles_payload.
  destruct (0 <? form_user_id f), (0 <? form_category_id f),
    (0 <? form_article_id f);
    rewrite ?dict_get_set_ne by discriminate; reflexivity.
Qed.

Lemma announce_articles_frame {Server : Type} ok articles_data
    (w : @world Server) out w' :
  announce_articles ok articles_data w = (out, w') ->
  api_calls w' = api_calls w /\ http_log w' = http_log w /\
  (out = ArticlesFetched articles_data /\ ok = true /\
   truthy articles_data = true \/
   out = NoArticles /\ ok = true /\ truthy articles_data = false \/
   out = ArticlesFailed /\ ok = false \/
   out = ArticlesStopped (Raised TypeError) /\
   py_len articles_data = Raise TypeError).
Proof.
  unfold announce_articles.
  destruct ok;
    [destruct (truthy articles_data) eqn:E;
     [destruct articles_data; simpl in *|]|];
    intros H; inversion H; subst; simpl; auto 10.
Qed.

Section ArticlesTabFacts.

Context {Server : Type}.
Variable serve : Server -> http_request -> send_outcome * Server.
Variables site_url access_token server_key : string.
Variable progress_accepts : progress_value -> bool.
Implicit Types w : @world Server.

(** X30 (the articles tab).  The tab always comes to an end, and no
    request it sends asks for more than 1000 articles.  A bulk export of
    more than 1000 articles makes at most [ceil (size / 1000)] calls;
    when it announces articles, they are the records of all its pages, in
    order; when it fetched none, it shows the error about the
    configuration, never the warning that no article was found.  Any
    other fetch, a bulk export of 1000 articles included, makes at most
    one call and leaves the progress display alone. *)
Theorem articles_tab_run f w ui :
  exists out w' ui',
    articles_tab serve site_url access_token server_key progress_accepts
                 f w ui = Some (out, w', ui') /\
    Forall (fun x => limit_at_most 1000 (req_data (fst x)))
           (new_exchanges w w') /\
    (bulk_export_btn f && (1000 <? bulk_export_limit f) = true ->
     Z.of_nat (length (new_calls w w'))
       <= ceil_div (bulk_export_limit f) 1000 /\
     out <> NoArticles /\
     forall articles_data,
       out = ArticlesFetched articles_data ->
       articles_data = VList (records_of (new_calls w w')) /\
       records_of (new_calls w w') <> []) /\
    (bulk_export_btn f && (1000 <? bulk_export_limit f) = false ->
     (length (new_calls w w') <= 1)%nat /\ ui' = ui).
Proof.
  unfold articles_tab.
  destruct (quick_actions f) as [[limit offset] fetch].
  destruct (fetch || bulk_export_btn f) eqn:Hgo.
  2:{ exists ArticlesIdle, w, ui. split; [reflexivity|].
      unfold new_exchanges, new_calls. rewrite !drop_all.
      apply orb_false_elim in Hgo as (_ & Hb). rewrite Hb.
      split; [constructor|]. split; [discriminate|]. simpl. auto. }
  set (target := if bulk_export_btn f then bulk_export_limit f else limit).
  unfold alloc.
  set (base := articles_payload f target offset).
  set (w1 := set_heap (heap w ++ [base]) w).
  assert (Hbase : heap w1 !! length (heap w) = Some base).
  { subst w1. simpl. rewrite lookup_app_r, Nat.sub_diag by lia.
    reflexivity. }
  assert (Hlim : dict_get base "limit" = Some (VInt (Z.min 1000 target)))
    by apply articles_payload_limit.
  destruct (bulk_export_btn f && (1000 <? target)) eqn:Hbulk.
  - (* the paginator *)
    apply andb_true_iff in Hbulk as (Hbtn & Hbig).
    subst target. rewrite Hbtn in *. cbn [andb].
    rewrite Hbig. apply Z.ltb_lt in Hbig.
    set (target := bulk_export_limit f) in *.
    pose proof (ceil_div_spec target 1000 ltac:(lia)) as (_ & Hceil).
    unfold set_progress at 1.
    destruct (progress_accepts (Percent 0)).
    2:{ eexists _, _, _. split; [reflexivity|].
        unfold new_exchanges, new_calls. simpl. rewrite !drop_all.
        split; [constructor|]. split; [|discriminate]. intros _.
        split; [simpl; lia|]. split; discriminate. }
    destruct (bulk_fetch_articles_run serve site_url access_token server_key
                (length (heap w)) target true w1 base Hbase)
      as (r & w2 & cs & ext & Hrun & Hc & Hl & _ & Hp).
    rewrite Hrun.
    change (new_calls w1 w2) with (new_calls w w2) in Hc.
    change (new_exchanges w1 w2) with (new_exchanges w w2) in Hl.
    unfold dict_get_default in Hp. rewrite Hlim in Hp.
    rewrite Z.min_l in Hp by lia.
    change (py_min (VInt 1000) (VInt 1000)) with (Ret (VInt 1000)) in Hp.
    assert (Hcount : Z.of_nat (length cs) <= ceil_div target 1000).
    { apply (paginate_length_ceiling _ _ _ _ _ _ _ _ _ _ eq_refl) in Hp.
      simpl in Hp. rewrite Z.sub_0_r in Hp. lia. }
    assert (Hlimits : Forall (fun x => limit_at_most 1000 (req_data (fst x)))
                             (exchanges_of cs)).
    { eapply paginate_limits; [exact Hp|reflexivity|lia]. }
    assert (Hframe : forall w3 : @world Server,
              api_calls w3 = api_calls w2 -> http_log w3 = http_log w2 ->
              new_calls w w3 = cs /\ new_exchanges w w3 = exchanges_of cs).
    { intros w3 E1 E2. unfold new_calls, new_exchanges in *.
      rewrite E1, E2. auto. }
    destruct r as [articles|e].
    2:{ eexists _, _, _. split; [reflexivity|].
        destruct (Hframe w2 eq_refl eq_refl) as (-> & ->).
        split; [exact Hlimits|]. split; [|discriminate]. intros _.
        split; [exact Hcount|]. split; discriminate. }
    pose proof (paginate_records _ _ _ _ _ _ _ _ _ _ _ Hp eq_refl) as Hrec.
    simpl in Hrec.
    unfold set_progress.
    destruct (progress_accepts (Fraction 1 1)).
    2:{ eexists _, _, _. split; [reflexivity|].
        destruct (Hframe w2 eq_refl eq_refl) as (-> & ->).
        split; [exact Hlimits|]. split; [|discriminate]. intros _.
        split; [exact Hcount|]. split; discriminate. }
    destruct (announce_articles _ _ w2) as [out w3] eqn:Hann.
    apply announce_articles_frame in Hann as (E1 & E2 & Hout).
    eexists _, _, _. split; [reflexivity|].
    destruct (Hframe w3 E1 E2) as (-> & ->).
    split; [exact Hlimits|]. split; [|discriminate]. intros _.
    split; [exact Hcount|].
    destruct Hout as [(-> & _ & Ht)|[(-> & Hok & Ht)|[(-> & _)|(-> & _)]]].
    + split; [discriminate|]. intros a Ha. inversion Ha; subst a.
      rewrite <- Hrec. split; [reflexivity|].
      intros ->. discriminate.
    + exfalso. destruct articles; simpl in Hok, Ht; discriminate.
    + split; discriminate.
    + split; discriminate.
  - (* one request *)
    assert (Hcond : bulk_export_btn f && (1000 <? bulk_export_limit f) = false).
    { destruct (bulk_export_btn f); [exact Hbulk|reflexivity]. }
    rewrite Hcond.
    destruct (make_api_request serve site_url access_token server_key
                "get-articles" (Some (length (heap w))) 3 w1)
      as [result w2] eqn:Hreq.
    apply make_api_request_spec in Hreq
      as (xs & Hlog & Hcalls & (Hall & _) & _).
    assert (Hd : deref w1 (length (heap w)) = base).
    { apply deref_lookup. exact Hbase. }
    cbn [option_map] in Hcalls, Hall. rewrite Hd in Hcalls, Hall.
    assert (Hlimits : Forall (fun x => limit_at_most 1000 (req_data (fst x)))
                             xs).
    { eapply Forall_impl; [exact Hall|]. intros x Hx. cbv beta in Hx.
      rewrite Hx. unfold expected_request.
      destruct base as [|kv d] eqn:Eb; [discriminate|].
      cbn [req_data]. unfold limit_at_most. eexists _, _.
      split; [reflexivity|]. unfold request_limit.
      rewrite dict_get_set_ne by discriminate. rewrite Hlim.
      split; [reflexivity|]. lia. }
    assert (Hframe : forall w3 : @world Server,
              api_calls w3 = api_calls w2 -> http_log w3 = http_log w2 ->
              Forall (fun x => limit_at_most 1000 (req_data (fst x)))
                     (new_exchanges w w3) /\
              (length (new_calls w w3) <= 1)%nat).
    { intros w3 E1 E2. unfold new_calls, new_exchanges.
      rewrite E1, E2, Hcalls, Hlog. simpl.
      rewrite !drop_app_length. split; [exact Hlimits|simpl; lia]. }
    destruct (single_articles result) as [articles_data|e].
    + destruct (announce_articles _ _ w2) as [out w3] eqn:Hann.
      apply announce_articles_frame in Hann as (E1 & E2 & _).
      eexists _, _, _. split; [reflexivity|].
      destruct (Hframe w3 E1 E2) as (H1 & H2).
      split; [exact H1|]. split; [discriminate|]. auto.
    + eexists _, _, _. split; [reflexivity|].
      destruct (Hframe w2 eq_refl eq_refl) as (H1 & H2).
      split; [exact H1|]. split; [discriminate|]. auto.
Qed.

End ArticlesTabFacts.

Example bulk_form_run :
  exists w' ui',
    articles_tab echo_serve "https://zzatem.com" "token" "key" unit_interval
                 bulk_form (empty_world tt) blank_ui
    = Some (ArticlesFetched (VList (numbered 2500)), w', ui') /\
    length (api_calls w') = 3%nat /\
    progress_values ui'
    = [Percent 0; Percent 0; Percent 0; Percent 0; Fraction 1 1].
Proof. eexists _, _. vm_compute. repeat split; reflexivity. Qed.

(** A single fetch answered by a count: the success message asks for the
    length of a number, and the tab stops there. *)
Example count_page_run :
  exists w',
    articles_tab scripted_serve "https://zzatem.com" "token" "key"
                 unit_interval fetch_form (empty_world [count_page]) blank_ui
    = Some (ArticlesStopped (Raised TypeError), w', blank_ui) /\
    length (http_log w') = 1%nat /\ ui_errors w' = [].
Proof. eexists. vm_compute. repeat split; reflexivity. Qed.
